(** * Gitpod task terminals: reconciliation of tasks and terminal widgets

    A shallow embedding of
    [components/theia/packages/gitpod-extension/src/browser/gitpod-task-contribution.ts].

    The file follows the source top to bottom: the [GitpodTaskTerminalWidget]
    namespace (terminal ids), the widget heap and the [taskTerminals] map, the
    three callbacks installed by [init], the two asynchronous passes
    [initTerminals] and [updateTerminals], and the promise chain held in
    [pendingUpdates].  The asynchronous passes are written once, in a
    resumption monad whose nodes are the calls into the terminal subsystem;
    they are run either sequentially against an oracle for those calls
    ([run]) or as coroutines under an event loop ([step]). *)

From Stdlib Require Import Ascii String ZArith Lia.
From stdpp Require Import gmap strings list fin_maps pretty.

Open Scope string_scope.
Open Scope list_scope.
Open Scope Z_scope.
Open Scope nat_scope.

(** ** JavaScript strings *)

(** [s.split(sep)] for a one-character separator: the pieces between the
    occurrences of [sep], never an empty array. *)
Fixpoint split (sep : ascii) (s : string) : list string :=
  match s with
  | EmptyString => [EmptyString]
  | String c s' =>
      if Ascii.eqb c sep then EmptyString :: split sep s'
      else match split sep s' with
           | [] => [String c EmptyString]
           | x :: xs => String c x :: xs
           end
  end.

(** Occurrence of a character in a string. *)
Fixpoint contains (c : ascii) (s : string) : bool :=
  match s with
  | EmptyString => false
  | String c' s' => Ascii.eqb c' c || contains c s'
  end.

(** Truthiness of an optional string: [undefined] and the empty string are
    falsy. *)
Definition truthy (o : option string) : bool :=
  match o with
  | None => false
  | Some EmptyString => false
  | Some (String _ _) => true
  end.

(** [o || d] on an optional string. *)
Definition or_default (o : option string) (d : string) : string :=
  match o with
  | Some (String c s) => String c s
  | _ => d
  end.

(** An optional string inside a template literal. *)
Definition interpolate (o : option string) : string :=
  match o with
  | Some s => s
  | None => "undefined"
  end.

(** ** Tasks (gitpod-task-protocol) *)

Inductive GitpodTaskState : Type := OPENING | RUNNING | CLOSED.

#[global] Instance GitpodTaskState_eq_dec : EqDecision GitpodTaskState.
Proof. solve_decision. Defined.

Record Presentation : Type := {
  name : string;
  openIn : option string;
  openMode : option string
}.

Record GitpodTask : Type := {
  task_id : string;
  task_state : GitpodTaskState;
  task_terminal : option string;
  task_presentation : option Presentation
}.

(** ** Terminal widgets *)

Record TerminalOptions : Type := {
  o_id : option string;
  o_kind : option string;
  o_title : option string;
  o_useServerTitle : option bool
}.

(** A terminal widget; for a [GitpodTaskTerminalWidget], [kind] is
    ['gitpod-task'] and [remoteTerminal] is the attach latch. *)
Record Widget : Type := {
  w_id : string;
  kind : option string;
  title : option string;
  remoteTerminal : option string;
  terminalId : Z;
  disposed : bool
}.

Module GitpodTaskTerminalWidget.

Definition idPrefix : string := "gitpod-task-terminal".

Definition is_ (terminal : Widget) : bool :=
  match kind terminal with
  | Some k => String.eqb k "gitpod-task"
  | None => false
  end.

Definition toTerminalId (id : string) : string :=
  idPrefix +:+ ":" +:+ id.

(** [terminal.id.split(':')[1]]; [None] is [undefined]. *)
Definition getTaskId (terminal : Widget) : option string :=
  split ":" (w_id terminal) !! 1.

End GitpodTaskTerminalWidget.

Import GitpodTaskTerminalWidget.

(** ** Errors, calls into the terminal subsystem, observable events *)

Inductive Err : Type :=
| TypeError (msg : string)
| Failure (msg : string).

(** The calls whose outcome is decided outside this file. *)
Inductive ExtCall : Type :=
| CGetTasks
| CNewTerminal (o : TerminalOptions)
| CStart (h : nat)
| CActivate (h : nat) (ref : option nat) (area mode : string)
| COpen (h : nat)
| CExecuteCommand (h : nat) (cwd : string) (args : list string).

(** What the outside answers: an exception or rejection when [r_error] is
    set, else the payload the call reads ([getTasks] reads [r_tasks],
    [start] reads [r_terminalId]). *)
Record Response : Type := {
  r_error : option Err;
  r_tasks : list GitpodTask;
  r_terminalId : Z
}.

Inductive Event : Type :=
| ECall (c : ExtCall)
| EStartDetached (h : nat)
| EDispose (h : nat)
| EFetch (url : string)
| EConsoleError (msg : string) (detail : option Err).

(** ** The state the contribution works on *)

Record Location : Type := { protocol : string; host : string }.

Record World : Type := {
  widgets : gmap nat Widget;
  taskTerminals : gmap string nat;
  location : Location;
  trace : list Event
}.

Definition set_widgets (f : gmap nat Widget -> gmap nat Widget) (w : World) : World :=
  {| widgets := f (widgets w); taskTerminals := taskTerminals w;
     location := location w; trace := trace w |}.

Definition set_taskTerminals (f : gmap string nat -> gmap string nat) (w : World) : World :=
  {| widgets := widgets w; taskTerminals := f (taskTerminals w);
     location := location w; trace := trace w |}.

Definition emit (e : Event) (w : World) : World :=
  {| widgets := widgets w; taskTerminals := taskTerminals w;
     location := location w; trace := trace w ++ [e] |}.

Definition set_remoteTerminal (v : option string) (wd : Widget) : Widget :=
  {| w_id := w_id wd; kind := kind wd; title := title wd;
     remoteTerminal := v; terminalId := terminalId wd; disposed := disposed wd |}.

Definition set_terminalId (z : Z) (wd : Widget) : Widget :=
  {| w_id := w_id wd; kind := kind wd; title := title wd;
     remoteTerminal := remoteTerminal wd; terminalId := z; disposed := disposed wd |}.

Definition set_disposed (wd : Widget) : Widget :=
  {| w_id := w_id wd; kind := kind wd; title := title wd;
     remoteTerminal := remoteTerminal wd; terminalId := terminalId wd; disposed := true |}.

(** ** [init]: the callbacks installed on every created terminal *)

(** [terminal.onDidDispose(() => this.taskTerminals.delete(terminal.id))] *)
Definition onDidDispose (terminal : Widget) (w : World) : World :=
  set_taskTerminals (delete (w_id terminal)) w.

(** The [onTerminalDidClose] callback. *)
Definition onTerminalDidClose (terminal : Widget) (w : World) : World :=
  if truthy (remoteTerminal terminal) then
    emit (EFetch (protocol (location w) +:+ "//" +:+ host (location w)
                  +:+ "/_supervisor/v1/terminal/close/"
                  +:+ interpolate (remoteTerminal terminal))) w
  else
    emit (EConsoleError "task alias is missing" None) w.

(** The [onDidCreateTerminal] callback: task terminals are entered in
    [taskTerminals] under their id (and get the two callbacks above). *)
Definition onDidCreateTerminal (h : nat) (terminal : Widget) (w : World) : World :=
  if is_ terminal then set_taskTerminals <[w_id terminal := h]> w else w.

(** ** The terminal subsystem, as far as the contribution relies on it *)

(** Modelled from the spec: the terminal subsystem's widget factory is not
    part of this file.  A created widget carries the requested id and kind
    (a generated id when none is requested), has no backing session yet,
    and its creation is announced through [onDidCreateTerminal]. *)
Definition create_widget (o : TerminalOptions) (w : World) : nat * World :=
  let h := fresh (dom (widgets w)) in
  let terminal :=
    {| w_id := default ("terminal-" +:+ pretty h) (o_id o);
       kind := o_kind o; title := o_title o;
       remoteTerminal := None; terminalId := (-1)%Z; disposed := false |} in
  (h, onDidCreateTerminal h terminal (set_widgets <[h := terminal]> w)).

(** Modelled from the spec: disposing a widget is idempotent and runs the
    disposal callbacks; only task terminals have one installed. *)
Definition dispose_widget (h : nat) (w : World) : World :=
  match widgets w !! h with
  | Some terminal =>
      if disposed terminal then w
      else
        let w1 := set_widgets <[h := set_disposed terminal]> w in
        if is_ terminal then onDidDispose terminal w1 else w1
  | None => w
  end.

(** Modelled from the spec: the user closing a terminal fires the close
    callback of a task terminal and then disposes the widget. *)
Definition close_widget (h : nat) (w : World) : World :=
  match widgets w !! h with
  | Some terminal =>
      if disposed terminal then w
      else dispose_widget h (if is_ terminal then onTerminalDidClose terminal w else w)
  | None => w
  end.

(** A started terminal records the id of its backing session. *)
Definition started_widget (h : nat) (z : Z) (w : World) : World :=
  set_widgets (alter (set_terminalId z) h) w.

(** [this.terminals.all.length] *)
Definition all_length (w : World) : nat :=
  size (filter (fun p => disposed p.2 = false) (widgets w)).

(** ** Asynchronous code as resumptions *)

(** The result of running a piece of code up to its next call into the
    terminal subsystem. *)
Inductive Res (A : Type) : Type :=
| RetV (a : A) (w : World)
| ThrowV (e : Err) (w : World)
| CallV (c : ExtCall) (w : World) (k : Response -> World -> Res A).

Arguments RetV {A} a w.
Arguments ThrowV {A} e w.
Arguments CallV {A} c w k.

Definition M (A : Type) : Type := World -> Res A.

Definition ret {A} (a : A) : M A := fun w => RetV a w.

Definition throw {A} (e : Err) : M A := fun w => ThrowV e w.

Fixpoint bindR {A B} (r : Res A) (f : A -> M B) : Res B :=
  match r with
  | RetV a w => f a w
  | ThrowV e w => ThrowV e w
  | CallV c w k => CallV c w (fun resp w' => bindR (k resp w') f)
  end.

Definition bind {A B} (m : M A) (f : A -> M B) : M B :=
  fun w => bindR (m w) f.

(** [try { ... } catch (e) { ... }] *)
Fixpoint catchR {A} (r : Res A) (handler : Err -> M A) : Res A :=
  match r with
  | RetV a w => RetV a w
  | ThrowV e w => handler e w
  | CallV c w k => CallV c w (fun resp w' => catchR (k resp w') handler)
  end.

Definition try_catch {A} (m : M A) (handler : Err -> M A) : M A :=
  fun w => catchR (m w) handler.

Notation "'let*' x := m 'in' k" := (bind m (fun x => k))
  (at level 10, x name, m at level 100, k at level 200).
Notation "m >> k" := (bind m (fun _ => k))
  (at level 100, k at level 200, right associativity).

Definition gets {A} (f : World -> A) : M A := fun w => RetV (f w) w.

Definition modify (f : World -> World) : M unit := fun w => RetV tt (f w).

(** A call into the terminal subsystem: recorded when issued; the code
    resumes with the answer, or with the exception the answer carries. *)
Definition call (c : ExtCall) : M Response :=
  fun w => CallV c (emit (ECall c) w)
                 (fun resp w' =>
                    match r_error resp with
                    | Some e => ThrowV e w'
                    | None => RetV resp w'
                    end).

Definition console_error (msg : string) (e : Err) : M unit :=
  modify (emit (EConsoleError msg (Some e))).

(** ** Calls of the terminal subsystem, as used by the passes *)

(** [await this.terminals.newTerminal(options)] *)
Definition newTerminal (o : TerminalOptions) : M nat :=
  call (CNewTerminal o) >>
  fun w => let (h, w') := create_widget o w in RetV h w'.

(** [await terminal.start()] *)
Definition start (h : nat) : M unit :=
  let* resp := call (CStart h) in
  modify (started_widget h (r_terminalId resp)).

(** [terminal.start()] whose promise is dropped: nothing is awaited and a
    rejection reaches nobody. *)
Definition start_detached (h : nat) : M unit :=
  modify (emit (EStartDetached h)).

(** [this.terminals.activateTerminal(terminal, { ref, area, mode })] *)
Definition activateTerminal (h : nat) (ref : option nat) (area mode : string) : M unit :=
  call (CActivate h ref area mode) >> ret tt.

(** [this.terminals.open(terminal)] *)
Definition open (h : nat) : M unit :=
  call (COpen h) >> ret tt.

(** [await terminal.executeCommand({ cwd, args })] *)
Definition executeCommand (h : nat) (cwd : string) (args : list string) : M unit :=
  call (CExecuteCommand h cwd args) >> ret tt.

(** [terminal.dispose()] *)
Definition dispose (h : nat) : M unit :=
  modify (fun w => dispose_widget h (emit (EDispose h) w)).

(** [await this.server.getTasks()] *)
Definition getTasks : M (list GitpodTask) :=
  let* resp := call CGetTasks in ret (r_tasks resp).

(** [task.presentation!]: reading a property of it throws when it is
    [undefined]. *)
Definition presentation_of (task : GitpodTask) : M Presentation :=
  match task_presentation task with
  | Some p => ret p
  | None => throw (TypeError "Cannot read property 'name' of undefined")
  end.

(** ** [updateTerminals] *)

Definition attach_args (remote : option string) : list string :=
  split " " ("/theia/supervisor terminal attach " +:+ interpolate remote +:+ " -ir").

(** The body of the [try] block for one task. *)
Definition updateTask (task : GitpodTask) : M unit :=
  let id := toTerminalId (task_id task) in
  let* terminal := gets (fun w => taskTerminals w !! id) in
  match terminal with
  | None => ret tt
  | Some h =>
      if decide (task_state task = CLOSED) then dispose h
      else
        let* latch := gets (fun w => widgets w !! h ≫= remoteTerminal) in
        if negb (bool_decide (task_state task = RUNNING)) || truthy latch then ret tt
        else
          modify (set_widgets (alter (set_remoteTerminal (task_terminal task)) h)) >>
          let* remote := gets (fun w => widgets w !! h ≫= remoteTerminal) in
          executeCommand h "/workspace" (attach_args remote)
  end.

Fixpoint updateTerminals (tasks : list GitpodTask) : M unit :=
  match tasks with
  | [] => ret tt
  | task :: rest =>
      try_catch (updateTask task)
                (fun e => console_error "Failed to update Gitpod task terminal:" e) >>
      updateTerminals rest
  end.

(** ** [initTerminals] *)

(** The body of the [try] block for one task that is not [CLOSED]; the
    result is the new value of [ref]. *)
Definition initTask (validateId : Z -> bool) (task : GitpodTask) (ref : option nat)
  : M (option nat) :=
  let id := toTerminalId (task_id task) in
  let* terminal := gets (fun w => taskTerminals w !! id) in
  match terminal with
  | None =>
      let* p := presentation_of task in
      let* h := newTerminal {| o_id := Some id; o_kind := Some "gitpod-task";
                               o_title := Some (name p);
                               o_useServerTitle := Some false |} in
      start h >>
      activateTerminal h ref (or_default (openIn p) "bottom")
                             (or_default (openMode p) "tab-after") >>
      ret (Some h)
  | Some h =>
      let* tid := gets (fun w => default (-1)%Z (terminalId <$> widgets w !! h)) in
      (if validateId tid then ret tt else start h) >>
      ret (Some h)
  end.

Fixpoint initLoop (validateId : Z -> bool) (tasks : list GitpodTask) (ref : option nat)
  : M (option nat) :=
  match tasks with
  | [] => ret ref
  | task :: rest =>
      if decide (task_state task = CLOSED) then initLoop validateId rest ref
      else
        let* ref' :=
          try_catch (initTask validateId task ref)
                    (fun e => console_error "Failed to start Gitpod task terminal:" e >>
                              ret ref) in
        initLoop validateId rest ref'
  end.

(** The end of [initTerminals]: "if there is no terminal at all, lets
    start one". *)
Definition openDefaultTerminal : M unit :=
  let* n := gets all_length in
  if (n =? 0)%nat then
    let* h := newTerminal {| o_id := None; o_kind := None; o_title := None;
                             o_useServerTitle := None |} in
    start_detached h >>
    open h
  else ret tt.

Definition initTerminals (validateId : Z -> bool) : M unit :=
  let* tasks := getTasks in
  initLoop validateId tasks None >>
  updateTerminals tasks >>
  openDefaultTerminal.

(** ** Sequential runs *)

(** The outside as an oracle: the answer to the [n]-th call. *)
Definition Oracle : Type := nat -> ExtCall -> Response.

Inductive Final (A : Type) : Type :=
| Returned (a : A) (w : World) (n : nat)
| Thrown (e : Err) (w : World) (n : nat).

Arguments Returned {A} a w n.
Arguments Thrown {A} e w n.

(** Runs code to its end with nothing else happening in between; [n]
    counts the calls answered so far. *)
Fixpoint run {A} (env : Oracle) (n : nat) (r : Res A) : Final A :=
  match r with
  | RetV a w => Returned a w n
  | ThrowV e w => Thrown e w n
  | CallV c w k => run env (S n) (k (env n c) w)
  end.

Definition final_world {A} (f : Final A) : World :=
  match f with
  | Returned _ w _ => w
  | Thrown _ w _ => w
  end.

Definition ok : Response := {| r_error := None; r_tasks := []; r_terminalId := 1%Z |}.
Definition failing (e : Err) : Response :=
  {| r_error := Some e; r_tasks := []; r_terminalId := (-1)%Z |}.
Definition tasks_response (l : list GitpodTask) : Response :=
  {| r_error := None; r_tasks := l; r_terminalId := 1%Z |}.

Definition empty_world : World :=
  {| widgets := ∅; taskTerminals := ∅;
     location := {| protocol := "https:"; host := "ws.gitpod.io" |}; trace := [] |}.

(** ** The event loop and the [pendingUpdates] chain *)

(** What the user and the terminal subsystem do to terminals on their own. *)
Inductive UiAction : Type :=
| UCreate (o : TerminalOptions)
| UDispose (h : nat)
| UClose (h : nat)
| UStarted (h : nat) (z : Z).

Definition ui (a : UiAction) (w : World) : World :=
  match a with
  | UCreate o => (create_widget o w).2
  | UDispose h => dispose_widget h w
  | UClose h => close_widget h w
  | UStarted h z => started_widget h z w
  end.

Inductive Settled : Type := SFulfilled | SRejected (e : Err).

(** The callbacks this file hangs on promises; [q] is the promise that
    [then] or [catch] returned. *)
Inductive Reaction : Type :=
| ThenUpdate (n : nat) (tasks : list GitpodTask) (q : nat)
| CatchLog (q : nat)
| Adopt (q : nat).

Inductive PState : Type :=
| Pending (rs : list Reaction)
| Done (st : Settled).

(** The two ends of a pass, numbered in the order of submission. *)
Inductive HEvent : Type := HStart (n : nat) | HEnd (n : nat).

(** A pass suspended at a call. *)
Record Coroutine : Type := {
  co_pass : nat;
  co_promise : nat;
  co_call : ExtCall;
  co_k : Response -> World -> Res unit
}.

Record Sys : Type := {
  world : World;
  promises : gmap nat PState;
  next_promise : nat;
  jobs : list (Reaction * Settled);
  coros : list Coroutine;
  pendingUpdates : nat;
  client : bool;
  submitted : nat;
  hist : list HEvent
}.

Definition with_world (w : World) (s : Sys) : Sys :=
  {| world := w; promises := promises s; next_promise := next_promise s;
     jobs := jobs s; coros := coros s; pendingUpdates := pendingUpdates s;
     client := client s; submitted := submitted s; hist := hist s |}.

Definition with_promises (m : gmap nat PState) (s : Sys) : Sys :=
  {| world := world s; promises := m; next_promise := next_promise s;
     jobs := jobs s; coros := coros s; pendingUpdates := pendingUpdates s;
     client := client s; submitted := submitted s; hist := hist s |}.

Definition with_jobs (l : list (Reaction * Settled)) (s : Sys) : Sys :=
  {| world := world s; promises := promises s; next_promise := next_promise s;
     jobs := l; coros := coros s; pendingUpdates := pendingUpdates s;
     client := client s; submitted := submitted s; hist := hist s |}.

Definition with_coros (l : list Coroutine) (s : Sys) : Sys :=
  {| world := world s; promises := promises s; next_promise := next_promise s;
     jobs := jobs s; coros := l; pendingUpdates := pendingUpdates s;
     client := client s; submitted := submitted s; hist := hist s |}.

Definition record (e : HEvent) (s : Sys) : Sys :=
  {| world := world s; promises := promises s; next_promise := next_promise s;
     jobs := jobs s; coros := coros s; pendingUpdates := pendingUpdates s;
     client := client s; submitted := submitted s; hist := hist s ++ [e] |}.

(** [this.pendingUpdates = q], counting the pass as submitted. *)
Definition assign_pendingUpdates (q : nat) (s : Sys) : Sys :=
  {| world := world s; promises := promises s; next_promise := next_promise s;
     jobs := jobs s; coros := coros s; pendingUpdates := q;
     client := client s; submitted := S (submitted s); hist := hist s |}.

Definition setClient (s : Sys) : Sys :=
  {| world := world s; promises := promises s; next_promise := next_promise s;
     jobs := jobs s; coros := coros s; pendingUpdates := pendingUpdates s;
     client := true; submitted := submitted s; hist := hist s |}.

Definition new_promise (s : Sys) : nat * Sys :=
  let p := next_promise s in
  (p, {| world := world s; promises := <[p := Pending []]> (promises s);
         next_promise := S p;
         jobs := jobs s; coros := coros s; pendingUpdates := pendingUpdates s;
         client := client s; submitted := submitted s; hist := hist s |}).

(** Settling a pending promise queues its reactions as jobs. *)
Definition settle (p : nat) (st : Settled) (s : Sys) : Sys :=
  match promises s !! p with
  | Some (Pending rs) =>
      with_jobs (jobs s ++ map (fun r => (r, st)) rs)
                (with_promises (<[p := Done st]> (promises s)) s)
  | _ => s
  end.

(** [p.then(...)] and [p.catch(...)]: on a settled promise the reaction is
    queued at once. *)
Definition react (p : nat) (r : Reaction) (s : Sys) : Sys :=
  match promises s !! p with
  | Some (Pending rs) => with_promises (<[p := Pending (rs ++ [r])]> (promises s)) s
  | Some (Done st) => with_jobs (jobs s ++ [(r, st)]) s
  | None => s
  end.

(** Runs the body of pass [n] up to its next call; at its end the promise
    [p] of the [async] function settles. *)
Definition drive (n p : nat) (r : Res unit) (s : Sys) : Sys :=
  match r with
  | RetV _ w => settle p SFulfilled (record (HEnd n) (with_world w s))
  | ThrowV e w => settle p (SRejected e) (record (HEnd n) (with_world w s))
  | CallV c w k =>
      with_coros (coros s ++ [{| co_pass := n; co_promise := p;
                                 co_call := c; co_k := k |}])
                 (with_world w s)
  end.

(** Calling an [async] function: the body starts at once. *)
Definition call_async (n : nat) (body : M unit) (s : Sys) : nat * Sys :=
  let (p, s1) := new_promise s in
  let s2 := record (HStart n) s1 in
  (p, drive n p (body (world s2)) s2).

(** [onDidChange: tasks => this.pendingUpdates =
      this.pendingUpdates.then(() => this.updateTerminals(tasks))] *)
Definition onDidChange (tasks : list GitpodTask) (s : Sys) : Sys :=
  let (q, s1) := new_promise s in
  assign_pendingUpdates q
    (react (pendingUpdates s) (ThenUpdate (submitted s) tasks q) s1).

Definition onDidInitializeLayout (validateId : Z -> bool) (s : Sys) : Sys :=
  let (r, s1) := call_async (submitted s) (initTerminals validateId) s in
  let (q, s2) := new_promise s1 in
  setClient (assign_pendingUpdates q (react r (CatchLog q) s2)).

Definition run_job (j : Reaction * Settled) (s : Sys) : Sys :=
  match j with
  | (ThenUpdate n tasks q, SFulfilled) =>
      let (r, s1) := call_async n (updateTerminals tasks) s in
      react r (Adopt q) s1
  | (ThenUpdate n tasks q, SRejected e) => settle q (SRejected e) s
  | (CatchLog q, SFulfilled) => settle q SFulfilled s
  | (CatchLog q, SRejected e) =>
      settle q SFulfilled
        (with_world
           (emit (EConsoleError "Failed to initizalize Gitpod task terminals:" (Some e))
                 (world s)) s)
  | (Adopt q, st) => settle q st s
  end.

(** [private pendingUpdates = Promise.resolve()], nothing else yet. *)
Definition boot (w : World) : Sys :=
  {| world := w; promises := {[ 0 := Done SFulfilled ]}; next_promise := 1;
     jobs := []; coros := []; pendingUpdates := 0; client := false;
     submitted := 0; hist := [] |}.

Inductive Label : Type :=
| LLayout
| LPush (tasks : list GitpodTask)
| LJob
| LResume (i : nat) (resp : Response)
| LUi (a : UiAction).

(** One turn of the event loop.  Jobs (promise reactions) run before
    anything else; the layout is initialised once; pushes arrive once the
    client is set. *)
Definition step (validateId : Z -> bool) (l : Label) (s : Sys) : option Sys :=
  match l, jobs s with
  | LJob, j :: js => Some (run_job j (with_jobs js s))
  | LJob, [] => None
  | LLayout, [] =>
      if client s then None else Some (onDidInitializeLayout validateId s)
  | LPush tasks, [] =>
      if client s then Some (onDidChange tasks s) else None
  | LResume i resp, [] =>
      match coros s !! i with
      | Some co =>
          Some (drive (co_pass co) (co_promise co) (co_k co resp (world s))
                      (with_coros (delete i (coros s)) s))
      | None => None
      end
  | LUi a, [] => Some (with_world (ui a (world s)) s)
  | _, _ :: _ => None
  end.

Fixpoint exec (validateId : Z -> bool) (ls : list Label) (s : Sys) : option Sys :=
  match ls with
  | [] => Some s
  | l :: ls' =>
      match step validateId l s with
      | Some s' => exec validateId ls' s'
      | None => None
      end
  end.

(** The history of passes [0 .. k-1] run one after the other. *)
Fixpoint serial_from (i k : nat) : list HEvent :=
  match k with
  | 0 => []
  | S k' => HStart i :: HEnd i :: serial_from (S i) k'
  end.

Definition serial (k : nat) : list HEvent := serial_from 0 k.

(** ** Predicates used in the statements *)

(** Every entry of [taskTerminals] leads to a live task terminal that
    carries the entry's key as its id. *)
Definition registry_live (w : World) : Prop :=
  forall (id : string) (h : nat),
    taskTerminals w !! id = Some h ->
    exists terminal,
      widgets w !! h = Some terminal /\ disposed terminal = false /\
      w_id terminal = id /\ is_ terminal = true.

(** [Safe I Q E r]: code [r] keeps the invariant [I] at every point where
    it stops, whatever happens to the state while it is suspended as long
    as [I] is kept; it returns only with [Q] and throws only errors in [E]. *)
Inductive Safe {A} (I : World -> Prop) (Q : A -> World -> Prop) (E : Err -> Prop)
  : Res A -> Prop :=
| Safe_RetV a w : I w -> Q a w -> Safe I Q E (RetV a w)
| Safe_ThrowV e w : I w -> E e -> Safe I Q E (ThrowV e w)
| Safe_CallV c w k :
    I w -> (forall resp w', I w' -> Safe I Q E (k resp w')) ->
    Safe I Q E (CallV c w k).

(** ** Invariants of the passes and of the event loop, sample data *)

(** A live task terminal with the given id and latch. *)
Definition sample_terminal (id : string) (remote : option string) : Widget :=
  {| w_id := id; kind := Some "gitpod-task"; title := None;
     remoteTerminal := remote; terminalId := 1%Z; disposed := false |}.

(** A state with one terminal, handle [0], registered under its id. *)
Definition sample_world (terminal : Widget) : World :=
  {| widgets := {[ 0 := terminal ]};
     taskTerminals := {[ w_id terminal := 0 ]};
     location := {| protocol := "https:"; host := "ws.gitpod.io" |};
     trace := [] |}.

(** Trivial postconditions, and the two sets of errors used with [Safe]. *)
Definition anything {A} : A -> World -> Prop := fun _ _ => True.

Definition any_error : Err -> Prop := fun _ => True.

Definition no_error : Err -> Prop := fun _ => False.

(** The options [initTerminals] passes to [newTerminal] for a task, and
    the empty options of the default terminal. *)
Definition task_options (task : GitpodTask) (p : Presentation) : TerminalOptions :=
  {| o_id := Some (toTerminalId (task_id task)); o_kind := Some "gitpod-task";
     o_title := Some (name p); o_useServerTitle := Some false |}.

Definition generic_options : TerminalOptions :=
  {| o_id := None; o_kind := None; o_title := None; o_useServerTitle := None |}.

(** The invariant that says nothing. *)
Definition always (w : World) : Prop := True.

(** The events added since [w0] all satisfy [good]. *)
Definition only (w0 : World) (good : Event -> Prop) (w : World) : Prop :=
  exists evs, trace w = trace w0 ++ evs /\ Forall good evs.

(** The event is not a request for a terminal of task [i]. *)
Definition not_created_for (i : string) (e : Event) : Prop :=
  forall o, e = ECall (CNewTerminal o) -> o_id o <> Some (toTerminalId i).

(** The event is not a request for a terminal at all. *)
Definition not_a_creation (e : Event) : Prop :=
  forall o, e <> ECall (CNewTerminal o).

(** [Stable I]: [I] survives each effect a pass has on the state. *)
Record Stable (I : World -> Prop) : Prop := {
  st_console : forall w msg e, I w -> I (emit (EConsoleError msg e) w);
  st_dispose : forall w task h,
      I w -> taskTerminals w !! toTerminalId (task_id task) = Some h ->
      task_state task = CLOSED ->
      I (dispose_widget h (emit (EDispose h) w));
  st_attach : forall w task h,
      I w -> taskTerminals w !! toTerminalId (task_id task) = Some h ->
      task_state task = RUNNING ->
      truthy (widgets w !! h ≫= remoteTerminal) = false ->
      I (emit (ECall (CExecuteCommand h "/workspace"
                        (attach_args
                           (widgets (set_widgets (alter (set_remoteTerminal (task_terminal task)) h) w)
                              !! h ≫= remoteTerminal))))
              (set_widgets (alter (set_remoteTerminal (task_terminal task)) h) w));
  st_new : forall w o, I w -> I (emit (ECall (CNewTerminal o)) w);
  st_created : forall w o, I w -> I (create_widget o w).2;
  st_start : forall w h, I w -> I (emit (ECall (CStart h)) w);
  st_started : forall w h z, I w -> I (started_widget h z w);
  st_activate : forall w h ref area mode,
      I w -> I (emit (ECall (CActivate h ref area mode)) w);
  st_getTasks : forall w, I w -> I (emit (ECall CGetTasks) w);
  st_detached : forall w h, I w -> I (emit (EStartDetached h) w);
  st_open : forall w h, I w -> I (emit (ECall (COpen h)) w)
}.

(** The [remoteTerminal] field of terminal [h] reads [X]. *)
Definition remote_is (h : nat) (X : option string) (w : World) : Prop :=
  exists terminal, widgets w !! h = Some terminal /\ remoteTerminal terminal = X.

(** Terminal [h] holds the remote session id [r]. *)
Definition latched (h : nat) (r : string) (w : World) : Prop :=
  remote_is h (Some r) w.

(** The event is not an [executeCommand] on terminal [h]. *)
Definition not_attach (h : nat) (e : Event) : Prop :=
  forall cwd args, e <> ECall (CExecuteCommand h cwd args).

(** The latch of [h] holds [r] and no [executeCommand] on [h] was issued
    since [w0]. *)
Definition latch_inv (w0 : World) (h : nat) (r : string) (w : World) : Prop :=
  latched h r w /\ only w0 (not_attach h) w.

(** Widgets are never removed from the heap. *)
Definition heap_grows (w0 w : World) : Prop :=
  forall h, is_Some (widgets w0 !! h) -> is_Some (widgets w !! h).


(** Every suspended pass keeps [I] when resumed in a state satisfying [I]. *)
Definition coros_keep (I : World -> Prop) (s : Sys) : Prop :=
  Forall (fun co => forall resp w, I w -> Safe I anything any_error (co_k co resp w))
         (coros s).

(** [I] holds now and is kept by whatever is suspended. *)
Definition sys_keeps (I : World -> Prop) (s : Sys) : Prop :=
  I (world s) /\ coros_keep I s.

(** The promises of the passes not yet started, from [p] (whose
    fulfilment starts pass [n]) to the tail [pendingUpdates], which
    nothing follows yet. *)
Inductive Waiting (ps : gmap nat PState) (tail N : nat) : nat -> nat -> Prop :=
| Waiting_tail :
    ps !! tail = Some (Pending []) -> Waiting ps tail N tail N
| Waiting_cons p n tasks q :
    ps !! p = Some (Pending [ThenUpdate n tasks q]) -> n < N ->
    Waiting ps tail N q (S n) -> Waiting ps tail N p n.

(** What hangs on the promise of a running pass: [catch] for the
    bootstrap pass, the adoption by the promise of [then] for an update. *)
Definition continuation (c q : nat) : Reaction :=
  match c with
  | 0 => CatchLog q
  | S _ => Adopt q
  end.

(** Where the chain stands. *)
Inductive Phase (s : Sys) : Prop :=
| Idle :
    promises s !! pendingUpdates s = Some (Done SFulfilled) ->
    jobs s = [] -> coros s = [] ->
    hist s = serial (submitted s) ->
    Phase s
| Queued c tasks q :
    jobs s = [(ThenUpdate c tasks q, SFulfilled)] -> coros s = [] ->
    c <> 0 -> hist s = serial c ->
    Waiting (promises s) (pendingUpdates s) (submitted s) q (S c) ->
    Phase s
| Running co q :
    coros s = [co] -> jobs s = [] ->
    hist s = serial (co_pass co) ++ [HStart (co_pass co)] ->
    promises s !! co_promise co = Some (Pending [continuation (co_pass co) q]) ->
    (co_pass co = 0 -> co_promise co = 1) ->
    (co_pass co <> 0 ->
     forall resp w, Safe always anything no_error (co_k co resp w)) ->
    Waiting (promises s) (pendingUpdates s) (submitted s) q (S (co_pass co)) ->
    Phase s
| Settling c q st :
    jobs s = [(continuation c q, st)] -> coros s = [] ->
    (c <> 0 -> st = SFulfilled) ->
    hist s = serial (S c) ->
    Waiting (promises s) (pendingUpdates s) (submitted s) q (S c) ->
    Phase s.

(** Promise ids are handed out in order, and only promise [1], the one of
    [initTerminals()], is ever rejected. *)
Definition store_ok (s : Sys) : Prop :=
  (forall p, next_promise s <= p -> promises s !! p = None) /\
  (forall p e, promises s !! p = Some (Done (SRejected e)) -> p = 1).

(** The invariant of the chain: a phase, an orderly promise store, and
    no pass submitted before the layout is initialised. *)
Definition chain_inv (s : Sys) : Prop :=
  Phase s /\ store_ok s /\
  (if client s then 0 < submitted s else submitted s = 0 /\ next_promise s = 1).

(** A promise state that no promise of a waiting pass [>= n] has. *)
Definition foreign (n : nat) (st : PState) : Prop :=
  match st with
  | Pending [] => False
  | Pending [ThenUpdate m _ _] => m < n
  | _ => True
  end.

(** Projections of updated [Sys] records. *)
Ltac sys_simpl :=
  cbn [assign_pendingUpdates with_jobs with_world with_promises with_coros record
       setClient new_promise fst snd
       world promises next_promise jobs coros pendingUpdates client submitted hist] in *.

(** Terminal [h] is registered for the terminal id [tid] and its
    [remoteTerminal] reads [X]. *)
Definition bound (tid : string) (h : nat) (X : option string) (w : World) : Prop :=
  registry_live w /\ taskTerminals w !! tid = Some h /\ remote_is h X w.

(** Nothing is registered for the terminal id [tid]. *)
Definition unbound (tid : string) (w : World) : Prop :=
  registry_live w /\ taskTerminals w !! tid = None.

(** The task is not the one whose terminal id is [tid]. *)
Definition other (tid : string) (task : GitpodTask) : Prop :=
  toTerminalId (task_id task) <> tid.

(** The trace of [w] extends the trace of [w0]. *)
Definition trace_grows (w0 w : World) : Prop := only w0 (fun _ => True) w.

(** A terminal-id check for the examples: [-1] is no session. *)
Definition valid_id (z : Z) : bool := negb (z =? -1)%Z.

(** A task with a presentation named ["build"] and default placement. *)
Definition sample_task (id : string) (st : GitpodTaskState) (remote : option string)
  : GitpodTask :=
  {| task_id := id; task_state := st; task_terminal := remote;
     task_presentation := Some {| name := "build"; openIn := None; openMode := None |} |}.

(** Every call succeeds; [getTasks] answers [tasks]. *)
Definition answering (tasks : list GitpodTask) : Oracle :=
  fun _ c => match c with CGetTasks => tasks_response tasks | _ => ok end.

(** Every [start] is rejected, every other call succeeds. *)
Definition rejecting_start (tasks : list GitpodTask) : Oracle :=
  fun _ c => match c with
             | CGetTasks => tasks_response tasks
             | CStart _ => failing (Failure "start failed")
             | _ => ok
             end.



(** A run of the event loop: the layout is initialised, two pushes
    arrive while the bootstrap pass is suspended, every call is answered,
    the user opens and closes a terminal of their own. *)
Definition sample_schedule : list Label :=
  [LLayout;
   LPush [sample_task "t1" RUNNING (Some "r1")];
   LResume 0 (tasks_response [sample_task "t1" RUNNING (Some "r1")]);
   LPush [sample_task "t1" CLOSED (Some "r1")];
   LResume 0 ok; LUi (UCreate generic_options); LResume 0 ok; LResume 0 ok; LResume 0 ok;
   LJob; LJob; LJob; LJob; LJob; LUi (UClose 1)].

(** ** What the passes leave alone, further sample data *)

(** Same widgets as in [w0], each with its id, kind and backing session
    unchanged, and no registry entry that [w0] does not have. *)
Definition shrinks (w0 w : World) : Prop :=
  taskTerminals w ⊆ taskTerminals w0 /\
  forall h, match widgets w !! h, widgets w0 !! h with
            | Some t, Some t0 =>
                w_id t = w_id t0 /\ kind t = kind t0 /\ title t = title t0 /\
                terminalId t = terminalId t0
            | None, None => True
            | _, _ => False
            end.

(** Nothing is left to do for the task: no terminal is registered for it,
    or the task is neither [CLOSED] nor a [RUNNING] task whose terminal is
    not latched yet. *)
Definition settled (task : GitpodTask) (w : World) : Prop :=
  match taskTerminals w !! toTerminalId (task_id task) with
  | None => True
  | Some h =>
      task_state task <> CLOSED /\
      (task_state task <> RUNNING \/ truthy (widgets w !! h ≫= remoteTerminal) = true)
  end.

(** A [RUNNING] task carries a non-empty remote session id. *)
Definition attachable (task : GitpodTask) : Prop :=
  task_state task = RUNNING -> truthy (task_terminal task) = true.

(** The event is not a request for a terminal with the id [tid]. *)
Definition not_requested (tid : string) (e : Event) : Prop :=
  forall o, e = ECall (CNewTerminal o) -> o_id o <> Some tid.

(** The latches are those of [w0] and no command was executed since. *)
Definition unattached_since (w0 w : World) : Prop :=
  only w0 (fun e => forall h cwd args, e <> ECall (CExecuteCommand h cwd args)) w /\
  forall h, widgets w !! h ≫= remoteTerminal = widgets w0 !! h ≫= remoteTerminal.

(** The registry and the disposal flags are those of [w0] and nothing was
    disposed since. *)
Definition undisposed_since (w0 w : World) : Prop :=
  only w0 (fun e => forall h, e <> EDispose h) w /\
  taskTerminals w = taskTerminals w0 /\
  forall h, disposed <$> widgets w !! h = disposed <$> widgets w0 !! h.

(** An event of the bootstrap loop. *)
Definition loop_event (e : Event) : Prop :=
  match e with
  | ECall (CNewTerminal _) | ECall (CStart _) | ECall (CActivate _ _ _ _) => True
  | EConsoleError _ _ => True
  | _ => False
  end.

(** Since [w0] only loop events happened, every widget of [w0] is still
    there with its id, kind, latch and disposal flag, and every registered
    id is still registered. *)
Definition loop_footprint (w0 w : World) : Prop :=
  only w0 loop_event w /\
  (forall h t0, widgets w0 !! h = Some t0 ->
     exists t, widgets w !! h = Some t /\ w_id t = w_id t0 /\ kind t = kind t0 /\
               remoteTerminal t = remoteTerminal t0 /\ disposed t = disposed t0) /\
  (forall id, is_Some (taskTerminals w0 !! id) -> is_Some (taskTerminals w !! id)).

(** Every [executeCommand] is rejected, every other call succeeds. *)
Definition rejecting_attach : Oracle :=
  fun _ c => match c with
             | CExecuteCommand _ _ _ => failing (Failure "attach failed")
             | _ => ok
             end.

(** Every call fails. *)
Definition offline : Oracle := fun _ _ => failing (Failure "offline").

(** ** Disposal of a registered terminal, an interrupted pass *)

(** Terminal [h] is registered under [tid], the registry is live and the
    trace extends the trace of [w0]. *)
Definition held (w0 : World) (tid : string) (h : nat) (w : World) : Prop :=
  registry_live w /\ taskTerminals w !! tid = Some h /\ trace_grows w0 w.

(** Nothing is registered under [tid] and terminal [h] is disposed, by a
    [dispose] issued since [w0]. *)
Definition gone (w0 : World) (tid : string) (h : nat) (w : World) : Prop :=
  registry_live w /\
  taskTerminals w !! tid = None /\
  (exists t, widgets w !! h = Some t /\ disposed t = true) /\
  exists evs, trace w = trace w0 ++ evs /\ EDispose h ∈ evs.

Definition held_or_gone (w0 : World) (tid : string) (h : nat) (w : World) : Prop :=
  held w0 tid h w \/ gone w0 tid h w.

(** A run of the event loop in which the user closes the terminal of
    task ["t1"] (handle 0) while the bootstrap pass waits for the terminal
    of task ["t2"]; every call is answered without error. *)
Definition interrupted_schedule : list Label :=
  [LLayout;
   LResume 0 (tasks_response [sample_task "t1" RUNNING (Some "r1");
                              sample_task "t2" RUNNING (Some "r2")]);
   LResume 0 ok; LResume 0 ok; LResume 0 ok;
   LUi (UClose 0);
   LResume 0 ok; LResume 0 ok; LResume 0 ok; LResume 0 ok;
   LJob].

(** * Properties *)



(** ** Strings and terminal ids *)

Lemma split_without_sep (sep : ascii) (s : string) :
  contains sep s = false -> split sep s = [s].
Proof.
  induction s as [|c s IH]; simpl; [done|].
  intros H. apply orb_false_iff in H as [Hc Hs].
  rewrite Hc, (IH Hs). done.
Qed.

Lemma split_at_first_sep (sep : ascii) (p s : string) :
  contains sep p = false ->
  split sep (p +:+ String sep s) = p :: split sep s.
Proof.
  induction p as [|c p IH]; simpl.
  - intros _. by rewrite Ascii.eqb_refl.
  - intros H. apply orb_false_iff in H as [Hc Hp].
    rewrite Hc, (IH Hp). done.
Qed.

Lemma toTerminalId_inj (s s' : string) :
  toTerminalId s = toTerminalId s' -> s = s'.
Proof. unfold toTerminalId, idPrefix. cbn. intros H. by simplify_eq. Qed.

Lemma split_toTerminalId (s : string) :
  split ":" (toTerminalId s) = idPrefix :: split ":" s.
Proof.
  exact (split_at_first_sep ":" idPrefix s eq_refl).
Qed.

(** C8 (amended): the terminal id of a task is the fixed prefix
    ["gitpod-task-terminal:"] followed by the task id, distinct task ids
    get distinct terminal ids, and for a task id without a colon
    [getTaskId] gives the task id back from a terminal carrying that id. *)
Theorem getTaskId_toTerminalId (s : string) (terminal : Widget) :
  contains ":" s = false ->
  w_id terminal = toTerminalId s ->
  toTerminalId s = "gitpod-task-terminal:" +:+ s /\
  (forall s', toTerminalId s = toTerminalId s' -> s = s') /\
  getTaskId terminal = Some s.
Proof.
  intros Hs Hid. split; [done|]. split.
  - intros s'. apply toTerminalId_inj.
  - unfold getTaskId. rewrite Hid, split_toTerminalId.
    by rewrite (split_without_sep _ _ Hs).
Qed.

(** C8 on the task id ["t1"]. *)
Lemma getTaskId_toTerminalId_witness :
  toTerminalId "t1" = "gitpod-task-terminal:" +:+ "t1" /\
  (forall s', toTerminalId "t1" = toTerminalId s' -> "t1" = s') /\
  getTaskId (sample_terminal (toTerminalId "t1") None) = Some "t1".
Proof.
  apply (getTaskId_toTerminalId "t1" (sample_terminal (toTerminalId "t1") None));
    reflexivity.
Defined.

(** C8, counterexample: for the task id ["a:b"] the terminal id is
    ["gitpod-task-terminal:a:b"], and [getTaskId] answers ["a"]. *)
Lemma getTaskId_colon_counterexample :
  w_id (sample_terminal (toTerminalId "a:b") None) = "gitpod-task-terminal:a:b" /\
  getTaskId (sample_terminal (toTerminalId "a:b") None) = Some "a" /\
  getTaskId (sample_terminal (toTerminalId "a:b") None) <> Some "a:b".
Proof. repeat split. discriminate. Qed.

(** ** The close callback *)

Lemma truthy_Some (r : string) : r <> "" -> truthy (Some r) = true.
Proof. by destruct r. Qed.

(** C6 (amended): when the user closes a live task terminal, the close
    callback runs on it, and what the callback does is all the close adds
    to the trace.  If [remoteTerminal] holds a non-empty remote session id,
    the callback issues exactly one close request, to
    [/_supervisor/v1/terminal/close/<id>] on the current origin; if
    [remoteTerminal] is unset or empty, it issues no request and records
    the diagnostic ["task alias is missing"]. *)
Theorem close_notifies_supervisor (h : nat) (terminal : Widget) (w : World) :
  widgets w !! h = Some terminal ->
  disposed terminal = false ->
  is_ terminal = true ->
  trace (close_widget h w) = trace (onTerminalDidClose terminal w) /\
  (forall r, remoteTerminal terminal = Some r -> r <> "" ->
     onTerminalDidClose terminal w =
     emit (EFetch (protocol (location w) +:+ "//" +:+ host (location w)
                   +:+ "/_supervisor/v1/terminal/close/" +:+ r)) w) /\
  (remoteTerminal terminal = None \/ remoteTerminal terminal = Some "" ->
     onTerminalDidClose terminal w =
     emit (EConsoleError "task alias is missing" None) w).
Proof.
  intros Hh Hd Ht. split; [|split].
  - unfold close_widget. rewrite Hh, Hd, Ht.
    unfold dispose_widget, onTerminalDidClose.
    destruct (truthy (remoteTerminal terminal)); simpl; rewrite Hh, Hd, Ht; done.
  - intros r Hr Hne. unfold onTerminalDidClose. by rewrite Hr, (truthy_Some _ Hne).
  - unfold onTerminalDidClose. by intros [-> | ->].
Qed.

(** C6 on a terminal attached to ["r2"] and on one never attached. *)
Lemma close_notifies_supervisor_witness :
  trace (close_widget 0 (sample_world (sample_terminal (toTerminalId "t2") (Some "r2")))) =
  [EFetch "https://ws.gitpod.io/_supervisor/v1/terminal/close/r2"] /\
  trace (close_widget 0 (sample_world (sample_terminal (toTerminalId "t3") None))) =
  [EConsoleError "task alias is missing" None].
Proof.
  split.
  - destruct (close_notifies_supervisor 0 (sample_terminal (toTerminalId "t2") (Some "r2"))
                (sample_world (sample_terminal (toTerminalId "t2") (Some "r2")))
                eq_refl eq_refl eq_refl) as (Htr & Hset & _).
    rewrite Htr, (Hset "r2" eq_refl); [reflexivity|discriminate].
  - destruct (close_notifies_supervisor 0 (sample_terminal (toTerminalId "t3") None)
                (sample_world (sample_terminal (toTerminalId "t3") None))
                eq_refl eq_refl eq_refl) as (Htr & _ & Hunset).
    rewrite Htr, Hunset; [reflexivity|by left].
Defined.

(** C6, counterexample: a task terminal whose [remoteTerminal] was set to
    the empty string is closed without any close request; the diagnostic is
    recorded instead. *)
Lemma close_empty_alias_counterexample :
  remoteTerminal (sample_terminal (toTerminalId "t1") (Some "")) = Some "" /\
  trace (close_widget 0 (sample_world (sample_terminal (toTerminalId "t1") (Some "")))) =
  [EConsoleError "task alias is missing" None] /\
  trace (close_widget 0 (sample_world (sample_terminal (toTerminalId "t1") (Some "")))) <>
  [EFetch ("https:" +:+ "//" +:+ "ws.gitpod.io" +:+ "/_supervisor/v1/terminal/close/" +:+ "")].
Proof. repeat split. discriminate. Qed.

(** ** Running resumptions *)

Lemma run_bindR {A B} (env : Oracle) (r : Res A) (f : A -> M B) (n : nat) :
  run env n (bindR r f) =
  match run env n r with
  | Returned a w n' => run env n' (f a w)
  | Thrown e w n' => Thrown e w n'
  end.
Proof. revert n. induction r as [| |c w k IH]; intros n; simpl; auto. Qed.

Lemma run_catchR {A} (env : Oracle) (r : Res A) (handler : Err -> M A) (n : nat) :
  run env n (catchR r handler) =
  match run env n r with
  | Returned a w n' => Returned a w n'
  | Thrown e w n' => run env n' (handler e w)
  end.
Proof. revert n. induction r as [| |c w k IH]; intros n; simpl; auto. Qed.

Lemma run_bind {A B} (env : Oracle) (m : M A) (f : A -> M B) (n : nat) (w : World) :
  run env n (bind m f w) =
  match run env n (m w) with
  | Returned a w' n' => run env n' (f a w')
  | Thrown e w' n' => Thrown e w' n'
  end.
Proof. apply run_bindR. Qed.

Lemma run_try_catch {A} (env : Oracle) (m : M A) (handler : Err -> M A)
      (n : nat) (w : World) :
  run env n (try_catch m handler w) =
  match run env n (m w) with
  | Returned a w' n' => Returned a w' n'
  | Thrown e w' n' => run env n' (handler e w')
  end.
Proof. apply run_catchR. Qed.

(** ** Rules for [Safe] *)

Section SafeRules.
Context {A B : Type} (I : World -> Prop).

Lemma Safe_mono (Q Q' : A -> World -> Prop) (E E' : Err -> Prop) (r : Res A) :
  (forall a w, Q a w -> Q' a w) -> (forall e, E e -> E' e) ->
  Safe I Q E r -> Safe I Q' E' r.
Proof.
  intros HQ HE. induction 1; constructor; auto.
Qed.

Lemma Safe_bindR (Q : A -> World -> Prop) (Q' : B -> World -> Prop)
      (E : Err -> Prop) (r : Res A) (f : A -> M B) :
  Safe I Q E r ->
  (forall a w, I w -> Q a w -> Safe I Q' E (f a w)) ->
  Safe I Q' E (bindR r f).
Proof.
  intros Hr Hf. induction Hr as [a w HI HQ|e w HI HE|c w k HI Hk IH]; simpl.
  - by apply Hf.
  - by constructor.
  - constructor; [done|]. intros resp w' Hw'. by apply IH.
Qed.

Lemma Safe_catchR (Q : A -> World -> Prop) (E E' : Err -> Prop)
      (r : Res A) (handler : Err -> M A) :
  Safe I Q E r ->
  (forall e w, I w -> E e -> Safe I Q E' (handler e w)) ->
  Safe I Q E' (catchR r handler).
Proof.
  intros Hr Hh. induction Hr as [a w HI HQ|e w HI HE|c w k HI Hk IH]; simpl.
  - by constructor.
  - by apply Hh.
  - constructor; [done|]. intros resp w' Hw'. by apply IH.
Qed.

Lemma Safe_run (Q : A -> World -> Prop) (E : Err -> Prop)
      (env : Oracle) (n : nat) (r : Res A) :
  Safe I Q E r ->
  match run env n r with
  | Returned a w _ => I w /\ Q a w
  | Thrown e w _ => I w /\ E e
  end.
Proof.
  intros Hr. revert n.
  induction Hr as [a w HI HQ|e w HI HE|c w k HI Hk IH]; intros n; simpl; auto.
  by apply IH.
Qed.

End SafeRules.

Lemma Safe_bind {A B} (I : World -> Prop) (Q : A -> World -> Prop)
      (Q' : B -> World -> Prop) (E : Err -> Prop) (m : M A) (f : A -> M B) (w : World) :
  Safe I Q E (m w) ->
  (forall a w', I w' -> Q a w' -> Safe I Q' E (f a w')) ->
  Safe I Q' E (bind m f w).
Proof. apply Safe_bindR. Qed.

Lemma Safe_try_catch {A} (I : World -> Prop) (Q : A -> World -> Prop)
      (E E' : Err -> Prop) (m : M A) (handler : Err -> M A) (w : World) :
  Safe I Q E (m w) ->
  (forall e w', I w' -> E e -> Safe I Q E' (handler e w')) ->
  Safe I Q E' (try_catch m handler w).
Proof. apply Safe_catchR. Qed.

Lemma Safe_call (I : World -> Prop) (E : Err -> Prop) (c : ExtCall) (w : World) :
  I (emit (ECall c) w) ->
  (forall e, E e) ->
  Safe I anything E (call c w).
Proof.
  intros HI HE. constructor; [done|]. intros resp w' Hw'.
  destruct (r_error resp); by constructor.
Qed.

Lemma Safe_gets {A} (I : World -> Prop) (E : Err -> Prop) (f : World -> A) (w : World) :
  I w -> Safe I (fun a w' => a = f w') E (gets f w).
Proof. by constructor. Qed.

Lemma Safe_modify (I : World -> Prop) (E : Err -> Prop) (f : World -> World) (w : World) :
  I (f w) -> Safe I anything E (modify f w).
Proof. by constructor. Qed.

Lemma Safe_ret {A} (I : World -> Prop) (Q : A -> World -> Prop) (E : Err -> Prop)
      (a : A) (w : World) :
  I w -> Q a w -> Safe I Q E (ret a w).
Proof. by constructor. Qed.

(** ** Invariants of the passes

    An invariant of the state that survives what one task's [try] block
    does to it survives a whole pass; and no error leaves the loop. *)

Section UpdateRule.
Context (I : World -> Prop) (P : GitpodTask -> Prop).
Hypothesis I_console : forall w msg e, I w -> I (emit (EConsoleError msg e) w).
Hypothesis I_dispose : forall w task h,
    P task ->
    I w -> taskTerminals w !! toTerminalId (task_id task) = Some h ->
    task_state task = CLOSED ->
    I (dispose_widget h (emit (EDispose h) w)).
Hypothesis I_attach : forall w task h,
    P task ->
    I w -> taskTerminals w !! toTerminalId (task_id task) = Some h ->
    task_state task = RUNNING ->
    truthy (widgets w !! h ≫= remoteTerminal) = false ->
    I (emit (ECall (CExecuteCommand h "/workspace"
                      (attach_args
                         (widgets (set_widgets (alter (set_remoteTerminal (task_terminal task)) h) w)
                            !! h ≫= remoteTerminal))))
            (set_widgets (alter (set_remoteTerminal (task_terminal task)) h) w)).

Lemma Safe_updateTask_on (task : GitpodTask) (w : World) :
  P task -> I w -> Safe I anything any_error (updateTask task w).
Proof.
  intros HP HI. unfold updateTask, bind, gets. simpl.
  destruct (taskTerminals w !! toTerminalId (task_id task)) as [h|] eqn:Hreg; simpl;
    [|by constructor].
  destruct (decide (task_state task = CLOSED)) as [Hc|Hc]; simpl.
  { constructor; [|done]. by eapply I_dispose. }
  destruct (bool_decide (task_state task = RUNNING)) eqn:Hrun; simpl;
    [|by constructor].
  apply bool_decide_eq_true in Hrun.
  destruct (truthy (widgets w !! h ≫= remoteTerminal)) eqn:Hlatch; simpl;
    [by constructor|].
  unfold executeCommand, bind, call. simpl.
  constructor; [by apply I_attach|].
  intros resp w' HI'. destruct (r_error resp); by constructor.
Qed.

Lemma Safe_updateTerminals_on (tasks : list GitpodTask) (w : World) :
  Forall P tasks -> I w -> Safe I anything no_error (updateTerminals tasks w).
Proof.
  intros HP. revert w. induction HP as [|task rest HPt HPr IH]; intros w HI; simpl.
  { by constructor. }
  eapply Safe_bind; [|intros ? w' HI' _; by apply IH].
  eapply Safe_try_catch; [by apply Safe_updateTask_on|].
  intros e w' HI' _. constructor; [by apply I_console|done].
Qed.
End UpdateRule.

Lemma Safe_updateTerminals (I : World -> Prop) :
  (forall w msg e, I w -> I (emit (EConsoleError msg e) w)) ->
  (forall w task h,
      I w -> taskTerminals w !! toTerminalId (task_id task) = Some h ->
      task_state task = CLOSED ->
      I (dispose_widget h (emit (EDispose h) w))) ->
  (forall w task h,
      I w -> taskTerminals w !! toTerminalId (task_id task) = Some h ->
      task_state task = RUNNING ->
      truthy (widgets w !! h ≫= remoteTerminal) = false ->
      I (emit (ECall (CExecuteCommand h "/workspace"
                        (attach_args
                           (widgets (set_widgets (alter (set_remoteTerminal (task_terminal task)) h) w)
                              !! h ≫= remoteTerminal))))
              (set_widgets (alter (set_remoteTerminal (task_terminal task)) h) w))) ->
  forall (tasks : list GitpodTask) (w : World),
    I w -> Safe I anything no_error (updateTerminals tasks w).
Proof.
  intros H1 H2 H3 tasks w HI.
  apply (Safe_updateTerminals_on I (fun _ => True)).
  - exact H1.
  - intros w1 task h _. apply H2.
  - intros w1 task h _. apply H3.
  - by apply Forall_forall.
  - exact HI.
Qed.

Section InitRule.
Context (validateId : Z -> bool) (I : World -> Prop) (P : GitpodTask -> Prop).
Hypothesis I_console : forall w msg e, I w -> I (emit (EConsoleError msg e) w).
Hypothesis I_new : forall w task p,
    P task -> task_state task <> CLOSED -> task_presentation task = Some p ->
    I w -> taskTerminals w !! toTerminalId (task_id task) = None ->
    I (emit (ECall (CNewTerminal (task_options task p))) w).
Hypothesis I_created : forall w task p,
    P task -> task_state task <> CLOSED -> task_presentation task = Some p ->
    I w -> I (create_widget (task_options task p) w).2.
Hypothesis I_start : forall w h, I w -> I (emit (ECall (CStart h)) w).
Hypothesis I_started : forall w h z, I w -> I (started_widget h z w).
Hypothesis I_activate : forall w h ref area mode,
    I w -> I (emit (ECall (CActivate h ref area mode)) w).

Lemma Safe_start (h : nat) (w : World) :
  I w -> Safe I anything any_error (start h w).
Proof.
  intros HI. unfold start, bind, call. simpl.
  constructor; [by apply I_start|].
  intros resp w' HI'. destruct (r_error resp); simpl; constructor; auto.
  - done.
  - done.
Qed.

Lemma Safe_initTask (task : GitpodTask) (ref : option nat) (w : World) :
  P task -> task_state task <> CLOSED ->
  I w -> Safe I anything any_error (initTask validateId task ref w).
Proof.
  intros HP Hc HI. unfold initTask. cbn [bind bindR gets].
  destruct (taskTerminals w !! toTerminalId (task_id task)) as [h|] eqn:Hreg;
    cbn [bind bindR gets].
  - match goal with |- context [validateId ?z] => destruct (validateId z) end;
      cbn [bind bindR ret]; [by constructor|].
    eapply Safe_bindR; [by apply Safe_start|].
    intros ? w' HI' _. by constructor.
  - unfold presentation_of.
    destruct (task_presentation task) as [p|] eqn:Hp; cbn [bind bindR ret throw];
      [|by constructor].
    unfold newTerminal. cbn [bind bindR call].
    constructor; [by apply I_new|].
    intros resp w' HI'. destruct (r_error resp); cbn [bindR]; [by constructor|].
    pose proof (I_created w' task p HP Hc Hp HI') as Hcr.
    unfold task_options in Hcr.
    destruct (create_widget _ w') as [h w''] eqn:Hcw. cbn [bindR snd] in *.
    eapply Safe_bindR; [by apply Safe_start|].
    intros ? w3 HI3 _. unfold activateTerminal. cbn [bind bindR call].
    constructor; [by apply I_activate|].
    intros resp' w4 HI4. destruct (r_error resp'); cbn [bindR ret]; by constructor.
Qed.

Lemma Safe_initLoop (tasks : list GitpodTask) (ref : option nat) (w : World) :
  Forall P tasks ->
  I w -> Safe I anything no_error (initLoop validateId tasks ref w).
Proof.
  intros HP. revert ref w.
  induction HP as [|task rest HPt HPr IH]; intros ref w HI; simpl.
  { by constructor. }
  destruct (decide (task_state task = CLOSED)) as [Hc|Hc]; [by apply IH|].
  eapply Safe_bind; [|intros ref' w' HI' _; by apply IH].
  eapply Safe_try_catch; [by apply Safe_initTask|].
  intros e w' HI' _. unfold bind, console_error, modify. simpl.
  constructor; [by apply I_console|done].
Qed.
End InitRule.

(** ** The two loops, one task at a time *)

Lemma run_updateTerminals_cons (env : Oracle) (n : nat) (task : GitpodTask)
      (rest : list GitpodTask) (w : World) :
  run env n (updateTerminals (task :: rest) w) =
  match run env n (updateTask task w) with
  | Returned _ w' n' => run env n' (updateTerminals rest w')
  | Thrown e w' n' =>
      run env n' (updateTerminals rest
                    (emit (EConsoleError "Failed to update Gitpod task terminal:" (Some e)) w'))
  end.
Proof.
  cbn [updateTerminals]. rewrite run_bind, run_try_catch.
  destruct (run env n (updateTask task w)); reflexivity.
Qed.

Lemma run_initLoop_cons (validateId : Z -> bool) (env : Oracle) (n : nat)
      (task : GitpodTask) (rest : list GitpodTask) (ref : option nat) (w : World) :
  task_state task <> CLOSED ->
  run env n (initLoop validateId (task :: rest) ref w) =
  match run env n (initTask validateId task ref w) with
  | Returned ref' w' n' => run env n' (initLoop validateId rest ref' w')
  | Thrown e w' n' =>
      run env n' (initLoop validateId rest ref
                    (emit (EConsoleError "Failed to start Gitpod task terminal:" (Some e)) w'))
  end.
Proof.
  intros Hc. cbn [initLoop]. destruct (decide (task_state task = CLOSED)); [done|].
  rewrite run_bind, run_try_catch.
  destruct (run env n (initTask validateId task ref w)); reflexivity.
Qed.

Lemma run_initLoop_closed (validateId : Z -> bool) (env : Oracle) (n : nat)
      (task : GitpodTask) (rest : list GitpodTask) (ref : option nat) (w : World) :
  task_state task = CLOSED ->
  run env n (initLoop validateId (task :: rest) ref w) =
  run env n (initLoop validateId rest ref w).
Proof.
  intros Hc. cbn [initLoop]. by destruct (decide (task_state task = CLOSED)).
Qed.

Lemma updateTerminals_returns (env : Oracle) (n : nat) (tasks : list GitpodTask) (w : World) :
  exists w' n', run env n (updateTerminals tasks w) = Returned tt w' n'.
Proof.
  assert (HS : Safe always anything no_error (updateTerminals tasks w)).
  { by apply Safe_updateTerminals. }
  apply (Safe_run _ _ _ env n) in HS.
  destruct (run env n (updateTerminals tasks w)) as [[] w' n'|e w' n'].
  - by exists w', n'.
  - by destruct HS.
Qed.

Lemma initLoop_returns (validateId : Z -> bool) (env : Oracle) (n : nat)
      (tasks : list GitpodTask) (ref : option nat) (w : World) :
  exists ref' w' n', run env n (initLoop validateId tasks ref w) = Returned ref' w' n'.
Proof.
  assert (HS : Safe always anything no_error (initLoop validateId tasks ref w)).
  { apply (Safe_initLoop validateId always (fun _ => True)); try done.
    by apply Forall_forall. }
  apply (Safe_run _ _ _ env n) in HS.
  destruct (run env n (initLoop validateId tasks ref w)) as [ref' w' n'|e w' n'].
  - by exists ref', w', n'.
  - by destruct HS.
Qed.

Lemma run_updateTerminals_app (env : Oracle) (n : nat) (l1 l2 : list GitpodTask) (w : World) :
  run env n (updateTerminals (l1 ++ l2) w) =
  match run env n (updateTerminals l1 w) with
  | Returned _ w' n' => run env n' (updateTerminals l2 w')
  | Thrown e w' n' => Thrown e w' n'
  end.
Proof.
  revert n w. induction l1 as [|task l1 IH]; intros n w.
  - reflexivity.
  - rewrite <- app_comm_cons, !run_updateTerminals_cons.
    destruct (run env n (updateTask task w)); apply IH.
Qed.

Lemma run_initLoop_app (validateId : Z -> bool) (env : Oracle) (n : nat)
      (l1 l2 : list GitpodTask) (ref : option nat) (w : World) :
  run env n (initLoop validateId (l1 ++ l2) ref w) =
  match run env n (initLoop validateId l1 ref w) with
  | Returned ref' w' n' => run env n' (initLoop validateId l2 ref' w')
  | Thrown e w' n' => Thrown e w' n'
  end.
Proof.
  revert n ref w. induction l1 as [|task l1 IH]; intros n ref w.
  - reflexivity.
  - rewrite <- app_comm_cons.
    destruct (decide (task_state task = CLOSED)) as [Hc|Hc].
    + rewrite !run_initLoop_closed by done. apply IH.
    + rewrite !run_initLoop_cons by done.
      destruct (run env n (initTask validateId task ref w)); apply IH.
Qed.

Lemma run_initTerminals (validateId : Z -> bool) (env : Oracle) (n : nat) (w : World) :
  r_error (env n CGetTasks) = None ->
  exists ref w1 n1 w2 n2,
    run env (S n) (initLoop validateId (r_tasks (env n CGetTasks)) None
                                       (emit (ECall CGetTasks) w)) = Returned ref w1 n1 /\
    run env n1 (updateTerminals (r_tasks (env n CGetTasks)) w1) = Returned tt w2 n2 /\
    run env n (initTerminals validateId w) = run env n2 (openDefaultTerminal w2).
Proof.
  intros Hok.
  destruct (initLoop_returns validateId env (S n) (r_tasks (env n CGetTasks)) None
              (emit (ECall CGetTasks) w)) as (ref & w1 & n1 & H1).
  destruct (updateTerminals_returns env n1 (r_tasks (env n CGetTasks)) w1)
    as (w2 & n2 & H2).
  exists ref, w1, n1, w2, n2. split; [done|]. split; [done|].
  unfold initTerminals, getTasks. cbn [bind bindR call run]. rewrite Hok.
  cbn [bindR ret]. rewrite run_bind, H1, run_bind, H2. reflexivity.
Qed.


(** C10: in the bootstrap loop, a task that is not [CLOSED], has no
    terminal yet and carries no [presentation] makes the [try] block throw
    a [TypeError] before any call is issued; the error is logged, no widget
    is created and nothing is registered, [ref] keeps its value and the loop
    goes on with the remaining tasks. *)
Theorem missing_presentation_is_caught (validateId : Z -> bool) (env : Oracle) (n : nat)
        (task : GitpodTask) (rest : list GitpodTask) (ref : option nat) (w : World) :
  task_state task <> CLOSED ->
  task_presentation task = None ->
  taskTerminals w !! toTerminalId (task_id task) = None ->
  exists msg w',
    run env n (initTask validateId task ref w) = Thrown (TypeError msg) w n /\
    w' = emit (EConsoleError "Failed to start Gitpod task terminal:"
                             (Some (TypeError msg))) w /\
    widgets w' = widgets w /\
    taskTerminals w' = taskTerminals w /\
    taskTerminals w' !! toTerminalId (task_id task) = None /\
    run env n (initLoop validateId (task :: rest) ref w) =
    run env n (initLoop validateId rest ref w').
Proof.
  intros Hc Hp Hreg.
  assert (Hthrow : run env n (initTask validateId task ref w) =
                   Thrown (TypeError "Cannot read property 'name' of undefined") w n).
  { unfold initTask. cbn [bind bindR gets]. rewrite Hreg.
    unfold presentation_of. rewrite Hp. reflexivity. }
  eexists _, _. split; [exact Hthrow|]. split; [reflexivity|].
  split; [reflexivity|]. split; [reflexivity|]. split; [exact Hreg|].
  by rewrite run_initLoop_cons, Hthrow.
Qed.

(** ** Traces *)

Lemma only_refl (w0 : World) (good : Event -> Prop) : only w0 good w0.
Proof. exists []. by rewrite app_nil_r. Qed.

Lemma only_emit (w0 : World) (good : Event -> Prop) (e : Event) (w : World) :
  good e -> only w0 good w -> only w0 good (emit e w).
Proof.
  intros He (evs & Htr & Hall). exists (evs ++ [e]). split.
  - simpl. by rewrite Htr, app_assoc.
  - apply Forall_app. split; [done|]. by constructor.
Qed.

Lemma only_same_trace (w0 : World) (good : Event -> Prop) (w w' : World) :
  trace w' = trace w -> only w0 good w -> only w0 good w'.
Proof. intros Heq (evs & Htr & Hall). exists evs. by rewrite Heq. Qed.

Lemma trace_dispose_widget (h : nat) (w : World) :
  trace (dispose_widget h w) = trace w.
Proof.
  unfold dispose_widget. destruct (widgets w !! h) as [t|]; [|done].
  destruct (disposed t); [done|]. by destruct (is_ t).
Qed.

Lemma trace_create_widget (o : TerminalOptions) (w : World) :
  trace (create_widget o w).2 = trace w.
Proof.
  unfold create_widget, onDidCreateTerminal. simpl.
  by match goal with |- context [is_ ?t] => destruct (is_ t) end.
Qed.

Lemma trace_started_widget (h : nat) (z : Z) (w : World) :
  trace (started_widget h z w) = trace w.
Proof. reflexivity. Qed.

Section DefaultRule.
Context (I : World -> Prop).
Hypothesis I_new : forall w, I w -> I (emit (ECall (CNewTerminal generic_options)) w).
Hypothesis I_created : forall w, I w -> I (create_widget generic_options w).2.
Hypothesis I_detached : forall w h, I w -> I (emit (EStartDetached h) w).
Hypothesis I_open : forall w h, I w -> I (emit (ECall (COpen h)) w).

Lemma Safe_openDefaultTerminal (w : World) :
  I w -> Safe I anything any_error (openDefaultTerminal w).
Proof.
  intros HI. unfold openDefaultTerminal. cbn [bind bindR gets].
  destruct (all_length w =? 0); [|by constructor].
  unfold newTerminal. cbn [bind bindR call].
  constructor; [by apply I_new|].
  intros resp w' HI'. destruct (r_error resp); cbn [bindR]; [by constructor|].
  pose proof (I_created w' HI') as Hcr. unfold generic_options in Hcr.
  destruct (create_widget _ w') as [h w''] eqn:Hcw. cbn [bindR snd] in *.
  unfold start_detached, open. cbn [bind bindR modify call].
  constructor; [by apply I_open, I_detached|].
  intros resp' w3 HI3. destruct (r_error resp'); cbn [bindR ret]; by constructor.
Qed.
End DefaultRule.

(** ** No terminal for a closed task *)

Lemma updateTerminals_never_creates (w0 : World) (tasks : list GitpodTask) (w : World) :
  only w0 not_a_creation w ->
  Safe (only w0 not_a_creation) anything no_error (updateTerminals tasks w).
Proof.
  apply Safe_updateTerminals.
  - intros w1 msg e H. by apply only_emit.
  - intros w1 task h H _ _.
    refine (only_same_trace _ _ _ _ (trace_dispose_widget _ _) _). by apply only_emit.
  - intros w1 task h H _ _ _. apply only_emit; [done|exact H].
Qed.

Lemma not_a_creation_weaken (i : string) (e : Event) :
  not_a_creation e -> not_created_for i e.
Proof. intros H o ->. by destruct (H o). Qed.

Lemma only_weaken (w0 : World) (good good' : Event -> Prop) (w : World) :
  (forall e, good e -> good' e) -> only w0 good w -> only w0 good' w.
Proof.
  intros Himp (evs & Htr & Hall). exists evs. split; [done|].
  eapply Forall_impl; eauto.
Qed.

Lemma bootstrap_never_creates_for (validateId : Z -> bool) (i : string)
      (w0 : World) (tasks : list GitpodTask) (w : World) :
  Forall (fun t => task_id t = i -> task_state t = CLOSED) tasks ->
  only w0 (not_created_for i) w ->
  Safe (only w0 (not_created_for i)) anything any_error
       ((initLoop validateId tasks None >> updateTerminals tasks >> openDefaultTerminal) w).
Proof.
  intros HP HI.
  eapply Safe_bind.
  { eapply Safe_mono; [done| |].
    2:{ apply (Safe_initLoop validateId (only w0 (not_created_for i))
                 (fun t => task_id t = i -> task_state t = CLOSED)); try done.
        - intros w1 msg e H. apply only_emit; [|done]. by intros o.
        - intros w1 task p HPt Hc Hp H _. apply only_emit; [|done].
          intros o [= <-]. simpl. intros Heq%(inj Some)%toTerminalId_inj. auto.
        - intros w1 h H. apply only_emit; [|done]. by intros o.
        - intros w1 h ref area mode H. apply only_emit; [|done]. by intros o. }
    by intros e []. }
  intros _ w1 H1 _. eapply Safe_bind.
  { eapply Safe_mono; [done| |].
    2:{ apply (Safe_updateTerminals (only w0 (not_created_for i))); try done.
        - intros w2 msg e H. apply only_emit; [|done]. by intros o.
        - intros w2 task h H _ _.
          refine (only_same_trace _ _ _ _ (trace_dispose_widget _ _) _).
          apply only_emit; [|done]. by intros o.
        - intros w2 task h H _ _ _. apply only_emit; [by intros o|exact H]. }
    by intros e []. }
  intros _ w2 H2 _. apply Safe_openDefaultTerminal; try done.
  - intros w3 H. apply only_emit; [|done]. by intros o [= <-].
  - intros w3 h H. apply only_emit; [|done]. by intros o.
  - intros w3 h H. apply only_emit; [|done]. by intros o.
Qed.

(** ** Invariants kept by every pass *)

Lemma Stable_updateTerminals (I : World -> Prop) (tasks : list GitpodTask) (w : World) :
  Stable I -> I w -> Safe I anything no_error (updateTerminals tasks w).
Proof.
  intros HS. apply Safe_updateTerminals.
  - apply (st_console I HS).
  - apply (st_dispose I HS).
  - apply (st_attach I HS).
Qed.

Lemma Stable_initTerminals (validateId : Z -> bool) (I : World -> Prop) (w : World) :
  Stable I -> I w -> Safe I anything any_error (initTerminals validateId w).
Proof.
  intros HS HI. unfold initTerminals, getTasks. cbn [bind bindR call].
  constructor; [by apply (st_getTasks I HS)|].
  intros resp w1 HI1. destruct (r_error resp); cbn [bindR ret]; [by constructor|].
  eapply Safe_bind.
  { eapply Safe_mono; [done| |].
    2:{ apply (Safe_initLoop validateId I (fun _ => True)).
        - apply (st_console I HS).
        - intros; by apply (st_new I HS).
        - intros; by apply (st_created I HS).
        - apply (st_start I HS).
        - apply (st_started I HS).
        - apply (st_activate I HS).
        - by apply Forall_forall.
        - done. }
    by intros e []. }
  intros _ w2 HI2 _. eapply Safe_bind.
  { eapply Safe_mono; [done| |].
    2:{ by apply (Stable_updateTerminals I). }
    by intros e []. }
  intros _ w3 HI3 _. apply Safe_openDefaultTerminal; try done.
  - intros; by apply (st_new I HS).
  - intros; by apply (st_created I HS).
  - apply (st_detached I HS).
  - apply (st_open I HS).
Qed.

(** ** The widget heap *)

Lemma create_widget_fresh (o : TerminalOptions) (w : World) :
  widgets w !! (create_widget o w).1 = None.
Proof.
  simpl. apply not_elem_of_dom. apply is_fresh.
Qed.

Lemma widgets_create_widget (o : TerminalOptions) (w : World) :
  exists terminal,
    widgets (create_widget o w).2 = <[(create_widget o w).1 := terminal]> (widgets w) /\
    w_id terminal = default ("terminal-" +:+ pretty (create_widget o w).1) (o_id o) /\
    kind terminal = o_kind o /\ remoteTerminal terminal = None /\
    disposed terminal = false /\
    taskTerminals (create_widget o w).2 =
      (if is_ terminal then <[w_id terminal := (create_widget o w).1]> (taskTerminals w)
       else taskTerminals w).
Proof.
  eexists. unfold create_widget, onDidCreateTerminal. cbn [fst snd].
  match goal with |- context [is_ ?t] => destruct (is_ t) eqn:His end;
    simpl; rewrite ?His; repeat split; reflexivity.
Qed.

Lemma widgets_create_widget_other (o : TerminalOptions) (w : World) (h : nat) (t : Widget) :
  widgets w !! h = Some t -> widgets (create_widget o w).2 !! h = Some t.
Proof.
  intros Hh. destruct (widgets_create_widget o w) as (t' & -> & _).
  rewrite lookup_insert_ne; [done|].
  intros <-. by rewrite create_widget_fresh in Hh.
Qed.

Lemma widgets_dispose_widget (h h' : nat) (w : World) (t : Widget) :
  widgets w !! h = Some t ->
  exists t', widgets (dispose_widget h' w) !! h = Some t' /\
             w_id t' = w_id t /\ kind t' = kind t /\
             remoteTerminal t' = remoteTerminal t /\
             (h <> h' -> t' = t) /\
             (disposed t' = false -> h <> h' /\ disposed t = false).
Proof.
  intros Hh. unfold dispose_widget.
  destruct (widgets w !! h') as [d|] eqn:Hd.
  2:{ exists t. split_and!; try done. intros Hnd. split; [|done]. congruence. }
  destruct (disposed d) eqn:Hdd.
  { exists t. split_and!; try done. intros Hnd. split; [|done].
    intros <-. congruence. }
  assert (Hw : forall w1, widgets (if is_ d then onDidDispose d w1 else w1) = widgets w1).
  { intros w1. by destruct (is_ d). }
  rewrite Hw. simpl. destruct (decide (h = h')) as [<-|Hne].
  - rewrite lookup_insert_eq. simplify_eq. exists (set_disposed t).
    split_and!; try done.
  - rewrite lookup_insert_ne by done. exists t. split_and!; done.
Qed.

(** ** The attach latch *)

Lemma remote_is_alter (f : Widget -> Widget) (h h' : nat) (X : option string) (w : World) :
  (forall t, remoteTerminal (f t) = remoteTerminal t) ->
  remote_is h X w -> remote_is h X (set_widgets (alter f h') w).
Proof.
  intros Hf (t & Ht & Hr). unfold remote_is. cbn [set_widgets widgets].
  destruct (decide (h' = h)) as [->|Hne].
  - exists (f t). rewrite lookup_alter_eq, Ht. by rewrite Hf.
  - exists t. by rewrite lookup_alter_ne.
Qed.

Lemma remote_is_alter_ne (f : Widget -> Widget) (h h' : nat) (X : option string) (w : World) :
  h' <> h -> remote_is h X w -> remote_is h X (set_widgets (alter f h') w).
Proof.
  intros Hne (t & Ht & Hr). exists t. cbn [set_widgets widgets].
  by rewrite lookup_alter_ne.
Qed.

Lemma remote_is_dispose_widget (h h' : nat) (X : option string) (w : World) :
  remote_is h X w -> remote_is h X (dispose_widget h' w).
Proof.
  intros (t & Ht & Hr).
  destruct (widgets_dispose_widget h h' w t Ht) as (t' & Ht' & _ & _ & Hr' & _).
  exists t'. by rewrite Hr'.
Qed.

Lemma remote_is_create_widget (h : nat) (X : option string) (o : TerminalOptions) (w : World) :
  remote_is h X w -> remote_is h X (create_widget o w).2.
Proof.
  intros (t & Ht & Hr). exists t. split; [|done].
  by apply widgets_create_widget_other.
Qed.

Lemma latch_inv_stable (w0 : World) (h : nat) (r : string) :
  r <> "" -> Stable (latch_inv w0 h r).
Proof.
  intros Hr. split.
  - intros w msg e [HL HO]. split; [exact HL|by apply only_emit].
  - intros w task h' [HL HO] _ _. split.
    + by apply remote_is_dispose_widget.
    + refine (only_same_trace _ _ _ _ (trace_dispose_widget _ _) _). by apply only_emit.
  - intros w task h' [HL HO] _ _ Hfalsy.
    assert (Hne : h' <> h).
    { intros ->. destruct HL as (t & Ht & Hrt). rewrite Ht in Hfalsy. simpl in Hfalsy.
      rewrite Hrt in Hfalsy. by rewrite truthy_Some in Hfalsy. }
    split.
    + exact (remote_is_alter_ne _ h h' (Some r) w Hne HL).
    + apply only_emit; [|exact HO]. intros cwd args [= ? _ _]. done.
  - intros w o [HL HO]. split; [exact HL|by apply only_emit].
  - intros w o [HL HO]. split; [by apply remote_is_create_widget|].
    exact (only_same_trace _ _ _ _ (trace_create_widget _ _) HO).
  - intros w h' [HL HO]. split; [exact HL|by apply only_emit].
  - intros w h' z [HL HO].
    split; [exact (remote_is_alter (set_terminalId z) h h' (Some r) w (fun _ => eq_refl) HL)|exact HO].
  - intros w h' ref area mode [HL HO]. split; [exact HL|by apply only_emit].
  - intros w [HL HO]. split; [exact HL|by apply only_emit].
  - intros w h' [HL HO]. split; [exact HL|by apply only_emit].
  - intros w h' [HL HO]. split; [exact HL|by apply only_emit].
Qed.

Lemma latch_inv_final {A} (w0 : World) (h : nat) (r : string) (f : Final A) :
  latch_inv w0 h r (final_world f) ->
  latched h r (final_world f) /\
  exists evs, trace (final_world f) = trace w0 ++ evs /\
              forall cwd args, ECall (CExecuteCommand h cwd args) ∉ evs.
Proof.
  intros [HL (evs & Htr & Hall)]. split; [done|]. exists evs. split; [done|].
  intros cwd args Hin. rewrite Forall_forall in Hall. by apply (Hall _ Hin cwd args).
Qed.

Lemma Safe_final {A} (I : World -> Prop) (Q : A -> World -> Prop) (E : Err -> Prop)
      (env : Oracle) (n : nat) (r : Res A) :
  Safe I Q E r -> I (final_world (run env n r)).
Proof.
  intros HS. apply (Safe_run _ _ _ env n) in HS.
  by destruct (run env n r); destruct HS.
Qed.

(** C3 (amended): once [remoteTerminal] of a terminal holds a non-empty
    remote session id, no pass - update or bootstrap, whatever tasks it
    processes and whatever the calls answer - changes the field again or
    issues another [executeCommand] on that terminal. *)
Theorem attach_latch_idempotent (validateId : Z -> bool) (env : Oracle) (n : nat)
        (h : nat) (r : string) (terminal : Widget) (w : World) :
  widgets w !! h = Some terminal ->
  remoteTerminal terminal = Some r ->
  r <> "" ->
  (forall tasks,
      latched h r (final_world (run env n (updateTerminals tasks w))) /\
      exists evs,
        trace (final_world (run env n (updateTerminals tasks w))) = trace w ++ evs /\
        forall cwd args, ECall (CExecuteCommand h cwd args) ∉ evs) /\
  (latched h r (final_world (run env n (initTerminals validateId w))) /\
   exists evs,
     trace (final_world (run env n (initTerminals validateId w))) = trace w ++ evs /\
     forall cwd args, ECall (CExecuteCommand h cwd args) ∉ evs).
Proof.
  intros Hh Hrt Hr.
  assert (HI : latch_inv w h r w).
  { split; [by exists terminal|apply only_refl]. }
  pose proof (latch_inv_stable w h r Hr) as HS.
  split.
  - intros tasks. apply latch_inv_final.
    eapply Safe_final. by apply Stable_updateTerminals.
  - apply latch_inv_final.
    eapply Safe_final. by apply Stable_initTerminals.
Qed.

(** ** Placement *)

Lemma taskTerminals_create_task_widget (task : GitpodTask) (p : Presentation) (w : World) :
  taskTerminals (create_widget (task_options task p) w).2
    !! toTerminalId (task_id task) = Some (create_widget (task_options task p) w).1.
Proof.
  unfold create_widget, onDidCreateTerminal. cbn. by rewrite lookup_insert_eq.
Qed.


Lemma heap_grows_alter (f : Widget -> Widget) (h : nat) (w0 w : World) :
  heap_grows w0 w -> heap_grows w0 (set_widgets (alter f h) w).
Proof.
  intros HG h' Hh'. cbn [set_widgets widgets].
  destruct (HG h' Hh') as [t Ht]. destruct (decide (h = h')) as [->|Hne].
  - rewrite lookup_alter_eq, Ht. by eexists.
  - rewrite lookup_alter_ne by done. by eexists.
Qed.

Lemma heap_grows_dispose_widget (h : nat) (w0 w : World) :
  heap_grows w0 w -> heap_grows w0 (dispose_widget h w).
Proof.
  intros HG h' Hh'. destruct (HG h' Hh') as [t Ht].
  destruct (widgets_dispose_widget h' h w t Ht) as (t' & Ht' & _). by eexists.
Qed.

Lemma heap_grows_create_widget (o : TerminalOptions) (w0 w : World) :
  heap_grows w0 w -> heap_grows w0 (create_widget o w).2.
Proof.
  intros HG h' Hh'. destruct (HG h' Hh') as [t Ht].
  exists t. by apply widgets_create_widget_other.
Qed.

Lemma heap_grows_stable (w0 : World) : Stable (heap_grows w0).
Proof.
  split; try (intros; assumption).
  - intros w task h HG _ _. by apply heap_grows_dispose_widget.
  - intros w task h HG _ _ _. by apply (heap_grows_alter _ h w0 w).
  - intros w o HG. by apply heap_grows_create_widget.
  - intros w h z HG. by apply (heap_grows_alter _ h w0 w).
Qed.






(** ** The registry holds live terminals only *)

Lemma registry_live_alter (f : Widget -> Widget) (h : nat) (w : World) :
  (forall t, disposed (f t) = disposed t /\ w_id (f t) = w_id t /\ kind (f t) = kind t) ->
  registry_live w -> registry_live (set_widgets (alter f h) w).
Proof.
  intros Hf HL id h0 Hreg. cbn [set_widgets widgets taskTerminals] in *.
  destruct (HL id h0 Hreg) as (t & Ht & Hd & Hid & His).
  destruct (decide (h = h0)) as [->|Hne].
  - exists (f t). rewrite lookup_alter_eq, Ht. destruct (Hf t) as (H1 & H2 & H3).
    split; [done|]. split; [congruence|]. split; [congruence|].
    unfold is_ in *. by rewrite H3.
  - exists t. by rewrite lookup_alter_ne.
Qed.

Lemma registry_live_emit (e : Event) (w : World) :
  registry_live w -> registry_live (emit e w).
Proof. intros HL. exact HL. Qed.

Lemma registry_live_dispose_widget (h : nat) (w : World) :
  registry_live w -> registry_live (dispose_widget h w).
Proof.
  intros HL. unfold dispose_widget.
  destruct (widgets w !! h) as [d|] eqn:Hd; [|done].
  destruct (disposed d) eqn:Hdd; [done|].
  destruct (is_ d) eqn:His; intros id h0 Hreg;
    cbn [onDidDispose set_taskTerminals set_widgets widgets taskTerminals] in *.
  - apply lookup_delete_Some in Hreg as [Hne Hreg].
    destruct (HL id h0 Hreg) as (t & Ht & Hdt & Hid & Hist).
    exists t. split; [|done]. rewrite lookup_insert_ne; [done|].
    intros <-. by simplify_eq.
  - destruct (HL id h0 Hreg) as (t & Ht & Hdt & Hid & Hist).
    exists t. split; [|done]. rewrite lookup_insert_ne; [done|].
    intros <-. simplify_eq. congruence.
Qed.

Lemma registry_live_create_widget (o : TerminalOptions) (w : World) :
  registry_live w -> registry_live (create_widget o w).2.
Proof.
  intros HL id h0.
  pose proof (create_widget_fresh o w) as Hfresh.
  destruct (widgets_create_widget o w) as (t & -> & Hid & Hk & _ & Hd & ->).
  destruct (is_ t) eqn:His; intros Hreg.
  - destruct (decide (w_id t = id)) as [<-|Hne].
    + rewrite lookup_insert_eq in Hreg. simplify_eq.
      exists t. by rewrite lookup_insert_eq.
    + rewrite lookup_insert_ne in Hreg by done.
      destruct (HL id h0 Hreg) as (t0 & Ht0 & ?). exists t0. split; [|done].
      rewrite lookup_insert_ne; [done|]. intros <-. congruence.
  - destruct (HL id h0 Hreg) as (t0 & Ht0 & ?). exists t0. split; [|done].
    rewrite lookup_insert_ne; [done|]. intros <-. congruence.
Qed.

Lemma registry_live_close_widget (h : nat) (w : World) :
  registry_live w -> registry_live (close_widget h w).
Proof.
  intros HL. unfold close_widget.
  destruct (widgets w !! h) as [d|]; [|done]. destruct (disposed d); [done|].
  apply registry_live_dispose_widget. destruct (is_ d); [|done].
  unfold onTerminalDidClose. by destruct (truthy _).
Qed.

Lemma registry_live_ui (a : UiAction) (w : World) :
  registry_live w -> registry_live (ui a w).
Proof.
  intros HL. destruct a as [o|h|h|h z]; cbn [ui].
  - by apply registry_live_create_widget.
  - by apply registry_live_dispose_widget.
  - by apply registry_live_close_widget.
  - by apply (registry_live_alter (set_terminalId z)).
Qed.

Lemma registry_live_stable : Stable registry_live.
Proof.
  split; try (intros; assumption).
  - intros w task h HL _ _. by apply registry_live_dispose_widget.
  - intros w task h HL _ _ _.
    by apply (registry_live_alter (set_remoteTerminal (task_terminal task))).
  - intros w o HL. by apply registry_live_create_widget.
  - intros w h z HL. by apply (registry_live_alter (set_terminalId z)).
Qed.

Lemma registry_live_empty (l : Location) :
  registry_live {| widgets := ∅; taskTerminals := ∅; location := l; trace := [] |}.
Proof. intros id h Hreg. cbn [taskTerminals] in Hreg. by rewrite lookup_empty in Hreg. Qed.

(** ** The event loop keeps the registry live *)

Lemma world_settle (p : nat) (st : Settled) (s : Sys) :
  world (settle p st s) = world s /\ coros (settle p st s) = coros s.
Proof. unfold settle. destruct (promises s !! p) as [[rs|]|]; done. Qed.

Lemma world_react (p : nat) (r : Reaction) (s : Sys) :
  world (react p r s) = world s /\ coros (react p r s) = coros s.
Proof. unfold react. destruct (promises s !! p) as [[rs|]|]; done. Qed.

Lemma sys_keeps_settle (I : World -> Prop) (p : nat) (st : Settled) (s : Sys) :
  sys_keeps I s -> sys_keeps I (settle p st s).
Proof.
  unfold sys_keeps, coros_keep. destruct (world_settle p st s) as [-> ->]. done.
Qed.

Lemma sys_keeps_react (I : World -> Prop) (p : nat) (r : Reaction) (s : Sys) :
  sys_keeps I s -> sys_keeps I (react p r s).
Proof.
  unfold sys_keeps, coros_keep. destruct (world_react p r s) as [-> ->]. done.
Qed.

Lemma sys_keeps_drive (I : World -> Prop) (n p : nat) (r : Res unit) (s : Sys) :
  Safe I anything any_error r -> coros_keep I s -> sys_keeps I (drive n p r s).
Proof.
  intros HS HC. destruct HS as [a w HI _|e w HI _|c w k HI Hk]; cbn [drive].
  - by apply sys_keeps_settle.
  - by apply sys_keeps_settle.
  - split; [done|]. unfold coros_keep. cbn [with_coros with_world coros].
    apply Forall_app. split; [done|]. constructor; [|done]. exact Hk.
Qed.

Lemma sys_keeps_call_async (I : World -> Prop) (n : nat) (body : M unit) (s : Sys) :
  (forall w, I w -> Safe I anything any_error (body w)) ->
  sys_keeps I s -> sys_keeps I (call_async n body s).2.
Proof.
  intros Hbody [HI HC]. unfold call_async. cbn [new_promise snd].
  apply sys_keeps_drive; [by apply Hbody|done].
Qed.

Lemma sys_keeps_step (validateId : Z -> bool) (I : World -> Prop) (l : Label) (s s' : Sys) :
  Stable I -> (forall a w, I w -> I (ui a w)) ->
  step validateId l s = Some s' -> sys_keeps I s -> sys_keeps I s'.
Proof.
  intros HSt Hui Hstep [HI HC]. unfold step in Hstep.
  destruct l as [|tasks| |i resp|a], (jobs s) as [|j js]; simplify_eq.
  - destruct (client s); simplify_eq. unfold onDidInitializeLayout.
    pose proof (sys_keeps_call_async I (submitted s) (initTerminals validateId) s
                  (fun w Hw => Stable_initTerminals validateId I w HSt Hw)
                  (conj HI HC)) as Hk.
    destruct (call_async _ _ s) as [r s1]. cbn [snd new_promise] in *.
    destruct Hk as [Hw Hc].
    match goal with |- sys_keeps I (setClient (assign_pendingUpdates _ (react ?r ?x ?s0))) =>
      pose proof (sys_keeps_react I r x s0 (conj Hw Hc)) as [Hw' Hc'] end.
    by split.
  - destruct (client s); simplify_eq. unfold onDidChange. cbn [new_promise].
    match goal with |- sys_keeps I (assign_pendingUpdates _ (react ?r ?x ?s0)) =>
      pose proof (sys_keeps_react I r x s0 (conj HI HC)) as [Hw' Hc'] end.
    by split.
  - destruct j as [[n tasks q|q|q] [|e]]; cbn [run_job].
    + pose proof (sys_keeps_call_async I n (updateTerminals tasks) (with_jobs js s)) as Hk.
      destruct (call_async _ _ (with_jobs js s)) as [r s1]. cbn [snd] in Hk.
      apply sys_keeps_react, Hk; [|by split].
      intros w Hw. eapply Safe_mono; [done| |by apply Stable_updateTerminals].
      by intros e [].
    + by apply sys_keeps_settle.
    + by apply sys_keeps_settle.
    + apply sys_keeps_settle. split; [|done]. by apply (st_console I HSt).
    + by apply sys_keeps_settle.
    + by apply sys_keeps_settle.
  - destruct (coros s !! i) as [co|] eqn:Hco; simplify_eq.
    apply sys_keeps_drive.
    + unfold coros_keep in HC. rewrite Forall_forall in HC.
      apply HC; [|done]. by eapply list_elem_of_lookup_2.
    + unfold coros_keep in *. cbn [with_coros coros].
      by apply Forall_delete.
  - split; [by apply Hui|done].
Qed.

Lemma sys_keeps_exec (validateId : Z -> bool) (I : World -> Prop) (ls : list Label)
      (s s' : Sys) :
  Stable I -> (forall a w, I w -> I (ui a w)) ->
  exec validateId ls s = Some s' -> sys_keeps I s -> sys_keeps I s'.
Proof.
  intros HSt Hui. revert s. induction ls as [|l ls IH]; intros s Hexec HK.
  - by simplify_eq/=.
  - cbn [exec] in Hexec. destruct (step validateId l s) as [s1|] eqn:Hstep; [|done].
    eapply IH; [done|]. by eapply sys_keeps_step.
Qed.

Lemma dispose_widget_disposed (h : nat) (w : World) (t : Widget) :
  widgets (dispose_widget h w) !! h = Some t -> disposed t = true.
Proof.
  unfold dispose_widget. destruct (widgets w !! h) as [d|] eqn:Hd.
  2:{ intros Ht. congruence. }
  destruct (disposed d) eqn:Hdd.
  { intros Ht. congruence. }
  assert (Hw : forall w1, widgets (if is_ d then onDidDispose d w1 else w1) = widgets w1).
  { intros w1. by destruct (is_ d). }
  rewrite Hw. cbn [set_widgets widgets]. rewrite lookup_insert_eq. by intros [= <-].
Qed.

Lemma close_widget_disposed (h : nat) (w : World) (t : Widget) :
  widgets (close_widget h w) !! h = Some t -> disposed t = true.
Proof.
  unfold close_widget. destruct (widgets w !! h) as [d|] eqn:Hd.
  2:{ intros Ht. congruence. }
  destruct (disposed d) eqn:Hdd.
  { intros Ht. congruence. }
  apply dispose_widget_disposed.
Qed.

(** C5: in every state the event loop can reach - passes, pushes, and
    terminals created, closed or disposed by the user or the terminal
    subsystem at any moment - each entry of [taskTerminals] leads to a
    widget that is not disposed; and after the disposal of a terminal,
    whether by [dispose] or by the user closing it, no entry leads to it. *)
Theorem disposal_unregisters (validateId : Z -> bool) (ls : list Label)
        (w0 : World) (s : Sys) :
  registry_live w0 ->
  exec validateId ls (boot w0) = Some s ->
  (forall id h, taskTerminals (world s) !! id = Some h ->
     exists terminal, widgets (world s) !! h = Some terminal /\
                      disposed terminal = false /\ w_id terminal = id) /\
  (forall h id, taskTerminals (dispose_widget h (world s)) !! id <> Some h) /\
  (forall h id, taskTerminals (close_widget h (world s)) !! id <> Some h).
Proof.
  intros HL0 Hexec.
  assert (HL : registry_live (world s)).
  { eapply (sys_keeps_exec validateId registry_live ls (boot w0) s);
      [apply registry_live_stable|apply registry_live_ui|done|].
    split; [done|]. by constructor. }
  split.
  { intros id h Hreg. destruct (HL id h Hreg) as (t & ? & ? & ? & _). eauto. }
  split.
  - intros h id Hreg.
    destruct (registry_live_dispose_widget h _ HL id h Hreg) as (t & Ht & Hd & _).
    apply dispose_widget_disposed in Ht. congruence.
  - intros h id Hreg.
    destruct (registry_live_close_widget h _ HL id h Hreg) as (t & Ht & Hd & _).
    apply close_widget_disposed in Ht. congruence.
Qed.

(** ** The chain of passes *)

Lemma Waiting_le ps tail N p n : Waiting ps tail N p n -> n <= N.
Proof. induction 1; lia. Qed.

Lemma Waiting_tail_pending ps tail N p n :
  Waiting ps tail N p n -> ps !! tail = Some (Pending []).
Proof. by induction 1. Qed.

Lemma Waiting_head ps tail N p n :
  Waiting ps tail N p n -> exists st, ps !! p = Some st /\ ~ foreign n st.
Proof.
  destruct 1 as [Ht|p n tasks q Hp Hn HW].
  - exists (Pending []). split; [done|]. by intros [].
  - exists (Pending [ThenUpdate n tasks q]). split; [done|]. simpl. lia.
Qed.

Lemma foreign_S n st : foreign n st -> foreign (S n) st.
Proof.
  destruct st as [[|[m tasks q|q|q] [|r rs]]|st]; simpl; auto.
Qed.

Lemma Waiting_insert ps tail N p n x st st' :
  ps !! x = Some st -> foreign n st ->
  Waiting ps tail N p n -> Waiting (<[x := st']> ps) tail N p n.
Proof.
  intros Hx Hf HW. induction HW as [Ht|p n tasks q Hp Hn HW IH].
  - apply Waiting_tail. rewrite lookup_insert_ne; [done|].
    intros ->. rewrite Hx in Ht. simplify_eq. done.
  - eapply Waiting_cons; [|done|by apply IH, foreign_S].
    rewrite lookup_insert_ne; [done|].
    intros ->. rewrite Hx in Hp. simplify_eq. simpl in Hf. lia.
Qed.

Lemma Waiting_insert_fresh ps tail N p n x st' :
  ps !! x = None ->
  Waiting ps tail N p n -> Waiting (<[x := st']> ps) tail N p n.
Proof.
  intros Hx HW. induction HW as [Ht|p n tasks q Hp Hn HW IH].
  - apply Waiting_tail. rewrite lookup_insert_ne; [done|]. intros ->. congruence.
  - eapply Waiting_cons; [|done|done].
    rewrite lookup_insert_ne; [done|]. intros ->. congruence.
Qed.

Lemma Waiting_snoc ps tail N p n tasks q' :
  ps !! q' = None ->
  Waiting ps tail N p n ->
  Waiting (<[tail := Pending [ThenUpdate N tasks q']]> (<[q' := Pending []]> ps))
          q' (S N) p n.
Proof.
  intros Hq HW.
  pose proof (Waiting_tail_pending _ _ _ _ _ HW) as Htail.
  assert (Hne : tail <> q') by (intros ->; congruence).
  induction HW as [Ht|p n tasks' q Hp Hn HW IH].
  - eapply Waiting_cons; [by rewrite lookup_insert_eq|lia|].
    apply Waiting_tail. rewrite lookup_insert_ne by done. by rewrite lookup_insert_eq.
  - eapply Waiting_cons; [|lia|by apply IH].
    rewrite !lookup_insert_ne; [done| |]; intros ->; congruence.
Qed.

Lemma serial_from_app (i k : nat) :
  serial_from i (S k) = serial_from i k ++ [HStart (i + k); HEnd (i + k)].
Proof.
  revert i. induction k as [|k IH]; intros i.
  - simpl. by rewrite Nat.add_0_r.
  - change (serial_from i (S (S k))) with (HStart i :: HEnd i :: serial_from (S i) (S k)).
    rewrite IH. simpl. by rewrite Nat.add_succ_r.
Qed.

Lemma serial_S (k : nat) : serial (S k) = serial k ++ [HStart k; HEnd k].
Proof. unfold serial. by rewrite serial_from_app. Qed.

Lemma settle_pending (p : nat) (st : Settled) (s : Sys) (rs : list Reaction) :
  promises s !! p = Some (Pending rs) ->
  settle p st s =
  with_jobs (jobs s ++ map (fun r => (r, st)) rs)
            (with_promises (<[p := Done st]> (promises s)) s).
Proof. intros H. unfold settle. by rewrite H. Qed.

Lemma react_pending (p : nat) (r : Reaction) (s : Sys) (rs : list Reaction) :
  promises s !! p = Some (Pending rs) ->
  react p r s = with_promises (<[p := Pending (rs ++ [r])]> (promises s)) s.
Proof. intros H. unfold react. by rewrite H. Qed.

Lemma react_done (p : nat) (r : Reaction) (s : Sys) (st : Settled) :
  promises s !! p = Some (Done st) ->
  react p r s = with_jobs (jobs s ++ [(r, st)]) s.
Proof. intros H. unfold react. by rewrite H. Qed.

(** ** The chain invariant is kept by every turn of the loop *)

Lemma store_ok_insert (s : Sys) (x : nat) (st : PState) :
  store_ok s -> is_Some (promises s !! x) ->
  (forall e, st = Done (SRejected e) -> x = 1) ->
  store_ok (with_promises (<[x := st]> (promises s)) s).
Proof.
  intros [Hfresh Hrej] [st0 Hx] Hst. split; sys_simpl.
  - intros p Hp. rewrite lookup_insert_ne; [by apply Hfresh|].
    intros <-. rewrite Hfresh in Hx; done.
  - intros p e. destruct (decide (x = p)) as [<-|Hne].
    + rewrite lookup_insert_eq. intros [= ->]. by eapply Hst.
    + rewrite lookup_insert_ne by done. apply Hrej.
Qed.

Lemma store_ok_same (s s' : Sys) :
  promises s' = promises s -> next_promise s' = next_promise s ->
  store_ok s -> store_ok s'.
Proof. unfold store_ok. by intros -> ->. Qed.

Lemma store_ok_new_promise (s : Sys) : store_ok s -> store_ok (new_promise s).2.
Proof.
  intros [Hfresh Hrej]. split; sys_simpl.
  - intros p Hp. rewrite lookup_insert_ne by lia. apply Hfresh. lia.
  - intros p e. destruct (decide (next_promise s = p)) as [<-|Hne].
    + by rewrite lookup_insert_eq.
    + rewrite lookup_insert_ne by done. apply Hrej.
Qed.

Lemma store_ok_settle (p : nat) (st : Settled) (s : Sys) :
  store_ok s -> (forall e, st = SRejected e -> p = 1) -> store_ok (settle p st s).
Proof.
  intros HS Hst. unfold settle. destruct (promises s !! p) as [[rs|st0]|] eqn:Hp; try done.
  eapply store_ok_same; [| |apply (store_ok_insert s p (Done st)); [done|by eexists|]];
    try done.
  intros e [= ->]. by eapply Hst.
Qed.

Lemma store_ok_react (p : nat) (r : Reaction) (s : Sys) :
  store_ok s -> store_ok (react p r s).
Proof.
  intros HS. unfold react. destruct (promises s !! p) as [[rs|st0]|] eqn:Hp; try done.
  apply store_ok_insert; [done|by eexists|done].
Qed.

Lemma chain_inv_with_world (w : World) (s : Sys) :
  chain_inv s -> chain_inv (with_world w s).
Proof.
  intros (HP & HS & Hboot). split; [|done].
  destruct HP as [H1 H2 H3 H4|c tasks q H1 H2 H3 H4 H5|co q H1 H2 H3 H4 H5 H6 H7
                 |c q st H1 H2 H3 H4 H5].
  - by apply Idle.
  - by eapply Queued.
  - by eapply Running.
  - by eapply Settling.
Qed.

Lemma chain_inv_onDidChange (tasks : list GitpodTask) (s : Sys) :
  chain_inv s -> jobs s = [] -> client s = true -> chain_inv (onDidChange tasks s).
Proof.
  intros (HP & HS & Hboot) Hjobs Hcl.
  split; [|split].
  2:{ unfold onDidChange. sys_simpl.
      eapply store_ok_same; [| |apply (store_ok_react (pendingUpdates s)
                                        (ThenUpdate (submitted s) tasks (next_promise s))
                                        (new_promise s).2),
                                  store_ok_new_promise, HS]; done. }
  2:{ unfold onDidChange. sys_simpl.
      match goal with |- context [react ?p ?r ?s0] =>
        assert (Hc : client (react p r s0) = client s) by
            (unfold react; by destruct (promises s0 !! p) as [[|]|]) end.
      cbn. rewrite Hc, Hcl. lia. }
  destruct HS as [Hfresh _].
  destruct s as [w ps np js cs tail cl N hs]. sys_simpl. subst js cl.
  unfold onDidChange. sys_simpl.
  assert (Hq : ps !! np = None) by (apply Hfresh; lia).
  destruct HP as [H1 H2 H3 H4|c tasks' q H1 H2 H3 H4 H5|co q H1 H2 H3 H4 H5 H6 H7
                 |c q st H1 H2 H3 H4 H5]; sys_simpl; try done.
  - (* idle: the reaction is queued at once *)
    rewrite (react_done _ _ _ SFulfilled).
    2:{ sys_simpl. rewrite lookup_insert_ne; [done|]. intros <-. congruence. }
    sys_simpl.
    eapply (Queued _ N tasks np); sys_simpl; try done; [lia|].
    apply Waiting_tail. by rewrite lookup_insert_eq.
  - (* a pass is running: the reaction waits on the tail *)
    pose proof (Waiting_tail_pending _ _ _ _ _ H7) as Htail.
    rewrite (react_pending _ _ _ []).
    2:{ sys_simpl. rewrite lookup_insert_ne; [done|]. intros <-. congruence. }
    sys_simpl.
    eapply (Running _ co q); sys_simpl; try done.
    + rewrite !lookup_insert_ne; [done| |];
        intros Heq; rewrite <- Heq in H4;
        first [congruence|rewrite Htail in H4; simplify_eq; by destruct (co_pass co)].
    + by apply Waiting_snoc.
Qed.

Lemma chain_inv_onDidInitializeLayout (validateId : Z -> bool) (s : Sys) :
  chain_inv s -> jobs s = [] -> client s = false ->
  chain_inv (onDidInitializeLayout validateId s).
Proof.
  intros (HP & HS & Hboot) Hjobs Hcl. rewrite Hcl in Hboot. destruct Hboot as [HN Hnp].
  destruct s as [w ps np js cs tail cl N hs]. sys_simpl. subst js cl N np.
  assert (H1 : ps !! 1 = None) by (apply HS; sys_simpl; lia).
  assert (H2 : ps !! 2 = None) by (apply HS; sys_simpl; lia).
  unfold onDidInitializeLayout, call_async. sys_simpl.
  unfold initTerminals, getTasks. cbn [bind bindR call drive]. sys_simpl.
  rewrite (react_pending _ _ _ []).
  2:{ sys_simpl. by rewrite lookup_insert_ne, lookup_insert_eq. }
  sys_simpl.
  assert (Hcs : cs = [] /\ hs = []).
  { destruct HP as [? ? ? ?|c tasks q ? ? ? ? ?|co q ? ? ? ? ? ? HW
                   |c q st ? ? ? ? ?]; sys_simpl; try done.
    apply Waiting_le in HW. lia. }
  destruct Hcs as [-> ->].
  split; [|split].
  - eapply (Running _ _ 2); sys_simpl; try reflexivity.
    + cbn [co_promise co_pass continuation]. by rewrite lookup_insert_eq.
    + cbn [co_pass]. by intros [].
    + cbn [co_pass]. apply Waiting_tail.
      rewrite lookup_insert_ne by done. by rewrite lookup_insert_eq.
  - destruct HS as [Hfresh Hrej]. split; sys_simpl.
    + intros p Hp. rewrite !lookup_insert_ne by lia. apply Hfresh. sys_simpl. lia.
    + intros p e Hpe. destruct (decide (p = 1)) as [->|?]; [done|].
      destruct (decide (p = 2)) as [->|?].
      * rewrite lookup_insert_ne, lookup_insert_eq in Hpe by done. done.
      * rewrite !lookup_insert_ne in Hpe by done. by eapply Hrej.
  - sys_simpl. lia.
Qed.

Lemma drive_react_comm (n r : nat) (x : Reaction) (res : Res unit) (s : Sys) :
  promises s !! r = Some (Pending []) ->
  react r x (drive n r res s) = drive n r res (react r x s).
Proof.
  intros Hr. rewrite (react_pending _ _ _ [] Hr).
  destruct res as [a w|e w|c w k]; cbn [drive].
  - rewrite (settle_pending _ _ _ []) by done.
    rewrite (settle_pending _ _ _ ([] ++ [x])) by (sys_simpl; by rewrite lookup_insert_eq).
    rewrite (react_done _ _ _ SFulfilled) by (sys_simpl; by rewrite lookup_insert_eq).
    sys_simpl. by rewrite insert_insert_eq, app_nil_r.
  - rewrite (settle_pending _ _ _ []) by done.
    rewrite (settle_pending _ _ _ ([] ++ [x])) by (sys_simpl; by rewrite lookup_insert_eq).
    rewrite (react_done _ _ _ (SRejected e)) by (sys_simpl; by rewrite lookup_insert_eq).
    sys_simpl. by rewrite insert_insert_eq, app_nil_r.
  - by rewrite (react_pending _ _ _ []) by done.
Qed.

Lemma chain_inv_drive (c r q : nat) (res : Res unit) (s : Sys) :
  jobs s = [] -> coros s = [] ->
  hist s = serial c ++ [HStart c] ->
  promises s !! r = Some (Pending [continuation c q]) ->
  (c = 0 -> r = 1) ->
  (c <> 0 -> Safe always anything no_error res) ->
  Waiting (promises s) (pendingUpdates s) (submitted s) q (S c) ->
  store_ok s -> client s = true ->
  chain_inv (drive c r res s).
Proof.
  intros Hjobs Hcoros Hhist Hr Hr1 Hsafe HW HS Hcl.
  assert (HN : 0 < submitted s) by (apply Waiting_le in HW; lia).
  assert (Hsettle : forall st w,
             (forall e, st = SRejected e -> c = 0) ->
             chain_inv (settle r st (record (HEnd c) (with_world w s)))).
  { intros st w Hst. rewrite (settle_pending _ _ _ [continuation c q]) by done.
    destruct s as [w0 ps np js cs tail cl N hs]. sys_simpl. subst js cs cl hs.
    split; [|split].
    - eapply (Settling _ c q st); sys_simpl; try done.
      + intros Hc. destruct st as [|e]; [done|]. destruct Hc. by eapply Hst.
      + by rewrite serial_S, <- app_assoc.
      + eapply Waiting_insert; [done| |done]. by destruct c.
    - apply (store_ok_insert {| world := w; promises := ps; next_promise := np;
                                jobs := []; coros := []; pendingUpdates := tail;
                                client := true; submitted := N;
                                hist := (serial c ++ [HStart c]) ++ [HEnd c] |} r);
        [done|by eexists|].
      intros e [= ->]. apply Hr1. by eapply Hst.
    - sys_simpl. done. }
  destruct res as [a w|e w|c0 w k]; cbn [drive].
  - by apply Hsettle.
  - apply Hsettle. intros e' [= <-]. destruct c; [done|].
    assert (HF : Safe always anything no_error (ThrowV e w)) by (by apply Hsafe).
    inversion HF; subst. done.
  - destruct s as [w0 ps np js cs tail cl N hs]. sys_simpl. subst js cs cl hs.
    split; [|split; [done|sys_simpl; done]].
    eapply (Running _ _ q); sys_simpl; try reflexivity; cbn [co_pass co_promise co_k];
      try done.
    intros Hc resp w'. specialize (Hsafe Hc). inversion Hsafe; subst. auto.
Qed.

Lemma updateTerminals_no_error (tasks : list GitpodTask) (w : World) :
  Safe always anything no_error (updateTerminals tasks w).
Proof. by apply Safe_updateTerminals. Qed.

Lemma store_ok_alloc (s s' : Sys) (rs : list Reaction) :
  store_ok s ->
  promises s' = <[next_promise s := Pending rs]> (promises s) ->
  next_promise s' = S (next_promise s) ->
  store_ok s'.
Proof.
  intros [Hfresh Hrej] Hps Hnp. split; rewrite Hps; [rewrite Hnp|].
  - intros p Hp. rewrite lookup_insert_ne by lia. apply Hfresh. lia.
  - intros p e. destruct (decide (next_promise s = p)) as [<-|Hne].
    + by rewrite lookup_insert_eq.
    + rewrite lookup_insert_ne by done. apply Hrej.
Qed.

Lemma chain_inv_settle_head (c q : nat) (s : Sys) :
  jobs s = [] -> coros s = [] ->
  hist s = serial (S c) ->
  Waiting (promises s) (pendingUpdates s) (submitted s) q (S c) ->
  store_ok s -> client s = true ->
  chain_inv (settle q SFulfilled s).
Proof.
  intros Hjobs Hcoros Hhist HW HS Hcl.
  assert (HN : 0 < submitted s) by (apply Waiting_le in HW; lia).
  split; [|split].
  2:{ by apply store_ok_settle. }
  2:{ unfold settle. destruct (promises s !! q) as [[rs|]|]; sys_simpl; by rewrite Hcl. }
  destruct s as [w0 ps np js cs tail cl N hs]. sys_simpl. subst js cs cl hs.
  inversion HW as [Ht Hq HNc|p n tasks q' Hp Hn HW' Hq Hnn]; subst.
  - rewrite (settle_pending _ _ _ []) by done. sys_simpl.
    apply Idle; sys_simpl; try done. by rewrite lookup_insert_eq.
  - rewrite (settle_pending _ _ _ [ThenUpdate (S c) tasks q']) by done. sys_simpl.
    eapply (Queued _ (S c) tasks q'); sys_simpl; try done.
    eapply Waiting_insert; [done| |done]. simpl. lia.
Qed.

Lemma chain_inv_run_job (j : Reaction * Settled) (js : list (Reaction * Settled)) (s : Sys) :
  chain_inv s -> jobs s = j :: js -> chain_inv (run_job j (with_jobs js s)).
Proof.
  intros (HP & HS & Hboot) Hjobs.
  destruct HP as [H1 H2 H3 H4|c tasks q H1 H2 H3 H4 H5|co q H1 H2 H3 H4 H5 H6 H7
                 |c q st H1 H2 H3 H4 H5]; try congruence.
  - (* a queued update pass starts *)
    rewrite Hjobs in H1. simplify_eq. cbn [run_job].
    assert (Hcl : client s = true).
    { destruct (client s); [done|]. apply Waiting_le in H5. lia. }
    unfold call_async.
    assert (Hq : promises s !! next_promise s = None) by (apply HS; lia).
    destruct s as [w0 ps np js cs tail cl N hs]. sys_simpl. subst cs cl hs.
    rewrite drive_react_comm by (sys_simpl; by rewrite lookup_insert_eq).
    rewrite (react_pending _ _ _ []) by (sys_simpl; by rewrite lookup_insert_eq).
    sys_simpl. rewrite insert_insert_eq.
    apply (chain_inv_drive c np q); sys_simpl; try done.
    + rewrite lookup_insert_eq. by destruct c.
    + intros _. apply updateTerminals_no_error.
    + by apply Waiting_insert_fresh.
    + eapply (store_ok_alloc _ _ ([] ++ [Adopt q])); [exact HS| |]; done.
  - (* the promise of a finished pass is passed on *)
    rewrite Hjobs in H1. simplify_eq.
    assert (Hcl : client s = true).
    { destruct (client s); [done|]. apply Waiting_le in H5. lia. }
    assert (Hgo : forall w, chain_inv (settle q SFulfilled (with_world w (with_jobs [] s)))).
    { intros w. apply (chain_inv_settle_head c); sys_simpl; done. }
    destruct c as [|c]; cbn [continuation run_job].
    + destruct st as [|e].
      * destruct s. apply (Hgo world0).
      * apply Hgo.
    + rewrite H3 by done. destruct s. apply (Hgo world0).
Qed.

Lemma chain_inv_resume (i : nat) (co : Coroutine) (resp : Response) (s : Sys) :
  chain_inv s -> jobs s = [] -> coros s !! i = Some co ->
  chain_inv (drive (co_pass co) (co_promise co) (co_k co resp (world s))
                   (with_coros (delete i (coros s)) s)).
Proof.
  intros (HP & HS & Hboot) Hjobs Hco.
  destruct HP as [H1 H2 H3 H4|c tasks q H1 H2 H3 H4 H5|co' q H1 H2 H3 H4 H5 H6 H7
                 |c q st H1 H2 H3 H4 H5]; try congruence.
  { rewrite H3 in Hco. done. }
  rewrite H1 in Hco. destruct i as [|i]; [|done]. cbn in Hco. simplify_eq.
  rewrite H1. cbn [delete].
  assert (Hcl : client s = true).
  { destruct (client s); [done|]. apply Waiting_le in H7. lia. }
  apply (chain_inv_drive _ _ q); sys_simpl; try done.
  intros Hc. by apply H6.
Qed.

Lemma chain_inv_step (validateId : Z -> bool) (l : Label) (s s' : Sys) :
  step validateId l s = Some s' -> chain_inv s -> chain_inv s'.
Proof.
  intros Hstep HI. unfold step in Hstep.
  destruct l as [|tasks| |i resp|a], (jobs s) as [|j js] eqn:Hjobs; simplify_eq.
  - destruct (client s) eqn:Hcl; simplify_eq.
    by apply chain_inv_onDidInitializeLayout.
  - destruct (client s) eqn:Hcl; simplify_eq.
    by apply chain_inv_onDidChange.
  - by apply chain_inv_run_job.
  - destruct (coros s !! i) as [co|] eqn:Hco; simplify_eq.
    by apply chain_inv_resume.
  - by apply chain_inv_with_world.
Qed.

Lemma chain_inv_boot (w : World) : chain_inv (boot w).
Proof.
  split; [|split].
  - by apply Idle.
  - split; cbn.
    + intros p Hp. apply lookup_singleton_ne. lia.
    + intros p e Hpe. apply lookup_singleton_Some in Hpe as [_ ?]. done.
  - done.
Qed.

Lemma chain_inv_exec (validateId : Z -> bool) (ls : list Label) (s s' : Sys) :
  exec validateId ls s = Some s' -> chain_inv s -> chain_inv s'.
Proof.
  revert s. induction ls as [|l ls IH]; intros s Hexec HI.
  - by simplify_eq/=.
  - cbn [exec] in Hexec. destruct (step validateId l s) as [s1|] eqn:Hstep; [|done].
    eapply IH; [done|]. by eapply chain_inv_step.
Qed.

(** C1: the passes run one at a time, in the order of their submission.  In
    every state the event loop can reach, the history of pass starts and
    ends is [start 0, end 0, start 1, end 1, ...], with at most the last
    pass still running; the promise in [pendingUpdates] is never rejected
    (the only promise that can be is the one of [initTerminals()] itself,
    which [catch] follows); once [pendingUpdates] is fulfilled every
    submitted pass has run; and while it is pending the loop can go on. *)
Theorem passes_are_serialized (validateId : Z -> bool) (ls : list Label)
        (w0 : World) (s : Sys) :
  exec validateId ls (boot w0) = Some s ->
  (exists c, c <= submitted s /\
             (hist s = serial c \/
              (c < submitted s /\ hist s = serial c ++ [HStart c]))) /\
  (forall p e, promises s !! p = Some (Done (SRejected e)) ->
               p = 1 /\ p <> pendingUpdates s) /\
  (promises s !! pendingUpdates s = Some (Done SFulfilled) ->
   hist s = serial (submitted s)) /\
  (promises s !! pendingUpdates s <> Some (Done SFulfilled) ->
   exists l s', (l = LJob \/ exists resp, l = LResume 0 resp) /\
                step validateId l s = Some s').
Proof.
  intros Hexec.
  pose proof (chain_inv_exec validateId ls _ _ Hexec (chain_inv_boot w0))
    as (HP & [Hfresh Hrej] & Hboot).
  assert (Htail : forall q c,
             Waiting (promises s) (pendingUpdates s) (submitted s) q c ->
             promises s !! pendingUpdates s = Some (Pending [])).
  { intros q c HW. by eapply Waiting_tail_pending. }
  split; [|split; [|split]].
  - destruct HP as [H1 H2 H3 H4|c tasks q H1 H2 H3 H4 H5|co q H1 H2 H3 H4 H5 H6 H7
                   |c q st H1 H2 H3 H4 H5].
    + exists (submitted s). split; [done|]. by left.
    + exists c. apply Waiting_le in H5. split; [lia|]. by left.
    + exists (co_pass co). apply Waiting_le in H7. split; [lia|]. right. split; [lia|done].
    + exists (S c). apply Waiting_le in H5. split; [lia|]. by left.
  - intros p e Hpe. pose proof (Hrej p e Hpe) as ->. split; [done|].
    intros Heq. rewrite Heq in Hpe.
    destruct HP as [H1 H2 H3 H4|c tasks q H1 H2 H3 H4 H5|co q H1 H2 H3 H4 H5 H6 H7
                   |c q st H1 H2 H3 H4 H5].
    + congruence.
    + apply Htail in H5. congruence.
    + apply Htail in H7. congruence.
    + apply Htail in H5. congruence.
  - intros Hdone.
    destruct HP as [H1 H2 H3 H4|c tasks q H1 H2 H3 H4 H5|co q H1 H2 H3 H4 H5 H6 H7
                   |c q st H1 H2 H3 H4 H5].
    + done.
    + apply Htail in H5. congruence.
    + apply Htail in H7. congruence.
    + apply Htail in H5. congruence.
  - intros Hpending.
    destruct HP as [H1 H2 H3 H4|c tasks q H1 H2 H3 H4 H5|co q H1 H2 H3 H4 H5 H6 H7
                   |c q st H1 H2 H3 H4 H5].
    + done.
    + exists LJob. eexists. split; [by left|]. unfold step. by rewrite H1.
    + exists (LResume 0 ok). eexists. split; [right; by eexists|].
      unfold step. by rewrite H2, H1.
    + exists LJob. eexists. split; [by left|]. unfold step. by rewrite H1.
Qed.

(** ** One task among the others of a payload *)

Lemma taskTerminals_create_widget_other (o : TerminalOptions) (tid : string) (w : World) :
  o_id o <> Some tid \/ o_kind o = None ->
  o_id o <> None \/ o_kind o = None ->
  taskTerminals (create_widget o w).2 !! tid = taskTerminals w !! tid.
Proof.
  intros Hid Hgen. destruct (widgets_create_widget o w) as (t & _ & Hwid & Hk & _ & _ & ->).
  destruct (is_ t) eqn:His; [|done].
  unfold is_ in His. rewrite Hk in His.
  destruct (o_kind o) as [k|] eqn:Hkind; [|done].
  destruct Hid as [Hid|?]; [|done]. destruct Hgen as [Hgen|?]; [|done].
  destruct (o_id o) as [i|] eqn:Hoid; [|done]. cbn in Hwid.
  rewrite lookup_insert_ne; [done|]. rewrite Hwid. congruence.
Qed.

Lemma taskTerminals_dispose_widget_other (tid tid' : string) (h' : nat) (w : World) :
  registry_live w -> taskTerminals w !! tid' = Some h' -> tid' <> tid ->
  taskTerminals (dispose_widget h' w) !! tid = taskTerminals w !! tid.
Proof.
  intros HL Hreg Hne. destruct (HL tid' h' Hreg) as (d & Hd & Hdd & Hid & His).
  unfold dispose_widget. rewrite Hd, Hdd, His.
  cbn [onDidDispose set_taskTerminals set_widgets taskTerminals].
  rewrite lookup_delete_ne; [done|]. congruence.
Qed.

Lemma bound_distinct (tid tid' : string) (h h' : nat) (X : option string) (w : World) :
  bound tid h X w -> taskTerminals w !! tid' = Some h' -> tid' <> tid -> h' <> h.
Proof.
  intros (HL & Hreg & _) Hreg' Hne ->.
  destruct (HL tid h Hreg) as (t & Ht & _ & Hid & _).
  destruct (HL tid' h Hreg') as (t' & Ht' & _ & Hid' & _). congruence.
Qed.

Section OtherTasks.
Context (validateId : Z -> bool) (tid : string).

Lemma unbound_initLoop (tasks : list GitpodTask) (ref : option nat) (w : World) :
  Forall (other tid) tasks -> unbound tid w ->
  Safe (unbound tid) anything no_error (initLoop validateId tasks ref w).
Proof.
  intros HP HI. apply (Safe_initLoop validateId (unbound tid) (other tid)); try done.
  - intros w1 task p Hother _ _ [HL Hreg]. split.
    + by apply registry_live_create_widget.
    + rewrite taskTerminals_create_widget_other; [done| |]; left; cbn; [|done].
      intros [= Heq]. by apply Hother.
  - intros w1 h' z [HL Hreg]. split; [|done].
    by apply (registry_live_alter (set_terminalId z)).
Qed.

Context (h : nat) (X : option string).

Lemma bound_initLoop (tasks : list GitpodTask) (ref : option nat) (w : World) :
  Forall (other tid) tasks -> bound tid h X w ->
  Safe (bound tid h X) anything no_error (initLoop validateId tasks ref w).
Proof.
  intros HP HI. apply (Safe_initLoop validateId (bound tid h X) (other tid)); try done.
  - intros w1 task p Hother _ _ (HL & Hreg & Hrem). split; [|split].
    + by apply registry_live_create_widget.
    + rewrite taskTerminals_create_widget_other; [done| |]; left; cbn; [|done].
      intros [= Heq]. by apply Hother.
    + by apply remote_is_create_widget.
  - intros w1 h' z (HL & Hreg & Hrem). split; [|split].
    + by apply (registry_live_alter (set_terminalId z)).
    + done.
    + by apply (remote_is_alter (set_terminalId z)).
Qed.

Lemma bound_updateTerminals (tasks : list GitpodTask) (w : World) :
  Forall (other tid) tasks -> bound tid h X w ->
  Safe (bound tid h X) anything no_error (updateTerminals tasks w).
Proof.
  intros HP HI. apply (Safe_updateTerminals_on (bound tid h X) (other tid)); try done.
  - intros w1 task h' Hother HB Hreg' _.
    pose proof (bound_distinct _ _ _ _ _ _ HB Hreg' Hother) as Hne.
    destruct HB as (HL & Hreg & Hrem). split; [|split].
    + by apply registry_live_dispose_widget.
    + by rewrite (taskTerminals_dispose_widget_other tid (toTerminalId (task_id task)) h'
                    (emit (EDispose h') w1)).
    + by apply remote_is_dispose_widget.
  - intros w1 task h' Hother HB Hreg' _ _.
    pose proof (bound_distinct _ _ _ _ _ _ HB Hreg' Hother) as Hne.
    destruct HB as (HL & Hreg & Hrem). split; [|split].
    + by apply (registry_live_alter (set_remoteTerminal (task_terminal task))).
    + done.
    + by apply (remote_is_alter_ne _ h h').
Qed.

Lemma bound_openDefaultTerminal (w : World) :
  bound tid h X w -> Safe (bound tid h X) anything any_error (openDefaultTerminal w).
Proof.
  intros HI. apply Safe_openDefaultTerminal; try done.
  intros w1 (HL & Hreg & Hrem). split; [|split].
  - by apply registry_live_create_widget.
  - rewrite taskTerminals_create_widget_other; [done| |]; by right.
  - by apply remote_is_create_widget.
Qed.
End OtherTasks.

(** The head of the payload of the bootstrap loop, when its terminal
    has to be created and the request is granted: whatever [start] and
    [activateTerminal] answer, the terminal is there and registered when
    the loop goes on. *)
Lemma initLoop_head_creates (validateId : Z -> bool) (env : Oracle) (n : nat)
      (task : GitpodTask) (p : Presentation) (rest : list GitpodTask)
      (ref : option nat) (w : World) :
  task_state task <> CLOSED ->
  task_presentation task = Some p ->
  r_error (env n (CNewTerminal (task_options task p))) = None ->
  unbound (toTerminalId (task_id task)) w ->
  exists h ref' w' n' evs,
    run env n (initLoop validateId (task :: rest) ref w) =
    run env n' (initLoop validateId rest ref' w') /\
    bound (toTerminalId (task_id task)) h None w' /\
    widgets w !! h = None /\
    trace w' = trace w ++ ECall (CNewTerminal (task_options task p)) :: evs.
Proof.
  intros Hc Hp Hok [HL Hreg]. rewrite run_initLoop_cons by done.
  unfold initTask. cbn [bind bindR gets]. rewrite Hreg.
  unfold presentation_of. rewrite Hp. cbn [bind bindR ret].
  unfold newTerminal. cbn [bind bindR call run]. fold (task_options task p).
  rewrite Hok. cbn [bindR].
  set (w1 := emit (ECall (CNewTerminal (task_options task p))) w).
  pose proof (taskTerminals_create_task_widget task p w1) as Hnew.
  pose proof (trace_create_widget (task_options task p) w1) as Htr.
  pose proof (create_widget_fresh (task_options task p) w1) as Hfresh.
  pose proof (registry_live_create_widget (task_options task p) w1 HL) as HL1.
  destruct (widgets_create_widget (task_options task p) w1)
    as (t & Hws & _ & _ & Hrt & _ & _).
  destruct (create_widget (task_options task p) w1) as [h w2]. cbn [fst snd] in *.
  assert (HB2 : bound (toTerminalId (task_id task)) h None w2).
  { split; [done|]. split; [done|]. exists t. by rewrite Hws, lookup_insert_eq. }
  assert (HB3 : forall z, bound (toTerminalId (task_id task)) h None
                            (started_widget h z (emit (ECall (CStart h)) w2))).
  { intros z. destruct HB2 as (HL2 & Hreg2 & Hrem2). split; [|split].
    - by apply (registry_live_alter (set_terminalId z)).
    - done.
    - by apply (remote_is_alter (set_terminalId z)). }
  unfold start, activateTerminal. cbn [bind bindR call run].
  destruct (r_error (env (S n) (CStart h))) as [e|]; cbn [bindR modify run bind call].
  { eexists h, _, _, _, [_; _]. split; [reflexivity|]. split; [exact HB2|].
    split; [exact Hfresh|]. cbn [emit trace]. rewrite Htr. unfold w1. cbn [emit trace].
    by rewrite <- !app_assoc. }
  destruct (r_error (env (S (S n)) _)) as [e|]; cbn [bindR ret run].
  - eexists h, _, _, _, [_; _; _]. split; [reflexivity|]. split; [apply HB3|].
    split; [exact Hfresh|].
    cbn [emit trace started_widget set_widgets]. rewrite Htr. unfold w1. cbn [emit trace].
    by rewrite <- !app_assoc.
  - eexists h, _, _, _, [_; _]. split; [reflexivity|]. split; [apply HB3|].
    split; [exact Hfresh|].
    cbn [emit trace started_widget set_widgets]. rewrite Htr. unfold w1. cbn [emit trace].
    by rewrite <- !app_assoc.
Qed.

(** The head of the payload of an update pass, when it is [RUNNING] and
    its terminal is registered and not latched: the latch is set and the
    attach command issued, whatever the command answers. *)
Lemma updateTerminals_head_attaches (env : Oracle) (n : nat) (task : GitpodTask)
      (rest : list GitpodTask) (h : nat) (w : World) :
  task_state task = RUNNING ->
  bound (toTerminalId (task_id task)) h None w ->
  exists w' n' evs,
    run env n (updateTerminals (task :: rest) w) = run env n' (updateTerminals rest w') /\
    bound (toTerminalId (task_id task)) h (task_terminal task) w' /\
    trace w' = trace w ++ ECall (CExecuteCommand h "/workspace"
                                   (attach_args (task_terminal task))) :: evs.
Proof.
  intros Hrun (HL & Hreg & (t & Ht & Hrt)). rewrite run_updateTerminals_cons.
  unfold updateTask. cbn [bind bindR gets]. rewrite Hreg.
  destruct (decide (task_state task = CLOSED)) as [Hc|_]; [congruence|].
  cbn [bind bindR gets]. rewrite Ht. cbn [mbind option_bind]. rewrite Hrt, Hrun.
  rewrite bool_decide_eq_true_2 by done. cbn [negb orb truthy].
  cbn [bind bindR modify gets set_widgets widgets].
  rewrite lookup_alter_eq, Ht. cbn [fmap option_fmap option_map mbind option_bind
                                       set_remoteTerminal remoteTerminal].
  assert (HB : bound (toTerminalId (task_id task)) h (task_terminal task)
                 (emit (ECall (CExecuteCommand h "/workspace"
                                 (attach_args (task_terminal task))))
                       (set_widgets (alter (set_remoteTerminal (task_terminal task)) h) w))).
  { split; [|split].
    - by apply (registry_live_alter (set_remoteTerminal (task_terminal task))).
    - exact Hreg.
    - exists (set_remoteTerminal (task_terminal task) t). split; [|done].
      cbn [emit widgets set_widgets]. by rewrite lookup_alter_eq, Ht. }
  unfold executeCommand. cbn [bind bindR call run].
  destruct (r_error (env n _)) as [e|]; cbn [bindR ret run].
  - eexists _, _, [_]. split; [reflexivity|]. split; [exact HB|].
    cbn [emit trace set_widgets]. by rewrite <- app_assoc.
  - eexists _, _, []. split; [reflexivity|]. split; [exact HB|]. reflexivity.
Qed.

Lemma Safe_and {A} (I J : World -> Prop) (Q : A -> World -> Prop) (E : Err -> Prop)
      (r : Res A) :
  Safe I Q E r -> Safe J Q E r -> Safe (fun w => I w /\ J w) Q E r.
Proof.
  intros HI. induction HI as [a w HIw HQ|e w HIw HE|c w k HIw Hk IH]; intros HJ;
    inversion HJ; subst; constructor; auto.
  intros resp w' [HIw' HJw']. apply IH; auto.
Qed.

Lemma run_safe_returns {A} (I : World -> Prop) (env : Oracle) (n : nat) (r : Res A) :
  Safe I anything no_error r ->
  exists a w' n', run env n r = Returned a w' n' /\ I w'.
Proof.
  intros HS. apply (Safe_run _ _ _ env n) in HS.
  destruct (run env n r) as [a w' n'|e w' n']; destruct HS as [HI HQ]; [|done].
  by exists a, w', n'.
Qed.

Lemma trace_grows_stable (w0 : World) : Stable (trace_grows w0).
Proof.
  split; try (intros; by apply only_emit).
  - intros w task h H _ _.
    refine (only_same_trace _ _ _ _ (trace_dispose_widget _ _) _). by apply only_emit.
  - intros w o H. exact (only_same_trace _ _ _ _ (trace_create_widget _ _) H).
  - intros w h z H. exact H.
Qed.

Lemma Stable_initLoop (validateId : Z -> bool) (I : World -> Prop)
      (tasks : list GitpodTask) (ref : option nat) (w : World) :
  Stable I -> I w -> Safe I anything no_error (initLoop validateId tasks ref w).
Proof.
  intros HS HI. apply (Safe_initLoop validateId I (fun _ => True)).
  - apply (st_console I HS).
  - intros; by apply (st_new I HS).
  - intros; by apply (st_created I HS).
  - apply (st_start I HS).
  - apply (st_started I HS).
  - apply (st_activate I HS).
  - by apply Forall_forall.
  - done.
Qed.

Lemma Stable_openDefaultTerminal (I : World -> Prop) (w : World) :
  Stable I -> I w -> Safe I anything any_error (openDefaultTerminal w).
Proof.
  intros HS HI. apply Safe_openDefaultTerminal; try done.
  - intros; by apply (st_new I HS).
  - intros; by apply (st_created I HS).
  - apply (st_detached I HS).
  - apply (st_open I HS).
Qed.

Lemma trace_grows_elim (w0 w : World) :
  trace_grows w0 w -> exists evs, trace w = trace w0 ++ evs.
Proof. intros (evs & H & _). by exists evs. Qed.

Lemma trace_grows_refl (w : World) : trace_grows w w.
Proof. apply only_refl. Qed.

(** ** A closed task loses its terminal *)

Lemma taskTerminals_dispose_widget_None (tid : string) (h : nat) (w : World) :
  taskTerminals w !! tid = None -> taskTerminals (dispose_widget h w) !! tid = None.
Proof.
  intros Hn. unfold dispose_widget. destruct (widgets w !! h) as [d|]; [|done].
  destruct (disposed d); [done|]. destruct (is_ d); [|done].
  cbn [onDidDispose set_taskTerminals set_widgets taskTerminals].
  apply lookup_delete_None. by right.
Qed.

Lemma disposed_dispose_widget (h h' : nat) (w : World) :
  (exists t, widgets w !! h = Some t /\ disposed t = true) ->
  exists t, widgets (dispose_widget h' w) !! h = Some t /\ disposed t = true.
Proof.
  intros (t & Ht & Hd).
  destruct (widgets_dispose_widget h h' w t Ht) as (t' & Ht' & _ & _ & _ & _ & Hnd).
  exists t'. split; [done|]. destruct (disposed t') eqn:Hd'; [done|].
  destruct (Hnd eq_refl) as [_ ?]. congruence.
Qed.

Lemma disposed_alter (f : Widget -> Widget) (h h' : nat) (w : World) :
  (forall t, disposed (f t) = disposed t) ->
  (exists t, widgets w !! h = Some t /\ disposed t = true) ->
  exists t, widgets (set_widgets (alter f h') w) !! h = Some t /\ disposed t = true.
Proof.
  intros Hf (t & Ht & Hd). cbn [set_widgets widgets].
  destruct (decide (h' = h)) as [->|Hne].
  - exists (f t). rewrite lookup_alter_eq, Ht. by rewrite Hf.
  - exists t. by rewrite lookup_alter_ne.
Qed.

Lemma gone_emit (w0 : World) (tid : string) (h : nat) (e : Event) (w : World) :
  gone w0 tid h w -> gone w0 tid h (emit e w).
Proof.
  intros (HL & Hn & Hd & evs & Htr & Hin). split; [done|]. split; [done|]. split; [done|].
  exists (evs ++ [e]). split.
  - cbn [emit trace]. by rewrite Htr, app_assoc.
  - apply elem_of_app. by left.
Qed.

Lemma gone_same_trace (w0 : World) (tid : string) (h : nat) (w w' : World) :
  trace w' = trace w -> registry_live w' -> taskTerminals w' !! tid = None ->
  (exists t, widgets w' !! h = Some t /\ disposed t = true) ->
  gone w0 tid h w -> gone w0 tid h w'.
Proof.
  intros Htr HL Hn Hd (_ & _ & _ & evs & Htr0 & Hin).
  split; [done|]. split; [done|]. split; [done|]. exists evs. by rewrite Htr.
Qed.

Lemma gone_updateTerminals (w0 : World) (tid : string) (h : nat)
      (tasks : list GitpodTask) (w : World) :
  gone w0 tid h w -> Safe (gone w0 tid h) anything no_error (updateTerminals tasks w).
Proof.
  apply Safe_updateTerminals.
  - intros w1 msg e. apply gone_emit.
  - intros w1 task h' HG _ _.
    pose proof (gone_emit w0 tid h (EDispose h') w1 HG) as (HL & Hn & Hd & Hev).
    apply (gone_same_trace w0 tid h (emit (EDispose h') w1));
      [apply trace_dispose_widget|by apply registry_live_dispose_widget
      |by apply taskTerminals_dispose_widget_None|by apply disposed_dispose_widget|].
    by apply gone_emit.
  - intros w1 task h' HG _ _ _. apply gone_emit.
    destruct HG as (HL & Hn & Hd & Hev). split; [|split; [done|split; [|done]]].
    + by apply (registry_live_alter (set_remoteTerminal (task_terminal task))).
    + by apply disposed_alter.
Qed.

Lemma held_emit (w0 : World) (tid : string) (h : nat) (e : Event) (w : World) :
  held w0 tid h w -> held w0 tid h (emit e w).
Proof.
  intros (HL & Hreg & Htr). split; [done|]. split; [done|]. by apply only_emit.
Qed.

Lemma dispose_registered (tid : string) (h : nat) (w0 w : World) :
  held w0 tid h w -> gone w0 tid h (dispose_widget h (emit (EDispose h) w)).
Proof.
  intros (HL & Hreg & (evs & Htr & _)).
  destruct (HL tid h Hreg) as (t & Ht & Hd & Hid & His).
  split; [by apply registry_live_dispose_widget|].
  unfold dispose_widget. cbn [emit widgets]. rewrite Ht, Hd, His.
  cbn [onDidDispose set_taskTerminals set_widgets taskTerminals widgets trace emit].
  split; [rewrite Hid; apply lookup_delete_eq|].
  split.
  - exists (set_disposed t). by rewrite lookup_insert_eq.
  - exists (evs ++ [EDispose h]). split.
    + by rewrite Htr, app_assoc.
    + apply elem_of_app. right. by apply list_elem_of_singleton.
Qed.

Lemma held_or_gone_updateTerminals (w0 : World) (tid : string) (h : nat)
      (tasks : list GitpodTask) (w : World) :
  held_or_gone w0 tid h w ->
  Safe (held_or_gone w0 tid h) anything no_error (updateTerminals tasks w).
Proof.
  apply Safe_updateTerminals.
  - intros w1 msg e [H|H]; [left; by apply held_emit|right; by apply gone_emit].
  - intros w1 task h' [H|H] Hreg' Hc.
    + destruct (decide (toTerminalId (task_id task) = tid)) as [Heq|Hne].
      * right. destruct H as (HL & Hreg & Htr). rewrite Heq in Hreg'.
        assert (h' = h) as -> by congruence. by apply dispose_registered.
      * left. destruct H as (HL & Hreg & Htr). split; [|split].
        -- by apply registry_live_dispose_widget.
        -- by rewrite (taskTerminals_dispose_widget_other tid (toTerminalId (task_id task)) h'
                         (emit (EDispose h') w1)).
        -- refine (only_same_trace _ _ _ _ (trace_dispose_widget _ _) _). by apply only_emit.
    + right.
      pose proof (gone_emit w0 tid h (EDispose h') w1 H) as (HL & Hn & Hd & Hev).
      apply (gone_same_trace w0 tid h (emit (EDispose h') w1));
        [apply trace_dispose_widget|by apply registry_live_dispose_widget
        |by apply taskTerminals_dispose_widget_None|by apply disposed_dispose_widget|].
      by apply gone_emit.
  - intros w1 task h' [H|H] _ _ _.
    + left. apply held_emit. destruct H as (HL & Hreg & Htr). split; [|by split].
      by apply (registry_live_alter (set_remoteTerminal (task_terminal task))).
    + right. apply gone_emit.
      destruct H as (HL & Hn & Hd & Hev). split; [|split; [done|split; [|done]]].
      * by apply (registry_live_alter (set_remoteTerminal (task_terminal task))).
      * by apply disposed_alter.
Qed.

(** The head of the payload of an update pass, when it is [CLOSED]. *)
Lemma updateTerminals_closed_head (task : GitpodTask) (rest : list GitpodTask) (w : World) :
  task_state task = CLOSED ->
  updateTerminals (task :: rest) w =
  updateTerminals rest
    (match taskTerminals w !! toTerminalId (task_id task) with
     | Some h => dispose_widget h (emit (EDispose h) w)
     | None => w
     end).
Proof.
  intros Hc. cbn [updateTerminals]. unfold try_catch, updateTask, gets, bind.
  cbn [bindR catchR].
  destruct (taskTerminals w !! toTerminalId (task_id task)) as [h|]; [|reflexivity].
  destruct (decide (task_state task = CLOSED)); [|done]. reflexivity.
Qed.

Lemma updateTerminals_disposes (env : Oracle) (n : nat) (task : GitpodTask)
      (tasks : list GitpodTask) (h : nat) (w : World) :
  task_state task = CLOSED -> task ∈ tasks ->
  registry_live w -> taskTerminals w !! toTerminalId (task_id task) = Some h ->
  gone w (toTerminalId (task_id task)) h (final_world (run env n (updateTerminals tasks w))).
Proof.
  intros Hc Hin HL Hreg. set (tid := toTerminalId (task_id task)) in *.
  apply list_elem_of_split in Hin as (l1 & l2 & ->).
  rewrite run_updateTerminals_app.
  assert (H0 : held_or_gone w tid h w).
  { left. split; [done|]. split; [done|]. apply only_refl. }
  destruct (run_safe_returns _ env n _ (held_or_gone_updateTerminals w tid h l1 w H0))
    as ([] & w1 & n1 & -> & H1).
  rewrite updateTerminals_closed_head by done. fold tid.
  eapply Safe_final. apply gone_updateTerminals.
  destruct H1 as [H1|H1].
  - pose proof H1 as (_ & -> & _). by apply dispose_registered.
  - pose proof H1 as (_ & -> & _). done.
Qed.

Lemma held_started_widget (w0 : World) (tid : string) (h h' : nat) (z : Z) (w : World) :
  held w0 tid h w -> held w0 tid h (started_widget h' z w).
Proof.
  intros (HL & Hreg & Htr). split; [|by split].
  by apply (registry_live_alter (set_terminalId z)).
Qed.

Lemma held_create_widget (w0 : World) (tid : string) (h : nat) (o : TerminalOptions)
      (w : World) :
  o_id o <> Some tid \/ o_kind o = None -> o_id o <> None \/ o_kind o = None ->
  held w0 tid h w -> held w0 tid h (create_widget o w).2.
Proof.
  intros Ho1 Ho2 (HL & Hreg & Htr). split; [|split].
  - by apply registry_live_create_widget.
  - by rewrite taskTerminals_create_widget_other.
  - exact (only_same_trace _ _ _ _ (trace_create_widget _ _) Htr).
Qed.

Lemma initTask_keeps_held (validateId : Z -> bool) (env : Oracle) (n : nat)
      (w0 : World) (tid : string) (h : nat)
      (task : GitpodTask) (ref : option nat) (w : World) :
  task_state task <> CLOSED -> held w0 tid h w ->
  held w0 tid h (final_world (run env n (initTask validateId task ref w))).
Proof.
  intros Hc HH. destruct (decide (toTerminalId (task_id task) = tid)) as [Heq|Hne].
  - unfold initTask. cbn [bind bindR gets]. rewrite Heq.
    pose proof HH as (_ & -> & _). cbn [bind bindR gets].
    match goal with |- context [validateId ?z] => destruct (validateId z) end;
      cbn [bind bindR ret run final_world]; [done|].
    unfold start. cbn [bind bindR call run].
    destruct (r_error (env n (CStart h))); cbn [bindR modify run final_world ret].
    + by apply held_emit.
    + by apply held_started_widget, held_emit.
  - eapply Safe_final.
    apply (Safe_initTask validateId (held w0 tid h) (other tid));
      [| | | | |exact Hne|exact Hc|exact HH].
    + intros w1 t p _ _ _ H _. by apply held_emit.
    + intros w1 t p Ho _ _ H. apply held_create_widget; [| |done]; left; cbn; [|done].
      intros [= Heq]. by apply Ho.
    + intros w1 h' H. by apply held_emit.
    + intros w1 h' z H. by apply held_started_widget.
    + intros w1 h' r a m H. by apply held_emit.
Qed.

Lemma initLoop_keeps_held (validateId : Z -> bool) (env : Oracle)
      (w0 : World) (tid : string) (h : nat)
      (tasks : list GitpodTask) (n : nat) (ref : option nat) (w : World) :
  held w0 tid h w ->
  exists ref' w' n',
    run env n (initLoop validateId tasks ref w) = Returned ref' w' n' /\ held w0 tid h w'.
Proof.
  revert n ref w. induction tasks as [|task rest IH]; intros n ref w HH.
  { by exists ref, w, n. }
  destruct (decide (task_state task = CLOSED)) as [Hc|Hc].
  { rewrite run_initLoop_closed by done. by apply IH. }
  rewrite run_initLoop_cons by done.
  pose proof (initTask_keeps_held validateId env n w0 tid h task ref w Hc HH) as H1.
  destruct (run env n (initTask validateId task ref w)) as [ref1 w1 n1|e w1 n1];
    cbn [final_world] in H1.
  - by apply IH.
  - apply IH. by apply held_emit.
Qed.

Lemma gone_openDefaultTerminal (w0 : World) (tid : string) (h : nat) (w : World) :
  gone w0 tid h w -> Safe (gone w0 tid h) anything any_error (openDefaultTerminal w).
Proof.
  intros HG. apply Safe_openDefaultTerminal; [| | | |done].
  - intros w1. apply gone_emit.
  - intros w1 H. pose proof H as (HL & Hn & (t & Ht & Hd) & Hev).
    apply (gone_same_trace w0 tid h w1); [apply trace_create_widget| | | |done].
    + by apply registry_live_create_widget.
    + rewrite taskTerminals_create_widget_other; [done| |]; by right.
    + exists t. split; [|done]. by apply widgets_create_widget_other.
  - intros w1 h'. apply gone_emit.
  - intros w1 h'. apply gone_emit.
Qed.

Lemma gone_rebase (w0 w1 : World) (tid : string) (h : nat) (w : World) :
  trace_grows w0 w1 -> gone w1 tid h w -> gone w0 tid h w.
Proof.
  intros (evs0 & Htr0 & _) (HL & Hn & Hd & evs & Htr & Hin).
  split; [done|]. split; [done|]. split; [done|].
  exists (evs0 ++ evs). split.
  - by rewrite Htr, Htr0, app_assoc.
  - apply elem_of_app. by right.
Qed.

Lemma initTerminals_disposes (validateId : Z -> bool) (env : Oracle) (n : nat)
      (task : GitpodTask) (h : nat) (w : World) :
  task_state task = CLOSED ->
  r_error (env n CGetTasks) = None -> task ∈ r_tasks (env n CGetTasks) ->
  registry_live w -> taskTerminals w !! toTerminalId (task_id task) = Some h ->
  gone w (toTerminalId (task_id task)) h (final_world (run env n (initTerminals validateId w))).
Proof.
  intros Hc Hok Hin HL Hreg. set (tid := toTerminalId (task_id task)) in *.
  destruct (run_initTerminals validateId env n w Hok)
    as (ref1 & w1 & n1 & w2 & n2 & H1 & H2 & ->).
  assert (H0 : held w tid h (emit (ECall CGetTasks) w)).
  { apply held_emit. split; [done|]. split; [done|]. apply only_refl. }
  destruct (initLoop_keeps_held validateId env w tid h (r_tasks (env n CGetTasks))
              (S n) None _ H0) as (ref1' & w1' & n1' & H1' & HH1).
  rewrite H1 in H1'. injection H1' as <- <- <-.
  pose proof HH1 as (HL1 & Hreg1 & Htr1).
  pose proof (updateTerminals_disposes env n1 task _ h w1 Hc Hin HL1 Hreg1) as HG2.
  rewrite H2 in HG2. cbn [final_world] in HG2. fold tid in HG2.
  apply (gone_rebase w w1) in HG2; [|done].
  eapply Safe_final. by apply gone_openDefaultTerminal.
Qed.

(** C4: a task seen [CLOSED] never gets a terminal, and loses the one it
    has.  The bootstrap loop skips it.  An update pass that stands at it
    leaves the state alone when no terminal is registered for it and
    disposes the registered one otherwise - at once, without a call - and
    goes on with the rest of the payload.  So a pass, update or bootstrap,
    over a payload that holds the task, begun with terminal [h] registered
    for it and run uninterrupted, has disposed and unregistered [h].  No
    update pass requests a terminal at all, and a bootstrap pass requests
    none for a task id that its payload shows only as [CLOSED]. *)
Theorem closed_task_never_created (validateId : Z -> bool) (env : Oracle) (n : nat)
        (task : GitpodTask) (w : World) :
  task_state task = CLOSED ->
  (forall rest ref,
      run env n (initLoop validateId (task :: rest) ref w) =
      run env n (initLoop validateId rest ref w)) /\
  (taskTerminals w !! toTerminalId (task_id task) = None ->
   run env n (updateTask task w) = Returned tt w n) /\
  (forall h, taskTerminals w !! toTerminalId (task_id task) = Some h ->
   run env n (updateTask task w) =
   Returned tt (dispose_widget h (emit (EDispose h) w)) n) /\
  (forall tasks, exists evs,
      trace (final_world (run env n (updateTerminals tasks w))) = trace w ++ evs /\
      forall o, ECall (CNewTerminal o) ∉ evs) /\
  ((forall t, t ∈ r_tasks (env n CGetTasks) ->
              task_id t = task_id task -> task_state t = CLOSED) ->
   exists evs,
     trace (final_world (run env n (initTerminals validateId w))) = trace w ++ evs /\
     forall o, ECall (CNewTerminal o) ∈ evs -> o_id o <> Some (toTerminalId (task_id task))) /\
  (forall rest,
      updateTerminals (task :: rest) w =
      updateTerminals rest
        (match taskTerminals w !! toTerminalId (task_id task) with
         | Some h => dispose_widget h (emit (EDispose h) w)
         | None => w
         end)) /\
  (forall tasks h,
      task ∈ tasks -> registry_live w ->
      taskTerminals w !! toTerminalId (task_id task) = Some h ->
      exists evs terminal,
        trace (final_world (run env n (updateTerminals tasks w))) = trace w ++ evs /\
        EDispose h ∈ evs /\
        widgets (final_world (run env n (updateTerminals tasks w))) !! h = Some terminal /\
        disposed terminal = true /\
        taskTerminals (final_world (run env n (updateTerminals tasks w)))
          !! toTerminalId (task_id task) = None) /\
  (forall h,
      r_error (env n CGetTasks) = None -> task ∈ r_tasks (env n CGetTasks) ->
      registry_live w ->
      taskTerminals w !! toTerminalId (task_id task) = Some h ->
      exists evs terminal,
        trace (final_world (run env n (initTerminals validateId w))) = trace w ++ evs /\
        EDispose h ∈ evs /\
        widgets (final_world (run env n (initTerminals validateId w))) !! h = Some terminal /\
        disposed terminal = true /\
        taskTerminals (final_world (run env n (initTerminals validateId w)))
          !! toTerminalId (task_id task) = None).
Proof.
  intros Hc. split; [intros; by apply run_initLoop_closed|].
  split.
  { intros Hreg. unfold updateTask. cbn [bind bindR gets]. by rewrite Hreg. }
  split.
  { intros h Hreg. unfold updateTask. cbn [bind bindR gets]. rewrite Hreg.
    by destruct (decide (task_state task = CLOSED)). }
  split.
  { intros tasks.
    pose proof (updateTerminals_never_creates w tasks w (only_refl _ _)) as HS.
    apply (Safe_run _ _ _ env n) in HS.
    destruct (run env n (updateTerminals tasks w)) as [a w' n'|e w' n'];
      destruct HS as [(evs & Htr & Hall) _]; exists evs; (split; [done|]);
      intros o Hin; rewrite Forall_forall in Hall; by apply (Hall _ Hin o). }
  split.
  { intros Hall.
    assert (Hgood : only w (not_created_for (task_id task)) (emit (ECall CGetTasks) w)).
    { apply only_emit; [by intros o|apply only_refl]. }
    unfold initTerminals, getTasks. cbn [bind bindR call run].
    destruct (r_error (env n CGetTasks)) as [e|] eqn:Herr; cbn [bindR run final_world ret].
    { destruct Hgood as (evs & Htr & Hev). exists evs. split; [done|].
      intros o Hin. rewrite Forall_forall in Hev. by apply (Hev _ Hin o). }
    pose proof (bootstrap_never_creates_for validateId (task_id task) w
                  (r_tasks (env n CGetTasks)) _
                  (proj2 (Forall_forall _ _) Hall) Hgood) as HS.
    apply (Safe_run _ _ _ env (S n)) in HS.
    match goal with |- context [run env (S n) ?r] => destruct (run env (S n) r) end;
      destruct HS as [(evs & Htr & Hev) _]; exists evs; (split; [done|]);
      intros o Hin; rewrite Forall_forall in Hev; by apply (Hev _ Hin o). }
  split; [intros rest; by apply updateTerminals_closed_head|].
  split.
  - intros tasks h Hin HL Hreg.
    destruct (updateTerminals_disposes env n task tasks h w Hc Hin HL Hreg)
      as (_ & Hn & (t & Ht & Hd) & evs & Htr & Hev).
    by exists evs, t.
  - intros h Hok Hin HL Hreg.
    destruct (initTerminals_disposes validateId env n task h w Hc Hok Hin HL Hreg)
      as (_ & Hn & (t & Ht & Hd) & evs & Htr & Hev).
    by exists evs, t.
Qed.

(** ** A running task gets its terminal in the bootstrap pass *)

(** The bootstrap loop leaves a registered terminal registered and its
    latch as it is, whatever the payload. *)
Lemma initLoop_keeps_bound (validateId : Z -> bool) (env : Oracle)
      (tid : string) (h : nat) (X : option string)
      (tasks : list GitpodTask) (n : nat) (ref : option nat) (w : World) :
  bound tid h X w ->
  exists ref' w' n',
    run env n (initLoop validateId tasks ref w) = Returned ref' w' n' /\
    bound tid h X w' /\ trace_grows w w'.
Proof.
  intros (HL & Hreg & Hrem).
  destruct (initLoop_keeps_held validateId env w tid h tasks n ref w)
    as (ref' & w' & n' & Hrun & HL' & Hreg' & Htr').
  { split; [done|]. split; [done|]. apply trace_grows_refl. }
  exists ref', w', n'. split; [done|]. split; [|done]. split; [done|]. split; [done|].
  assert (HS : Safe (remote_is h X) anything no_error (initLoop validateId tasks ref w)).
  { apply (Safe_initLoop validateId (remote_is h X) (fun _ => True));
      [| | | | | |by apply Forall_forall|done].
    - by intros w1 msg e H.
    - by intros w1 t p _ _ _ H _.
    - intros w1 t p _ _ _ H. by apply remote_is_create_widget.
    - by intros w1 h' H.
    - intros w1 h' z H. by apply (remote_is_alter (set_terminalId z)).
    - by intros w1 h' r a m H. }
  apply (Safe_final _ _ _ env n) in HS. by rewrite Hrun in HS.
Qed.

(** C2 (amended): in a bootstrap pass that runs uninterrupted and whose
    task list was fetched, a [RUNNING] task that has a presentation, is not
    preceded in the payload by another entry with its id and has no
    terminal registered gets a terminal requested; once that request is
    granted, a new terminal is registered for it and, later in the same
    pass, the attach command for the task's remote session is executed in
    it - whatever the other calls of the pass answer, [start] and the
    attach command included.  When no later entry of the payload carries
    the id either, the terminal ends the pass registered, with
    [remoteTerminal] set to the task's remote session.  An update pass
    creates nothing: there such a task is skipped, leaving the state as it
    is. *)
Theorem running_task_created_in_bootstrap (validateId : Z -> bool) (env : Oracle)
        (n : nat) (task : GitpodTask) (p : Presentation) (l1 l2 : list GitpodTask)
        (w : World) :
  r_error (env n CGetTasks) = None ->
  r_tasks (env n CGetTasks) = l1 ++ task :: l2 ->
  (forall t, t ∈ l1 -> task_id t <> task_id task) ->
  task_state task = RUNNING ->
  task_presentation task = Some p ->
  (forall k, r_error (env k (CNewTerminal (task_options task p))) = None) ->
  registry_live w ->
  taskTerminals w !! toTerminalId (task_id task) = None ->
  (exists h evs1 evs2 evs3,
      trace (final_world (run env n (initTerminals validateId w))) =
        trace w ++ evs1 ++ [ECall (CNewTerminal (task_options task p))] ++ evs2
                ++ [ECall (CExecuteCommand h "/workspace" (attach_args (task_terminal task)))]
                ++ evs3 /\
      widgets w !! h = None /\
      ((forall t, t ∈ l2 -> task_id t <> task_id task) ->
       taskTerminals (final_world (run env n (initTerminals validateId w)))
         !! toTerminalId (task_id task) = Some h /\
       exists terminal,
         widgets (final_world (run env n (initTerminals validateId w))) !! h
           = Some terminal /\
         remoteTerminal terminal = task_terminal task)) /\
  run env n (updateTask task w) = Returned tt w n /\
  (forall tasks, exists evs,
      trace (final_world (run env n (updateTerminals tasks w))) = trace w ++ evs /\
      forall o, ECall (CNewTerminal o) ∉ evs).
Proof.
  intros Hok Htasks Hother Hrun Hp Hnew HL Hreg.
  split; [|split].
  2:{ unfold updateTask. cbn [bind bindR gets]. by rewrite Hreg. }
  2:{ intros tasks.
      pose proof (updateTerminals_never_creates w tasks w (only_refl _ _)) as HS.
      apply (Safe_final _ _ _ env n) in HS. destruct HS as (evs & Htr & Hall).
      exists evs. split; [done|]. intros o Ho.
      rewrite Forall_forall in Hall. by apply (Hall _ Ho o). }
  set (tid := toTerminalId (task_id task)) in *.
  assert (Ho1 : Forall (other tid) l1).
  { apply Forall_forall. intros t Ht Heq%toTerminalId_inj. by apply (Hother t). }
  assert (Hnc : task_state task <> CLOSED) by congruence.
  (* the bootstrap loop: the tasks before, the task, the tasks after *)
  set (w0 := emit (ECall CGetTasks) w).
  assert (HU0 : unbound tid w0) by (by split).
  assert (HG0 : heap_grows w w0) by (by intros h0 Hh0).
  destruct (run_safe_returns _ env (S n) _
              (Safe_and _ _ _ _ _
                 (Safe_and _ _ _ _ _ (unbound_initLoop validateId tid l1 None w0 Ho1 HU0)
                    (Stable_initLoop validateId _ l1 None w0 (trace_grows_stable w0)
                       (trace_grows_refl w0)))
                 (Stable_initLoop validateId _ l1 None w0 (heap_grows_stable w) HG0)))
    as (ref1 & w1 & n1 & Hrun1 & [HU1 Htr1] & HG1).
  apply trace_grows_elim in Htr1 as [e1 Htr1].
  destruct (initLoop_head_creates validateId env n1 task p l2 ref1 w1 Hnc Hp (Hnew n1) HU1)
    as (h & ref2 & w2 & n2 & e2 & Hrun2 & HB2 & Hfresh & Htr2).
  fold tid in HB2.
  destruct (initLoop_keeps_bound validateId env tid h None l2 n2 ref2 w2 HB2)
    as (ref3 & w3 & n3 & Hrun3 & HB3 & Htr3).
  apply trace_grows_elim in Htr3 as [e3 Htr3].
  (* the update loop *)
  destruct (run_safe_returns _ env n3 _
              (Safe_and _ _ _ _ _ (bound_updateTerminals tid h None l1 w3 Ho1 HB3)
                 (Stable_updateTerminals _ l1 w3 (trace_grows_stable w3)
                    (trace_grows_refl w3))))
    as ([] & w4 & n4 & Hrun4 & HB4 & Htr4).
  apply trace_grows_elim in Htr4 as [e4 Htr4].
  destruct (updateTerminals_head_attaches env n4 task l2 h w4 Hrun HB4)
    as (w5 & n5 & e5 & Hrun5 & HB5 & Htr5).
  fold tid in HB5.
  destruct (run_safe_returns _ env n5 _
              (Stable_updateTerminals _ l2 w5 (trace_grows_stable w5) (trace_grows_refl w5)))
    as ([] & w6 & n6 & Hrun6 & Htr6).
  apply trace_grows_elim in Htr6 as [e6 Htr6].
  (* the default terminal *)
  pose proof (Safe_final _ _ _ env n6 _
                (Stable_openDefaultTerminal _ w6 (trace_grows_stable w6)
                   (trace_grows_refl w6))) as Htr7.
  apply trace_grows_elim in Htr7 as [e7 Htr7].
  assert (Hall : run env n (initTerminals validateId w) =
                 run env n6 (openDefaultTerminal w6)).
  { unfold initTerminals, getTasks. cbn [bind bindR call run]. rewrite Hok.
    cbn [bindR ret]. fold w0. rewrite Htasks.
    rewrite run_bind, run_initLoop_app, Hrun1, Hrun2, Hrun3.
    rewrite run_bind, run_updateTerminals_app, Hrun4, Hrun5, Hrun6. reflexivity. }
  rewrite Hall.
  exists h, ([ECall CGetTasks] ++ e1), (e2 ++ e3 ++ e4), (e5 ++ e6 ++ e7).
  split; [|split].
  - rewrite Htr7, Htr6, Htr5, Htr4, Htr3, Htr2, Htr1. unfold w0. cbn [emit trace].
    rewrite <- !app_assoc. cbn [app]. reflexivity.
  - destruct (widgets w !! h) as [t|] eqn:Hwh; [|done].
    destruct (HG1 h) as [t1 Ht1]; [by eexists|]. congruence.
  - intros Hlater.
    assert (Ho2 : Forall (other tid) l2).
    { apply Forall_forall. intros t Ht Heq%toTerminalId_inj. by apply (Hlater t). }
    pose proof (Safe_final _ _ _ env n5 _
                  (bound_updateTerminals tid h (task_terminal task) l2 w5 Ho2 HB5)) as HB6.
    rewrite Hrun6 in HB6. cbn [final_world] in HB6.
    pose proof (Safe_final _ _ _ env n6 _
                  (bound_openDefaultTerminal tid h (task_terminal task) w6 HB6))
      as (_ & Hreg7 & Hrem7).
    by split.
Qed.

(** ** The properties on sample runs *)

Lemma registry_live_sample (terminal : Widget) :
  is_ terminal = true -> disposed terminal = false ->
  registry_live (sample_world terminal).
Proof.
  intros His Hd id h Hreg. cbn [sample_world taskTerminals widgets] in *.
  apply lookup_singleton_Some in Hreg as [<- <-].
  exists terminal. by rewrite lookup_singleton_eq.
Qed.

(** C1 on the sample schedule: three passes ran one after the other and
    nothing in the chain was rejected. *)
Lemma passes_are_serialized_witness :
  match exec valid_id sample_schedule (boot empty_world) with
  | Some s =>
      hist s = serial (submitted s) /\
      forall p e, promises s !! p = Some (Done (SRejected e)) ->
                  p = 1 /\ p <> pendingUpdates s
  | None => False
  end.
Proof.
  pose proof (passes_are_serialized valid_id sample_schedule empty_world) as H.
  assert (Hq : (fun s => promises s !! pendingUpdates s)
                 <$> exec valid_id sample_schedule (boot empty_world)
               = Some (Some (Done SFulfilled))) by (vm_compute; reflexivity).
  destruct (exec valid_id sample_schedule (boot empty_world)) as [s|] eqn:He;
    [|discriminate Hq].
  destruct (H s eq_refl) as (_ & Hrej & Hdone & _).
  split; [apply Hdone; by injection Hq|exact Hrej].
Defined.

(** C2 on a bootstrap pass over one running task in an empty state, with
    every [start] rejected: the terminal is created and attached all the
    same. *)
Lemma running_task_created_in_bootstrap_witness :
  exists h terminal,
    taskTerminals
      (final_world (run (rejecting_start [sample_task "t1" RUNNING (Some "r1")]) 0
                        (initTerminals valid_id empty_world)))
      !! toTerminalId "t1" = Some h /\
    widgets
      (final_world (run (rejecting_start [sample_task "t1" RUNNING (Some "r1")]) 0
                        (initTerminals valid_id empty_world)))
      !! h = Some terminal /\
    remoteTerminal terminal = Some "r1".
Proof.
  destruct (running_task_created_in_bootstrap valid_id
              (rejecting_start [sample_task "t1" RUNNING (Some "r1")]) 0
              (sample_task "t1" RUNNING (Some "r1"))
              {| name := "build"; openIn := None; openMode := None |} [] [] empty_world)
    as [(h & e1 & e2 & e3 & _ & _ & Hend) _].
  - reflexivity.
  - reflexivity.
  - intros t Ht. by apply elem_of_nil in Ht.
  - reflexivity.
  - reflexivity.
  - intros k. reflexivity.
  - apply registry_live_empty.
  - vm_compute. reflexivity.
  - destruct Hend as (Hreg & terminal & Hw & Hr).
    + intros t Ht. by apply elem_of_nil in Ht.
    + by exists h, terminal.
Defined.

(** C2, counterexamples.  An update pass that finds a [RUNNING] task
    with no terminal registered creates nothing; it returns with the state
    unchanged.  A bootstrap pass that is interrupted: in
    [interrupted_schedule] the terminal of ["t1"] (handle 0) is created,
    started and placed, the user closes it while the pass waits for the
    terminal of ["t2"], and the pass, which ends, never attaches it - the
    only attach command goes to the terminal of ["t2"].  A bootstrap pass
    over a payload with a [CLOSED] entry of the same id before the
    [RUNNING] one: the terminal is created by the loop and disposed by the
    update loop before the turn of the [RUNNING] entry comes; it is never
    attached. *)
Lemma running_task_not_attached_counterexample :
  (task_state (sample_task "t1" RUNNING (Some "r1")) = RUNNING /\
   taskTerminals empty_world !! toTerminalId "t1" = None /\
   run (answering []) 0
       (updateTerminals [sample_task "t1" RUNNING (Some "r1")] empty_world)
   = Returned tt empty_world 0) /\
  (fun s => (trace (world s), hist s))
    <$> exec valid_id interrupted_schedule (boot empty_world) =
  Some ([ECall CGetTasks;
         ECall (CNewTerminal (task_options (sample_task "t1" RUNNING (Some "r1"))
                                {| name := "build"; openIn := None; openMode := None |}));
         ECall (CStart 0);
         ECall (CActivate 0 None "bottom" "tab-after");
         ECall (CNewTerminal (task_options (sample_task "t2" RUNNING (Some "r2"))
                                {| name := "build"; openIn := None; openMode := None |}));
         EConsoleError "task alias is missing" None;
         ECall (CStart 1);
         ECall (CActivate 1 (Some 0) "bottom" "tab-after");
         ECall (CExecuteCommand 1 "/workspace"
                  ["/theia/supervisor"; "terminal"; "attach"; "r2"; "-ir"])],
        [HStart 0; HEnd 0]) /\
  trace (final_world
           (run (answering [sample_task "t1" CLOSED (Some "r1");
                            sample_task "t1" RUNNING (Some "r1")]) 0
                (initTerminals valid_id empty_world))) =
  [ECall CGetTasks;
   ECall (CNewTerminal (task_options (sample_task "t1" RUNNING (Some "r1"))
                          {| name := "build"; openIn := None; openMode := None |}));
   ECall (CStart 0);
   ECall (CActivate 0 None "bottom" "tab-after");
   EDispose 0;
   ECall (CNewTerminal generic_options);
   EStartDetached 1;
   ECall (COpen 1)].
Proof.
  split; [vm_compute; repeat split|]. split; vm_compute; reflexivity.
Qed.

(** C3 on a terminal latched to ["r1"]: an update pass that presents the
    task with another remote session leaves the latch alone. *)
Lemma attach_latch_idempotent_witness :
  latched 0 "r1"
    (final_world
       (run (answering []) 0
            (updateTerminals [sample_task "t1" RUNNING (Some "r9")]
                             (sample_world (sample_terminal (toTerminalId "t1") (Some "r1")))))).
Proof.
  apply (attach_latch_idempotent valid_id (answering []) 0 0 "r1"
           (sample_terminal (toTerminalId "t1") (Some "r1"))
           (sample_world (sample_terminal (toTerminalId "t1") (Some "r1")))).
  - vm_compute. reflexivity.
  - reflexivity.
  - discriminate.
Defined.

(** C3, counterexample: a [RUNNING] task whose remote session id is the
    empty string.  The first pass sets [remoteTerminal] (to the empty
    string) and attaches; the next pass sets it and attaches again. *)
Lemma empty_alias_attached_twice_counterexample :
  widgets
    (final_world
       (run (answering []) 0
            (updateTerminals [sample_task "t1" RUNNING (Some "")]
                             (sample_world (sample_terminal (toTerminalId "t1") None)))))
    !! 0 ≫= remoteTerminal = Some "" /\
  trace
    (final_world
       (run (answering []) 1
            (updateTerminals [sample_task "t1" RUNNING (Some "")]
               (final_world
                  (run (answering []) 0
                       (updateTerminals [sample_task "t1" RUNNING (Some "")]
                          (sample_world (sample_terminal (toTerminalId "t1") None)))))))) =
  [ECall (CExecuteCommand 0 "/workspace"
            ["/theia/supervisor"; "terminal"; "attach"; ""; "-ir"]);
   ECall (CExecuteCommand 0 "/workspace"
            ["/theia/supervisor"; "terminal"; "attach"; ""; "-ir"])].
Proof. vm_compute. split; reflexivity. Qed.

(** C4 on a bootstrap pass whose payload shows task ["t1"] as [CLOSED]
    while its terminal is registered: the pass disposes the terminal and
    the registry loses the entry. *)
Lemma closed_task_never_created_witness :
  exists evs terminal,
    trace (final_world
             (run (answering [sample_task "t1" CLOSED (Some "r1")]) 0
                  (initTerminals valid_id
                     (sample_world (sample_terminal (toTerminalId "t1") (Some "r1")))))) =
    trace (sample_world (sample_terminal (toTerminalId "t1") (Some "r1"))) ++ evs /\
    EDispose 0 ∈ evs /\
    widgets (final_world
               (run (answering [sample_task "t1" CLOSED (Some "r1")]) 0
                    (initTerminals valid_id
                       (sample_world (sample_terminal (toTerminalId "t1") (Some "r1"))))))
      !! 0 = Some terminal /\
    disposed terminal = true /\
    taskTerminals (final_world
                     (run (answering [sample_task "t1" CLOSED (Some "r1")]) 0
                          (initTerminals valid_id
                             (sample_world (sample_terminal (toTerminalId "t1") (Some "r1"))))))
      !! toTerminalId "t1" = None.
Proof.
  destruct (closed_task_never_created valid_id
              (answering [sample_task "t1" CLOSED (Some "r1")]) 0
              (sample_task "t1" CLOSED (Some "r1"))
              (sample_world (sample_terminal (toTerminalId "t1") (Some "r1"))) eq_refl)
    as (_ & _ & _ & _ & _ & _ & _ & H).
  apply (H 0).
  - reflexivity.
  - by left.
  - by apply registry_live_sample.
  - vm_compute. reflexivity.
Defined.

(** C5 on the state the sample schedule ends in. *)
Lemma disposal_unregisters_witness :
  match exec valid_id sample_schedule (boot empty_world) with
  | Some s =>
      (forall id h, taskTerminals (world s) !! id = Some h ->
         exists terminal, widgets (world s) !! h = Some terminal /\
                          disposed terminal = false /\ w_id terminal = id) /\
      (forall h id, taskTerminals (dispose_widget h (world s)) !! id <> Some h) /\
      (forall h id, taskTerminals (close_widget h (world s)) !! id <> Some h)
  | None => False
  end.
Proof.
  pose proof (disposal_unregisters valid_id sample_schedule empty_world) as H.
  assert (Hq : (fun _ => tt) <$> exec valid_id sample_schedule (boot empty_world) = Some tt)
    by (vm_compute; reflexivity).
  destruct (exec valid_id sample_schedule (boot empty_world)) as [s|] eqn:He;
    [|discriminate Hq].
  apply (H s (registry_live_empty _) eq_refl).
Defined.




(** C10 on a task without presentation in an empty state. *)
Lemma missing_presentation_is_caught_witness :
  exists msg,
    run (answering []) 0
        (initTask valid_id
           {| task_id := "t1"; task_state := OPENING; task_terminal := None;
              task_presentation := None |} None empty_world) =
    Thrown (TypeError msg) empty_world 0.
Proof.
  destruct (missing_presentation_is_caught valid_id (answering []) 0
              {| task_id := "t1"; task_state := OPENING; task_terminal := None;
                 task_presentation := None |} [] None empty_world)
    as (msg & w' & H & _).
  - discriminate.
  - reflexivity.
  - vm_compute. reflexivity.
  - by exists msg.
Defined.

(** * Further properties *)

(** ** Terminals that are not task terminals *)

Lemma is_kind (terminal : Widget) :
  is_ terminal = true <-> kind terminal = Some "gitpod-task".
Proof.
  unfold is_. destruct (kind terminal) as [k|]; [|by split].
  rewrite String.eqb_eq. split; congruence.
Qed.

(** X1: a terminal whose kind is not ['gitpod-task'] is invisible to the
    contribution: its creation registers nothing, and closing or disposing
    it leaves [taskTerminals] as it is and issues neither a close request
    nor a diagnostic. *)
Theorem other_terminals_are_ignored (h : nat) (terminal : Widget) (o : TerminalOptions)
        (w : World) :
  widgets w !! h = Some terminal ->
  kind terminal <> Some "gitpod-task" ->
  o_kind o <> Some "gitpod-task" ->
  taskTerminals (create_widget o w).2 = taskTerminals w /\
  trace (create_widget o w).2 = trace w /\
  taskTerminals (close_widget h w) = taskTerminals w /\
  trace (close_widget h w) = trace w /\
  taskTerminals (dispose_widget h w) = taskTerminals w /\
  trace (dispose_widget h w) = trace w.
Proof.
  intros Hh Hk Ho.
  assert (His : is_ terminal = false).
  { destruct (is_ terminal) eqn:H; [|done]. by apply is_kind in H. }
  assert (Hd : taskTerminals (dispose_widget h w) = taskTerminals w).
  { unfold dispose_widget. rewrite Hh. destruct (disposed terminal); [done|].
    by rewrite His. }
  split.
  { destruct (widgets_create_widget o w) as (t & _ & _ & Hkt & _ & _ & ->).
    destruct (is_ t) eqn:H; [|done]. apply is_kind in H. congruence. }
  split; [apply trace_create_widget|].
  assert (Hc : close_widget h w = dispose_widget h w).
  { unfold close_widget. rewrite Hh, His. destruct (disposed terminal) eqn:Hdd; [|done].
    unfold dispose_widget. by rewrite Hh, Hdd. }
  rewrite Hc. split; [done|]. split; [apply trace_dispose_widget|].
  split; [done|apply trace_dispose_widget].
Qed.

Lemma other_terminals_are_ignored_witness :
  taskTerminals
    (close_widget 0 {| widgets := {[ 0 := {| w_id := "terminal-0"; kind := None;
                                              title := None; remoteTerminal := None;
                                              terminalId := 1%Z; disposed := false |} ]};
                       taskTerminals := ∅;
                       location := {| protocol := "https:"; host := "ws.gitpod.io" |};
                       trace := [] |}) = ∅.
Proof.
  destruct (other_terminals_are_ignored 0
              {| w_id := "terminal-0"; kind := None; title := None;
                 remoteTerminal := None; terminalId := 1%Z; disposed := false |}
              generic_options
              {| widgets := {[ 0 := {| w_id := "terminal-0"; kind := None;
                                        title := None; remoteTerminal := None;
                                        terminalId := 1%Z; disposed := false |} ]};
                 taskTerminals := ∅;
                 location := {| protocol := "https:"; host := "ws.gitpod.io" |};
                 trace := [] |})
    as (_ & _ & H & _).
  - vm_compute. reflexivity.
  - discriminate.
  - discriminate.
  - exact H.
Defined.

(** ** More on [split], [getTaskId] and the attach command *)

Lemma split_pieces (sep : ascii) (s : string) :
  Forall (fun piece => contains sep piece = false) (split sep s).
Proof.
  induction s as [|c s IH]; simpl.
  - by repeat constructor.
  - destruct (Ascii.eqb c sep) eqn:Hc.
    + by constructor.
    + destruct (split sep s) as [|x xs]; [by repeat constructor; simpl; rewrite Hc|].
      inversion IH; subst. constructor; [|done]. simpl. by rewrite Hc.
Qed.

Lemma split_first_piece (sep : ascii) (s : string) :
  exists piece rest pieces,
    split sep s = piece :: pieces /\ s = piece +:+ rest /\
    (rest = "" /\ pieces = [] \/ exists r, rest = String sep r /\ pieces = split sep r).
Proof.
  induction s as [|c s IH]; simpl.
  - exists "", "", []. split; [done|]. split; [done|]. by left.
  - destruct (Ascii.eqb c sep) eqn:Hc.
    + apply Ascii.eqb_eq in Hc as ->.
      exists "", (String sep s), (split sep s). split; [done|]. split; [done|].
      right. by exists s.
    + destruct IH as (piece & rest & pieces & -> & Hs & Hrest).
      exists (String c piece), rest, pieces. split; [done|]. split; [by rewrite Hs at 1|].
      done.
Qed.

(** X2: [getTaskId] is [undefined] on a terminal whose id has no colon, and
    on the terminal id derived from a task id it is the part of the task id
    before its first colon. *)
Theorem getTaskId_pieces (s : string) (terminal : Widget) :
  (contains ":" (w_id terminal) = false -> getTaskId terminal = None) /\
  (w_id terminal = toTerminalId s ->
   exists piece rest,
     getTaskId terminal = Some piece /\ contains ":" piece = false /\
     s = piece +:+ rest /\ (rest = "" \/ exists r, rest = String ":" r)).
Proof.
  split.
  - intros Hno. unfold getTaskId. by rewrite (split_without_sep _ _ Hno).
  - intros Hid. unfold getTaskId. rewrite Hid, split_toTerminalId.
    pose proof (split_pieces ":" s) as Hall.
    destruct (split_first_piece ":" s) as (piece & rest & pieces & Hsp & Hs & Hrest).
    rewrite Hsp in Hall |- *. inversion Hall; subst.
    exists piece, rest. split; [done|]. split; [done|]. split; [done|].
    destruct Hrest as [[-> _]|(r & -> & _)]; [by left|right; by exists r].
Qed.

Lemma getTaskId_pieces_witness :
  getTaskId (sample_terminal "terminal-7" None) = None.
Proof.
  apply (getTaskId_pieces "" (sample_terminal "terminal-7" None)). reflexivity.
Defined.

(** X3: the attach command.  For a remote session id without a space the
    argument vector is [/theia/supervisor terminal attach <id> -ir]; for an
    unset id the word [undefined] takes the place of the id; and no
    argument ever contains a space. *)
Theorem attach_args_argv (r : string) (o : option string) :
  (contains " " r = false ->
   attach_args (Some r) = ["/theia/supervisor"; "terminal"; "attach"; r; "-ir"]) /\
  attach_args None = ["/theia/supervisor"; "terminal"; "attach"; "undefined"; "-ir"] /\
  Forall (fun arg => contains " " arg = false) (attach_args o).
Proof.
  split; [|split; [reflexivity|apply split_pieces]].
  intros Hr. unfold attach_args, interpolate.
  change ("/theia/supervisor terminal attach " +:+ r +:+ " -ir")
    with ("/theia/supervisor" +:+ String " " ("terminal" +:+ String " "
            ("attach" +:+ String " " (r +:+ String " " "-ir")))).
  rewrite !split_at_first_sep by done. reflexivity.
Qed.

Lemma attach_args_argv_witness :
  attach_args (Some "r1") = ["/theia/supervisor"; "terminal"; "attach"; "r1"; "-ir"].
Proof. apply (attach_args_argv "r1" None). reflexivity. Defined.

(** ** What an update pass leaves alone *)

Lemma shrinks_refl (w : World) : shrinks w w.
Proof. split; [done|]. intros h. by destruct (widgets w !! h). Qed.

Lemma shrinks_alter (f : Widget -> Widget) (h : nat) (w0 w : World) :
  (forall t, w_id (f t) = w_id t /\ kind (f t) = kind t /\ title (f t) = title t /\
             terminalId (f t) = terminalId t) ->
  shrinks w0 w -> shrinks w0 (set_widgets (alter f h) w).
Proof.
  intros Hf [Hreg Hw]. split; [done|]. intros h'. specialize (Hw h').
  cbn [set_widgets widgets]. destruct (decide (h = h')) as [->|Hne].
  - rewrite lookup_alter_eq. destruct (widgets w !! h') as [t|]; cbn; [|done].
    destruct (widgets w0 !! h') as [t0|]; [|done].
    destruct (Hf t) as (-> & -> & -> & ->). done.
  - by rewrite lookup_alter_ne.
Qed.

Lemma shrinks_dispose_widget (h : nat) (w0 w : World) :
  shrinks w0 w -> shrinks w0 (dispose_widget h w).
Proof.
  intros [Hreg Hw]. unfold dispose_widget.
  destruct (widgets w !! h) as [d|] eqn:Hd; [|done].
  destruct (disposed d); [done|].
  assert (Hins : forall h', match <[h := set_disposed d]> (widgets w) !! h', widgets w0 !! h' with
                           | Some t, Some t0 =>
                               w_id t = w_id t0 /\ kind t = kind t0 /\ title t = title t0 /\
                               terminalId t = terminalId t0
                           | None, None => True
                           | _, _ => False
                           end).
  { intros h'. specialize (Hw h'). destruct (decide (h = h')) as [->|Hne].
    - rewrite lookup_insert_eq. by rewrite Hd in Hw.
    - by rewrite lookup_insert_ne. }
  destruct (is_ d); split; try done.
  cbn [onDidDispose set_taskTerminals set_widgets taskTerminals].
  etrans; [apply delete_subseteq|done].
Qed.

(** X4: an update pass creates and registers nothing.  Whatever the tasks
    and the answers, it ends with the same widgets as before, each with its
    id, kind, title and backing session, and with no registry entry that
    was not there before; it only sets latches, disposes and unregisters. *)
Theorem update_pass_adds_nothing (env : Oracle) (n : nat) (tasks : list GitpodTask)
        (w : World) :
  taskTerminals (final_world (run env n (updateTerminals tasks w))) ⊆ taskTerminals w /\
  dom (widgets (final_world (run env n (updateTerminals tasks w)))) = dom (widgets w) /\
  forall h t,
    widgets (final_world (run env n (updateTerminals tasks w))) !! h = Some t ->
    exists t0, widgets w !! h = Some t0 /\ w_id t = w_id t0 /\ kind t = kind t0 /\
               title t = title t0 /\ terminalId t = terminalId t0.
Proof.
  assert (HS : Safe (shrinks w) anything no_error (updateTerminals tasks w)).
  { apply Safe_updateTerminals; [| | |apply shrinks_refl].
    - intros w1 msg e H. exact H.
    - intros w1 task h H _ _. by apply shrinks_dispose_widget.
    - intros w1 task h H _ _ _.
      by apply (shrinks_alter (set_remoteTerminal (task_terminal task)) h w w1). }
  apply (Safe_final _ _ _ env n) in HS. destruct HS as [Hreg Hw].
  split; [done|]. split.
  - apply set_eq. intros h. rewrite !elem_of_dom. specialize (Hw h).
    destruct (widgets (final_world _) !! h), (widgets w !! h); try done;
      split; intros [? ?]; by eauto.
  - intros h t Ht. specialize (Hw h). rewrite Ht in Hw.
    destruct (widgets w !! h) as [t0|]; [|done]. by exists t0.
Qed.

(** ** The default terminal *)

Lemma all_length_pos (w : World) (h : nat) (t : Widget) :
  widgets w !! h = Some t -> disposed t = false -> 0 < all_length w.
Proof.
  intros Hh Hd. unfold all_length.
  destruct (decide (size (filter (fun p : nat * Widget => disposed p.2 = false) (widgets w)) = 0))
    as [Hz|]; [|lia].
  apply map_size_empty_iff in Hz.
  assert (Hin : filter (fun p : nat * Widget => disposed p.2 = false) (widgets w) !! h = Some t).
  { by apply map_lookup_filter_Some. }
  rewrite Hz in Hin. by rewrite lookup_empty in Hin.
Qed.

Lemma all_length_create_widget (o : TerminalOptions) (w : World) :
  all_length (create_widget o w).2 = S (all_length w).
Proof.
  pose proof (create_widget_fresh o w) as Hfresh.
  destruct (widgets_create_widget o w) as (t & Hws & _ & _ & _ & Hd & _).
  unfold all_length. rewrite Hws.
  rewrite map_filter_insert_True by done.
  rewrite map_size_insert_None; [done|].
  apply map_lookup_filter_None. by left.
Qed.

(** X5: the default terminal.  When some terminal is alive,
    [openDefaultTerminal] does nothing.  When none is and the calls
    succeed, it requests one terminal without id or kind, starts it without
    waiting, opens it, and registers nothing: exactly one terminal is alive
    afterwards. *)
Theorem default_terminal_only_when_none (env : Oracle) (n : nat) (w : World) :
  (all_length w <> 0 -> run env n (openDefaultTerminal w) = Returned tt w n) /\
  (all_length w = 0 ->
   r_error (env n (CNewTerminal generic_options)) = None ->
   (forall h, r_error (env (S n) (COpen h)) = None) ->
   exists h w',
     run env n (openDefaultTerminal w) = Returned tt w' (2 + n) /\
     trace w' = trace w ++ [ECall (CNewTerminal generic_options);
                            EStartDetached h; ECall (COpen h)] /\
     widgets w !! h = None /\
     taskTerminals w' = taskTerminals w /\
     all_length w' = 1).
Proof.
  split.
  - intros Hn. unfold openDefaultTerminal. cbn [bind bindR gets].
    apply Nat.eqb_neq in Hn. by rewrite Hn.
  - intros Hz Hnew Hopen. unfold openDefaultTerminal. cbn [bind bindR gets].
    rewrite Hz. cbn [Nat.eqb]. unfold newTerminal. cbn [bind bindR call run].
    fold generic_options. rewrite Hnew. cbn [bindR].
    set (w1 := emit (ECall (CNewTerminal generic_options)) w).
    pose proof (create_widget_fresh generic_options w1) as Hfresh.
    pose proof (trace_create_widget generic_options w1) as Htr.
    pose proof (all_length_create_widget generic_options w1) as Hlen.
    assert (Hreg : taskTerminals (create_widget generic_options w1).2 = taskTerminals w).
    { destruct (widgets_create_widget generic_options w1) as (t & _ & _ & Hk & _ & _ & ->).
      destruct (is_ t) eqn:His; [|done]. apply is_kind in His.
      rewrite Hk in His. discriminate. }
    destruct (create_widget generic_options w1) as [h w2]. cbn [fst snd] in *.
    unfold start_detached, open. cbn [bind bindR modify call run]. rewrite Hopen.
    cbn [bindR ret run].
    eexists _, _. split; [reflexivity|]. split.
    { cbn [emit trace]. rewrite Htr. unfold w1. cbn [emit trace].
      by rewrite <- !app_assoc. }
    split; [exact Hfresh|]. split; [exact Hreg|].
    unfold all_length, w1 in *. cbn [emit widgets] in *. by rewrite Hlen, Hz.
Qed.

(** X6: a bootstrap pass that returns leaves at least one terminal alive,
    whatever the tasks were and whichever per-task calls failed. *)
Theorem bootstrap_leaves_a_terminal (validateId : Z -> bool) (env : Oracle) (n : nat)
        (w w' : World) (n' : nat) :
  run env n (initTerminals validateId w) = Returned tt w' n' ->
  0 < all_length w'.
Proof.
  intros Hrun.
  destruct (r_error (env n CGetTasks)) as [e|] eqn:Herr.
  { unfold initTerminals, getTasks in Hrun. cbn [bind bindR call run] in Hrun.
    rewrite Herr in Hrun. discriminate Hrun. }
  destruct (run_initTerminals validateId env n w Herr)
    as (ref & w1 & n1 & w2 & n2 & _ & _ & Heq).
  rewrite Heq in Hrun. clear Heq.
  unfold openDefaultTerminal in Hrun. cbn [bind bindR gets] in Hrun.
  destruct (all_length w2 =? 0) eqn:Hz.
  2:{ cbn [run ret] in Hrun. simplify_eq. apply Nat.eqb_neq in Hz. lia. }
  unfold newTerminal in Hrun. cbn [bind bindR call run] in Hrun.
  destruct (r_error (env n2 _)); cbn [bindR run] in Hrun; [discriminate Hrun|].
  match type of Hrun with context [create_widget ?o ?w0] =>
    pose proof (all_length_create_widget o w0) as Hlen;
    destruct (create_widget o w0) as [h w3] end.
  cbn [fst snd] in *. unfold start_detached, open in Hrun.
  cbn [bind bindR modify call run] in Hrun.
  destruct (r_error (env (S n2) _)); cbn [bindR ret run] in Hrun; [discriminate Hrun|].
  simplify_eq. unfold all_length in *. cbn [emit widgets] in *. lia.
Qed.

(** ** Replaying a payload *)

Lemma settled_updateTask (task : GitpodTask) (w : World) :
  settled task w -> updateTask task w = RetV tt w.
Proof.
  unfold settled, updateTask. cbn [bind bindR gets].
  destruct (taskTerminals w !! toTerminalId (task_id task)) as [h|]; [|done].
  intros [Hc Hl]. destruct (decide (task_state task = CLOSED)); [done|].
  cbn [bind bindR gets]. destruct Hl as [Hr|Hl].
  - rewrite bool_decide_eq_false_2 by done. done.
  - rewrite Hl. by rewrite orb_true_r.
Qed.

Lemma settled_updateTerminals (tasks : list GitpodTask) (w : World) :
  Forall (fun task => settled task w) tasks -> updateTerminals tasks w = RetV tt w.
Proof.
  induction 1 as [|task rest Ht Hrest IH]; [done|].
  cbn [updateTerminals]. unfold bind, try_catch. rewrite settled_updateTask by done.
  cbn [catchR bindR]. exact IH.
Qed.

Lemma updateTask_settles (env : Oracle) (n : nat) (task : GitpodTask) (w : World) :
  registry_live w -> attachable task ->
  registry_live (final_world (run env n (updateTask task w))) /\
  settled task (final_world (run env n (updateTask task w))) /\
  forall u, settled u w -> settled u (final_world (run env n (updateTask task w))).
Proof.
  intros HL Hgood. unfold updateTask. cbn [bind bindR gets].
  destruct (taskTerminals w !! toTerminalId (task_id task)) as [h|] eqn:Hreg.
  2:{ cbn [run final_world ret]. split; [done|]. split; [|done].
      unfold settled. by rewrite Hreg. }
  destruct (HL _ _ Hreg) as (d & Hd & Hdd & Hid & His).
  destruct (decide (task_state task = CLOSED)) as [Hc|Hc].
  { cbn [dispose modify run final_world].
    assert (Hw : dispose_widget h (emit (EDispose h) w) =
                 set_taskTerminals (delete (toTerminalId (task_id task)))
                   (set_widgets <[h := set_disposed d]> (emit (EDispose h) w))).
    { unfold dispose_widget. cbn [emit widgets]. rewrite Hd, Hdd, His.
      unfold onDidDispose. by rewrite Hid. }
    split; [by apply registry_live_dispose_widget|]. rewrite Hw. split.
    - unfold settled. cbn [set_taskTerminals taskTerminals]. by rewrite lookup_delete_eq.
    - intros u. unfold settled. cbn [set_taskTerminals set_widgets emit taskTerminals widgets].
      destruct (decide (toTerminalId (task_id task) = toTerminalId (task_id u))) as [<-|Hne].
      + by rewrite lookup_delete_eq.
      + rewrite lookup_delete_ne by done.
        destruct (taskTerminals w !! toTerminalId (task_id u)) as [hu|]; [|done].
        intros [Hcu Hlu]. split; [done|]. destruct Hlu as [?|Hlu]; [by left|right].
        destruct (decide (h = hu)) as [<-|Hneh].
        * rewrite lookup_insert_eq. rewrite Hd in Hlu. exact Hlu.
        * by rewrite lookup_insert_ne. }
  cbn [bind bindR gets]. rewrite Hd. cbn [mbind option_bind].
  destruct (bool_decide (task_state task = RUNNING)) eqn:Hrun; cbn [negb orb].
  2:{ cbn [run final_world ret]. apply bool_decide_eq_false in Hrun.
      split; [done|]. split; [|done]. unfold settled. rewrite Hreg. split; [done|by left]. }
  apply bool_decide_eq_true in Hrun.
  destruct (truthy (remoteTerminal d)) eqn:Hlatch.
  { cbn [run final_world ret]. split; [done|]. split; [|done].
    unfold settled. rewrite Hreg, Hd. split; [done|by right]. }
  cbn [bind bindR modify gets]. unfold executeCommand. cbn [bind bindR call run].
  set (w1 := emit _ (set_widgets (alter (set_remoteTerminal (task_terminal task)) h) w)).
  assert (Hfinal : final_world
                     (run env (S n)
                        (bindR match r_error (env n (CExecuteCommand h "/workspace"
                                   (attach_args
                                      (widgets (set_widgets
                                                  (alter (set_remoteTerminal (task_terminal task)) h) w)
                                         !! h ≫= remoteTerminal)))) with
                               | Some e => ThrowV e w1
                               | None => RetV (env n (CExecuteCommand h "/workspace"
                                   (attach_args
                                      (widgets (set_widgets
                                                  (alter (set_remoteTerminal (task_terminal task)) h) w)
                                         !! h ≫= remoteTerminal)))) w1
                               end (fun _ => ret tt))) = w1).
  { by destruct (r_error _). }
  rewrite Hfinal. unfold w1.
  assert (Hlat : alter (set_remoteTerminal (task_terminal task)) h (widgets w)
                   !! h ≫= remoteTerminal = task_terminal task).
  { by rewrite lookup_alter_eq, Hd. }
  split; [by apply (registry_live_alter (set_remoteTerminal (task_terminal task)))|].
  split.
  - unfold settled. cbn [emit set_widgets taskTerminals widgets]. rewrite Hreg.
    split; [done|right]. rewrite Hlat. by apply Hgood.
  - intros u. unfold settled. cbn [emit set_widgets taskTerminals widgets].
    destruct (taskTerminals w !! toTerminalId (task_id u)) as [hu|]; [|done].
    intros [Hcu Hlu]. split; [done|]. destruct Hlu as [?|Hlu]; [by left|right].
    destruct (decide (h = hu)) as [<-|Hneh].
    + rewrite Hlat. by apply Hgood.
    + by rewrite lookup_alter_ne.
Qed.

Lemma updateTerminals_settles (env : Oracle) (tasks : list GitpodTask) :
  forall (n : nat) (w : World) (seen : list GitpodTask),
    registry_live w -> Forall attachable tasks ->
    Forall (fun u => settled u w) seen ->
    Forall (fun u => settled u (final_world (run env n (updateTerminals tasks w))))
           (seen ++ tasks).
Proof.
  induction tasks as [|task rest IH]; intros n w seen HL Hgood Hseen.
  { by rewrite app_nil_r. }
  inversion Hgood as [|? ? Hg Hgrest]; subst.
  rewrite run_updateTerminals_cons.
  destruct (updateTask_settles env n task w HL Hg) as (HL1 & Hs1 & Hpres).
  assert (Hseen1 : forall w1, (forall u, settled u (final_world (run env n (updateTask task w))) ->
                                         settled u w1) ->
                              Forall (fun u => settled u w1) (seen ++ [task])).
  { intros w1 Hw1. apply Forall_app. split.
    - eapply Forall_impl; [exact Hseen|]. intros u Hu. by apply Hw1, Hpres.
    - constructor; [|done]. by apply Hw1. }
  replace (seen ++ task :: rest) with ((seen ++ [task]) ++ rest)
    by (by rewrite <- app_assoc).
  destruct (run env n (updateTask task w)) as [a w1 n1|e w1 n1]; cbn [final_world] in *.
  - apply IH; [done|done|]. by apply Hseen1.
  - apply IH; [exact HL1|done|]. apply Hseen1. intros u Hu. exact Hu.
Qed.

(** X7: replaying a payload does nothing.  After an update pass over
    tasks whose [RUNNING] entries carry a non-empty remote session id - with
    any answers, failures included - a second update pass over the same
    tasks issues no call and returns the state as it found it. *)
Theorem update_pass_replay_is_noop (env env' : Oracle) (n n' : nat)
        (tasks : list GitpodTask) (w : World) :
  registry_live w ->
  (forall task, task ∈ tasks -> task_state task = RUNNING ->
                truthy (task_terminal task) = true) ->
  run env' n' (updateTerminals tasks (final_world (run env n (updateTerminals tasks w)))) =
  Returned tt (final_world (run env n (updateTerminals tasks w))) n'.
Proof.
  intros HL Hgood.
  pose proof (updateTerminals_settles env tasks n w [] HL
                (proj2 (Forall_forall _ _) Hgood) (Forall_nil_2 _)) as Hs.
  cbn [app] in Hs. by rewrite (settled_updateTerminals _ _ Hs).
Qed.

(** ** A failed attach *)


(** ** A failed snapshot *)

Lemma failed_snapshot_in_loop (validateId : Z -> bool) (resp : Response) (e : Err)
      (w : World) :
  r_error resp = Some e ->
  match exec validateId [LLayout; LResume 0 resp; LJob] (boot w) with
  | Some s =>
      trace (world s) =
        trace w ++ [ECall CGetTasks;
                    EConsoleError "Failed to initizalize Gitpod task terminals:" (Some e)] /\
      widgets (world s) = widgets w /\
      taskTerminals (world s) = taskTerminals w /\
      promises s !! pendingUpdates s = Some (Done SFulfilled) /\
      hist s = [HStart 0; HEnd 0] /\ jobs s = [] /\ coros s = []
  | None => False
  end.
Proof.
  destruct resp as [re rt rz]. cbn [r_error]. intros ->.
  vm_compute. repeat split.
  exact (eq_sym (app_assoc (trace w) [ECall CGetTasks]
                   [EConsoleError "Failed to initizalize Gitpod task terminals:" (Some e)])).
Qed.

(** X9: when [getTasks] fails, the bootstrap pass rejects at once: no
    terminal is created, not even the default one.  In the event loop the
    rejection is caught and logged, [pendingUpdates] is fulfilled all the
    same, and the widgets and the registry are as they were. *)
Theorem failed_snapshot_is_logged (validateId : Z -> bool) (env : Oracle) (n : nat)
        (resp : Response) (e : Err) (w : World) :
  (r_error (env n CGetTasks) = Some e ->
   run env n (initTerminals validateId w) = Thrown e (emit (ECall CGetTasks) w) (S n)) /\
  (r_error resp = Some e ->
   exists s,
     exec validateId [LLayout; LResume 0 resp; LJob] (boot w) = Some s /\
     trace (world s) =
       trace w ++ [ECall CGetTasks;
                   EConsoleError "Failed to initizalize Gitpod task terminals:" (Some e)] /\
     widgets (world s) = widgets w /\
     taskTerminals (world s) = taskTerminals w /\
     promises s !! pendingUpdates s = Some (Done SFulfilled) /\
     hist s = [HStart 0; HEnd 0] /\ jobs s = [] /\ coros s = []).
Proof.
  split.
  - intros Herr. unfold initTerminals, getTasks. cbn [bind bindR call run].
    by rewrite Herr.
  - intros Herr. pose proof (failed_snapshot_in_loop validateId resp e w Herr) as H.
    destruct (exec validateId [LLayout; LResume 0 resp; LJob] (boot w)) as [s|]; [|done].
    by exists s.
Qed.

(** ** One terminal per task identity *)

Lemma is_Some_taskTerminals_create_widget (o : TerminalOptions) (tid : string) (w : World) :
  is_Some (taskTerminals w !! tid) -> is_Some (taskTerminals (create_widget o w).2 !! tid).
Proof.
  intros Hs. destruct (widgets_create_widget o w) as (t & _ & _ & _ & _ & _ & ->).
  destruct (is_ t); [|done]. apply lookup_insert_is_Some'. by right.
Qed.

Lemma initLoop_keeps_registered (validateId : Z -> bool) (tid : string) (w0 : World)
      (tasks : list GitpodTask) (ref : option nat) (w : World) :
  is_Some (taskTerminals w !! tid) -> only w0 (not_requested tid) w ->
  Safe (fun w' => is_Some (taskTerminals w' !! tid) /\ only w0 (not_requested tid) w')
       anything no_error (initLoop validateId tasks ref w).
Proof.
  intros Hs Ho.
  apply (Safe_initLoop validateId _ (fun _ => True)); [| | | | | |by apply Forall_forall|done].
  - intros w1 msg e [H1 H2]. split; [done|]. apply only_emit; [|done]. by intros o.
  - intros w1 task p _ _ _ [H1 H2] Hnone. split; [done|]. apply only_emit; [|done].
    intros o [= <-]. cbn. intros [= Heq]. rewrite <- Heq, Hnone in H1. by destruct H1.
  - intros w1 task p _ _ _ [H1 H2]. split.
    + by apply is_Some_taskTerminals_create_widget.
    + exact (only_same_trace _ _ _ _ (trace_create_widget _ _) H2).
  - intros w1 h [H1 H2]. split; [done|]. apply only_emit; [|done]. by intros o.
  - intros w1 h z [H1 H2]. by split.
  - intros w1 h ref' area mode [H1 H2]. split; [done|]. apply only_emit; [|done]. by intros o.
Qed.

Lemma rest_never_requests (tid : string) (w0 : World) :
  (forall tasks w, only w0 (not_requested tid) w ->
     Safe (only w0 (not_requested tid)) anything no_error (updateTerminals tasks w)) /\
  (forall w, only w0 (not_requested tid) w ->
     Safe (only w0 (not_requested tid)) anything any_error (openDefaultTerminal w)).
Proof.
  split.
  - intros tasks w. apply Safe_updateTerminals.
    + intros w1 msg e H. apply only_emit; [|done]. by intros o.
    + intros w1 task h H _ _.
      refine (only_same_trace _ _ _ _ (trace_dispose_widget _ _) _).
      apply only_emit; [|done]. by intros o.
    + intros w1 task h H _ _ _. apply only_emit; [by intros o|exact H].
  - intros w Ho. apply Safe_openDefaultTerminal; [| | | |done].
    + intros w1 H. apply only_emit; [|done]. by intros o [= <-].
    + intros w1 H. exact (only_same_trace _ _ _ _ (trace_create_widget _ _) H).
    + intros w1 h H. apply only_emit; [|done]. by intros o.
    + intros w1 h H. apply only_emit; [|done]. by intros o.
Qed.

(** X10: a registered terminal is reused.  When the bootstrap loop
    stands at a task that is not [CLOSED] and whose terminal is registered,
    it issues nothing when the backing session id is valid and goes on with
    [ref] set to that terminal; when the id is not valid it restarts the
    terminal in place: [ref] becomes that terminal when the start succeeds,
    and when it is rejected the error is logged and [ref] keeps its value.
    And a bootstrap pass that runs uninterrupted, whatever its payload and
    the answers, requests no terminal under an id that was registered when
    it began. *)
Theorem registered_terminal_is_reused (validateId : Z -> bool) (env : Oracle) (n : nat)
        (task : GitpodTask) (rest : list GitpodTask) (ref : option nat) (h : nat)
        (terminal : Widget) (w : World) :
  task_state task <> CLOSED ->
  taskTerminals w !! toTerminalId (task_id task) = Some h ->
  widgets w !! h = Some terminal ->
  (validateId (terminalId terminal) = true ->
   run env n (initLoop validateId (task :: rest) ref w) =
   run env n (initLoop validateId rest (Some h) w)) /\
  (validateId (terminalId terminal) = false ->
   r_error (env n (CStart h)) = None ->
   run env n (initLoop validateId (task :: rest) ref w) =
   run env (S n)
       (initLoop validateId rest (Some h)
          (started_widget h (r_terminalId (env n (CStart h))) (emit (ECall (CStart h)) w)))) /\
  (forall e,
      validateId (terminalId terminal) = false ->
      r_error (env n (CStart h)) = Some e ->
      run env n (initLoop validateId (task :: rest) ref w) =
      run env (S n)
          (initLoop validateId rest ref
             (emit (EConsoleError "Failed to start Gitpod task terminal:" (Some e))
                   (emit (ECall (CStart h)) w)))) /\
  exists evs,
    trace (final_world (run env n (initTerminals validateId w))) = trace w ++ evs /\
    forall o, ECall (CNewTerminal o) ∈ evs -> o_id o <> Some (toTerminalId (task_id task)).
Proof.
  intros Hc Hreg Hh.
  assert (Hbody : run env n (initTask validateId task ref w) =
                  if validateId (terminalId terminal) then Returned (Some h) w n
                  else match r_error (env n (CStart h)) with
                       | Some e => Thrown e (emit (ECall (CStart h)) w) (S n)
                       | None =>
                           Returned (Some h)
                             (started_widget h (r_terminalId (env n (CStart h)))
                                (emit (ECall (CStart h)) w)) (S n)
                       end).
  { unfold initTask. cbn [bind bindR gets]. rewrite Hreg.
    cbn [bind bindR gets]. rewrite Hh.
    change (default (-1)%Z (terminalId <$> Some terminal)) with (terminalId terminal).
    destruct (validateId (terminalId terminal)); [reflexivity|].
    unfold start. cbn [bind bindR call run]. by destruct (r_error (env n (CStart h))). }
  split; [|split; [|split]].
  - intros Hv. by rewrite run_initLoop_cons, Hbody, Hv.
  - intros Hv Hok. by rewrite run_initLoop_cons, Hbody, Hv, Hok.
  - intros e Hv Herr. by rewrite run_initLoop_cons, Hbody, Hv, Herr.
  - set (tid := toTerminalId (task_id task)).
    assert (Hfin : only w (not_requested tid)
                        (final_world (run env n (initTerminals validateId w)))).
    { assert (H0 : only w (not_requested tid) (emit (ECall CGetTasks) w)).
      { apply only_emit; [by intros o|apply only_refl]. }
      destruct (r_error (env n CGetTasks)) as [e|] eqn:Herr.
      { unfold initTerminals, getTasks. cbn [bind bindR call run]. by rewrite Herr. }
      destruct (run_initTerminals validateId env n w Herr)
        as (ref1 & w1 & n1 & w2 & n2 & H1 & H2 & ->).
      pose proof (Safe_final _ _ _ env (S n) _
                    (initLoop_keeps_registered validateId tid w
                       (r_tasks (env n CGetTasks)) None (emit (ECall CGetTasks) w)
                       (ex_intro _ h Hreg) H0)) as [_ Ho1].
      rewrite H1 in Ho1. cbn [final_world] in Ho1.
      destruct (rest_never_requests tid w) as [Hupd Hdef].
      pose proof (Safe_final _ _ _ env n1 _ (Hupd (r_tasks (env n CGetTasks)) w1 Ho1)) as Ho2.
      rewrite H2 in Ho2. cbn [final_world] in Ho2.
      exact (Safe_final _ _ _ env n2 _ (Hdef w2 Ho2)). }
    destruct Hfin as (evs & Htr & Hall). exists evs. split; [done|].
    intros o Hin. rewrite Forall_forall in Hall. by apply (Hall _ Hin o).
Qed.

(** ** Creating the terminal of a task *)

(** X11: the terminal of a task.  When the bootstrap loop stands at a
    task that is not [CLOSED] ([OPENING] or [RUNNING] alike), has a
    presentation and no terminal registered, and the three calls succeed,
    it requests a terminal with the derived id, kind ['gitpod-task'], the
    presentation's name as title and no server title, starts it, and only
    then places it at the current [ref], in the presentation's area and
    mode or in ['bottom'] and ['tab-after'] when they are missing or empty;
    the loop goes on with [ref] set to the new terminal, which is
    registered under the derived id and is not latched. *)
Theorem task_terminal_is_created (validateId : Z -> bool) (env : Oracle) (n : nat)
        (task : GitpodTask) (rest : list GitpodTask) (p : Presentation)
        (ref : option nat) (w : World) :
  task_state task <> CLOSED ->
  task_presentation task = Some p ->
  taskTerminals w !! toTerminalId (task_id task) = None ->
  (forall o, r_error (env n (CNewTerminal o)) = None) ->
  (forall h, r_error (env (S n) (CStart h)) = None) ->
  (forall h a m, r_error (env (S (S n)) (CActivate h ref a m)) = None) ->
  exists h w' area mode,
    run env n (initLoop validateId (task :: rest) ref w) =
    run env (3 + n) (initLoop validateId rest (Some h) w') /\
    trace w' = trace w ++
      [ECall (CNewTerminal {| o_id := Some ("gitpod-task-terminal:" +:+ task_id task);
                              o_kind := Some "gitpod-task";
                              o_title := Some (name p);
                              o_useServerTitle := Some false |});
       ECall (CStart h);
       ECall (CActivate h ref area mode)] /\
    (area = "bottom" /\ (openIn p = None \/ openIn p = Some "") \/
     area <> "" /\ openIn p = Some area) /\
    (mode = "tab-after" /\ (openMode p = None \/ openMode p = Some "") \/
     mode <> "" /\ openMode p = Some mode) /\
    widgets w !! h = None /\
    taskTerminals w' !! toTerminalId (task_id task) = Some h /\
    exists terminal,
      widgets w' !! h = Some terminal /\
      w_id terminal = toTerminalId (task_id task) /\
      kind terminal = Some "gitpod-task" /\
      remoteTerminal terminal = None /\
      terminalId terminal = r_terminalId (env (S n) (CStart h)) /\
      disposed terminal = false.
Proof.
  intros Hc Hp Hreg Hnew Hstart Hact.
  assert (Hdef : forall o d, d <> "" ->
             or_default o d = d /\ (o = None \/ o = Some "") \/
             or_default o d <> "" /\ o = Some (or_default o d)).
  { intros [[|c s]|] d Hd; cbn; [left|right|left]; auto. }
  rewrite run_initLoop_cons by done.
  unfold initTask. cbn [bind bindR gets]. rewrite Hreg.
  unfold presentation_of. rewrite Hp. cbn [bind bindR ret].
  unfold newTerminal. cbn [bind bindR call run]. rewrite Hnew. cbn [bindR].
  fold (task_options task p).
  set (w1 := emit (ECall (CNewTerminal (task_options task p))) w).
  pose proof (taskTerminals_create_task_widget task p w1) as Hnewreg.
  pose proof (trace_create_widget (task_options task p) w1) as Htr.
  pose proof (create_widget_fresh (task_options task p) w1) as Hfresh.
  destruct (widgets_create_widget (task_options task p) w1)
    as (t & Hws & Hid & Hk & Hrt & Hd & _).
  destruct (create_widget (task_options task p) w1) as [h w2]. cbn [fst snd] in *.
  unfold start, activateTerminal. cbn [bind bindR call run]. rewrite Hstart.
  cbn [bindR modify run bind call]. rewrite Hact. cbn [bindR ret run].
  eexists _, _, _, _. split; [reflexivity|]. split.
  { cbn [emit trace started_widget set_widgets]. rewrite Htr. unfold w1. cbn [emit trace].
    by rewrite <- !app_assoc. }
  split; [by apply Hdef|]. split; [by apply Hdef|]. split; [exact Hfresh|].
  split; [exact Hnewreg|].
  exists (set_terminalId (r_terminalId (env (S n) (CStart h))) t).
  split; [|done].
  cbn [emit widgets started_widget set_widgets]. rewrite Hws.
  by rewrite lookup_alter_eq, lookup_insert_eq.
Qed.

(** ** Which states make an update pass act *)

Lemma remote_dispose_widget (h h' : nat) (w : World) :
  widgets (dispose_widget h w) !! h' ≫= remoteTerminal = widgets w !! h' ≫= remoteTerminal.
Proof.
  unfold dispose_widget. destruct (widgets w !! h) as [d|] eqn:Hd; [|done].
  destruct (disposed d); [done|].
  assert (Hw : forall w1, widgets (if is_ d then onDidDispose d w1 else w1) = widgets w1).
  { intros w1. by destruct (is_ d). }
  rewrite Hw. cbn [set_widgets widgets]. destruct (decide (h = h')) as [<-|Hne].
  - by rewrite lookup_insert_eq, Hd.
  - by rewrite lookup_insert_ne.
Qed.

(** X12: only a [RUNNING] task makes an update pass attach, and only a
    [CLOSED] task makes it dispose.  A pass over tasks none of which is
    [RUNNING] executes no command and leaves every latch as it was; a pass
    over tasks none of which is [CLOSED] disposes nothing and leaves the
    registry and every disposal flag as they were. *)
Theorem update_pass_acts_by_state (env : Oracle) (n : nat) (tasks : list GitpodTask)
        (w : World) :
  (Forall (fun task => task_state task <> RUNNING) tasks ->
   exists evs,
     trace (final_world (run env n (updateTerminals tasks w))) = trace w ++ evs /\
     (forall h cwd args, ECall (CExecuteCommand h cwd args) ∉ evs) /\
     forall h, widgets (final_world (run env n (updateTerminals tasks w))) !! h
                 ≫= remoteTerminal = widgets w !! h ≫= remoteTerminal) /\
  (Forall (fun task => task_state task <> CLOSED) tasks ->
   exists evs,
     trace (final_world (run env n (updateTerminals tasks w))) = trace w ++ evs /\
     (forall h, EDispose h ∉ evs) /\
     taskTerminals (final_world (run env n (updateTerminals tasks w))) = taskTerminals w /\
     forall h, disposed <$> widgets (final_world (run env n (updateTerminals tasks w))) !! h
               = disposed <$> widgets w !! h).
Proof.
  split; intros HP.
  - assert (HS : Safe (unattached_since w) anything no_error (updateTerminals tasks w)).
    { apply (Safe_updateTerminals_on _ (fun task => task_state task <> RUNNING));
        [| | |done|].
      - intros w1 msg e [H1 H2]. split; [by apply only_emit|done].
      - intros w1 task h _ [H1 H2] _ _. split.
        + refine (only_same_trace _ _ _ _ (trace_dispose_widget _ _) _).
          by apply only_emit.
        + intros h'. rewrite remote_dispose_widget. apply H2.
      - intros w1 task h Hnr _ _ Hr. done.
      - split; [apply only_refl|done]. }
    apply (Safe_final _ _ _ env n) in HS. destruct HS as [(evs & Htr & Hall) Hlat].
    exists evs. split; [done|]. split; [|done].
    intros h cwd args Hin. rewrite Forall_forall in Hall. by apply (Hall _ Hin h cwd args).
  - assert (HS : Safe (undisposed_since w) anything no_error (updateTerminals tasks w)).
    { apply (Safe_updateTerminals_on _ (fun task => task_state task <> CLOSED));
        [| | |done|].
      - intros w1 msg e (H1 & H2 & H3). split; [by apply only_emit|done].
      - intros w1 task h Hnc _ _ Hc. done.
      - intros w1 task h _ (H1 & H2 & H3) _ _ _. split; [|split].
        + apply only_emit; [done|exact H1].
        + exact H2.
        + intros h'. cbn [emit set_widgets widgets]. rewrite <- H3.
          destruct (decide (h = h')) as [<-|Hne].
          * rewrite lookup_alter_eq. by destruct (widgets w1 !! h).
          * by rewrite lookup_alter_ne.
      - split; [apply only_refl|done]. }
    apply (Safe_final _ _ _ env n) in HS. destruct HS as ((evs & Htr & Hall) & Hreg & Hd).
    exists evs. split; [done|]. split; [|done].
    intros h Hin. rewrite Forall_forall in Hall. by apply (Hall _ Hin h).
Qed.

(** ** What the bootstrap loop touches *)

(** X13: the first loop of the bootstrap pass only requests, starts and
    places terminals and logs errors: it executes no command, disposes
    nothing, leaves every latch as it was and unregisters nothing. *)
Theorem bootstrap_loop_footprint (validateId : Z -> bool) (env : Oracle) (n : nat)
        (tasks : list GitpodTask) (ref : option nat) (w : World) :
  exists evs,
    trace (final_world (run env n (initLoop validateId tasks ref w))) = trace w ++ evs /\
    Forall loop_event evs /\
    (forall h t0, widgets w !! h = Some t0 ->
       exists t,
         widgets (final_world (run env n (initLoop validateId tasks ref w))) !! h = Some t /\
         w_id t = w_id t0 /\ kind t = kind t0 /\
         remoteTerminal t = remoteTerminal t0 /\ disposed t = disposed t0) /\
    (forall id, is_Some (taskTerminals w !! id) ->
       is_Some (taskTerminals (final_world (run env n (initLoop validateId tasks ref w)))
                  !! id)).
Proof.
  assert (HS : Safe (loop_footprint w) anything no_error (initLoop validateId tasks ref w)).
  { apply (Safe_initLoop validateId _ (fun _ => True)); [| | | | | |by apply Forall_forall|].
    - intros w1 msg e (H1 & H2 & H3). split; [by apply only_emit|done].
    - intros w1 task p _ _ _ (H1 & H2 & H3) _. split; [by apply only_emit|done].
    - intros w1 task p _ _ _ (H1 & H2 & H3). split; [|split].
      + exact (only_same_trace _ _ _ _ (trace_create_widget _ _) H1).
      + intros h t0 Ht0. destruct (H2 h t0 Ht0) as (t & Ht & ?). exists t.
        split; [|done]. by apply widgets_create_widget_other.
      + intros id Hid. by apply is_Some_taskTerminals_create_widget, H3.
    - intros w1 h (H1 & H2 & H3). split; [by apply only_emit|done].
    - intros w1 h z (H1 & H2 & H3). split; [exact H1|]. split; [|exact H3].
      intros h' t0 Ht0. destruct (H2 h' t0 Ht0) as (t & Ht & ?).
      cbn [started_widget set_widgets widgets]. destruct (decide (h = h')) as [<-|Hne].
      + exists (set_terminalId z t). by rewrite lookup_alter_eq, Ht.
      + exists t. by rewrite lookup_alter_ne.
    - intros w1 h ref' area mode (H1 & H2 & H3). split; [by apply only_emit|done].
    - split; [apply only_refl|]. split; [|done]. intros h t0 Ht0. by exists t0. }
  apply (Safe_final _ _ _ env n) in HS. destruct HS as ((evs & Htr & Hall) & H2 & H3).
  by exists evs.
Qed.

(** ** The passes end, and how many calls they make *)

Lemma updateTask_calls (env : Oracle) (n : nat) (task : GitpodTask) (w : World) :
  match run env n (updateTask task w) with
  | Returned _ _ n' | Thrown _ _ n' => n <= n' <= S n
  end.
Proof.
  unfold updateTask, dispose, executeCommand, call, modify, gets, ret, bind.
  cbn [bindR]. destruct (taskTerminals w !! _) as [h|]; cbn [run bindR]; [|lia].
  destruct (decide _); cbn [run bindR]; [lia|].
  destruct (_ || _); cbn [run bindR]; [lia|].
  destruct (r_error _); cbn [run bindR]; lia.
Qed.

Lemma initTask_calls (validateId : Z -> bool) (env : Oracle) (n : nat)
      (task : GitpodTask) (ref : option nat) (w : World) :
  match run env n (initTask validateId task ref w) with
  | Returned _ _ n' | Thrown _ _ n' => n <= n' <= 3 + n
  end.
Proof.
  unfold initTask, presentation_of, newTerminal, start, activateTerminal, call, modify,
    gets, ret, throw, bind.
  cbn [bindR]. destruct (taskTerminals w !! _) as [h|]; cbn [run bindR].
  - destruct (validateId _); cbn [run bindR]; [lia|].
    destruct (r_error _); cbn [run bindR]; lia.
  - destruct (task_presentation task); cbn [run bindR]; [|lia].
    destruct (r_error _); cbn [run bindR]; [lia|].
    destruct (create_widget _ _) as [h w']. cbn [run bindR].
    destruct (r_error _); cbn [run bindR]; [lia|].
    destruct (r_error _); cbn [run bindR]; lia.
Qed.

(** X14: the two loops always run to their end, whatever fails in them:
    an update pass never rejects and makes at most one call per task; the
    first loop of the bootstrap pass never rejects and makes at most three
    calls per task, and none for a payload of [CLOSED] tasks. *)
Theorem loops_never_reject (validateId : Z -> bool) (env : Oracle) (n : nat)
        (tasks : list GitpodTask) (ref : option nat) (w : World) :
  (exists w' n',
     run env n (updateTerminals tasks w) = Returned tt w' n' /\
     n <= n' <= n + length tasks) /\
  (exists ref' w' n',
     run env n (initLoop validateId tasks ref w) = Returned ref' w' n' /\
     n <= n' <= n + 3 * length (filter (fun task => task_state task <> CLOSED) tasks)).
Proof.
  split.
  - revert n w. induction tasks as [|task rest IH]; intros n w.
    + exists w, n. split; [reflexivity|]. cbn [length]. lia.
    + rewrite run_updateTerminals_cons.
      pose proof (updateTask_calls env n task w) as Hc.
      destruct (run env n (updateTask task w)) as [[] w1 n1|e w1 n1].
      * destruct (IH n1 w1) as (w' & n' & Hrun & Hn).
        exists w', n'. split; [done|]. cbn [length]. lia.
      * destruct (IH n1 (emit (EConsoleError "Failed to update Gitpod task terminal:"
                                   (Some e)) w1)) as (w' & n' & Hrun & Hn).
        exists w', n'. split; [done|]. cbn [length]. lia.
  - revert n ref w. induction tasks as [|task rest IH]; intros n ref w.
    + exists ref, w, n. split; [reflexivity|]. cbn. lia.
    + destruct (decide (task_state task = CLOSED)) as [Hc|Hc].
      * rewrite filter_cons_False by (intros H; by apply H).
        cbn [initLoop]. destruct (decide (task_state task = CLOSED)); [|done].
        apply IH.
      * rewrite filter_cons_True by done.
        rewrite run_initLoop_cons by done.
        pose proof (initTask_calls validateId env n task ref w) as Hn1.
        destruct (run env n (initTask validateId task ref w)) as [ref1 w1 n1|e w1 n1].
        -- destruct (IH n1 ref1 w1) as (ref' & w' & n' & Hrun & Hn).
           exists ref', w', n'. split; [done|]. cbn [length]. lia.
        -- destruct (IH n1 ref (emit (EConsoleError "Failed to start Gitpod task terminal:"
                                        (Some e)) w1)) as (ref' & w' & n' & Hrun & Hn).
           exists ref', w', n'. split; [done|]. cbn [length]. lia.
Qed.

(** ** The further properties on sample runs *)

(** X5 in an empty state. *)
Lemma default_terminal_only_when_none_witness :
  exists h w',
    run (answering []) 0 (openDefaultTerminal empty_world) = Returned tt w' 2 /\
    trace w' = [ECall (CNewTerminal generic_options); EStartDetached h; ECall (COpen h)].
Proof.
  destruct (default_terminal_only_when_none (answering []) 0 empty_world) as [_ H].
  destruct H as (h & w' & Hrun & Htr & _).
  - vm_compute. reflexivity.
  - reflexivity.
  - intros h. reflexivity.
  - by exists h, w'.
Defined.

(** X6 on a bootstrap pass without tasks in an empty state. *)
Lemma bootstrap_leaves_a_terminal_witness :
  match run (answering []) 0 (initTerminals valid_id empty_world) with
  | Returned _ w' _ => 0 < all_length w'
  | Thrown _ _ _ => False
  end.
Proof.
  destruct (run (answering []) 0 (initTerminals valid_id empty_world))
    as [[] w' n'|e w' n'] eqn:He.
  - exact (bootstrap_leaves_a_terminal valid_id (answering []) 0 empty_world w' n' He).
  - vm_compute in He. discriminate He.
Defined.

(** X7 on a running task whose terminal is not attached yet. *)
Lemma update_pass_replay_is_noop_witness :
  run (answering []) 7
      (updateTerminals [sample_task "t1" RUNNING (Some "r1")]
         (final_world
            (run (answering []) 0
                 (updateTerminals [sample_task "t1" RUNNING (Some "r1")]
                    (sample_world (sample_terminal (toTerminalId "t1") None)))))) =
  Returned tt
    (final_world
       (run (answering []) 0
            (updateTerminals [sample_task "t1" RUNNING (Some "r1")]
               (sample_world (sample_terminal (toTerminalId "t1") None))))) 7.
Proof.
  apply (update_pass_replay_is_noop (answering []) (answering []) 0 7).
  - by apply registry_live_sample.
  - intros task Hin _. apply list_elem_of_singleton in Hin as ->. reflexivity.
Defined.


(** X9 when nothing answers. *)
Lemma failed_snapshot_is_logged_witness :
  run offline 0 (initTerminals valid_id empty_world) =
  Thrown (Failure "offline") (emit (ECall CGetTasks) empty_world) 1.
Proof.
  apply (failed_snapshot_is_logged valid_id offline 0 ok (Failure "offline") empty_world).
  reflexivity.
Defined.

(** X10 on a task whose terminal exists with a valid session. *)
Lemma registered_terminal_is_reused_witness :
  run (answering []) 0
      (initLoop valid_id [sample_task "t1" OPENING None] None
         (sample_world (sample_terminal (toTerminalId "t1") None))) =
  run (answering []) 0
      (initLoop valid_id [] (Some 0)
         (sample_world (sample_terminal (toTerminalId "t1") None))).
Proof.
  destruct (registered_terminal_is_reused valid_id (answering []) 0
              (sample_task "t1" OPENING None) [] None 0
              (sample_terminal (toTerminalId "t1") None)
              (sample_world (sample_terminal (toTerminalId "t1") None)))
    as (H & _).
  - discriminate.
  - vm_compute. reflexivity.
  - vm_compute. reflexivity.
  - apply H. reflexivity.
Defined.

(** X11 on an opening task in an empty state. *)
Lemma task_terminal_is_created_witness :
  exists h w',
    run (answering []) 0
        (initLoop valid_id [sample_task "t1" OPENING None] None empty_world) =
    run (answering []) 3 (initLoop valid_id [] (Some h) w') /\
    taskTerminals w' !! toTerminalId "t1" = Some h.
Proof.
  destruct (task_terminal_is_created valid_id (answering []) 0
              (sample_task "t1" OPENING None) []
              {| name := "build"; openIn := None; openMode := None |} None empty_world)
    as (h & w' & area & mode & Hrun & _ & _ & _ & _ & Hreg & _).
  - discriminate.
  - reflexivity.
  - vm_compute. reflexivity.
  - intros o. reflexivity.
  - intros h. reflexivity.
  - intros h a m. reflexivity.
  - by exists h, w'.
Defined.

(** X12 on a payload with one opening task. *)
Lemma update_pass_acts_by_state_witness :
  exists evs,
    trace (final_world
             (run (answering []) 0
                  (updateTerminals [sample_task "t1" OPENING None]
                     (sample_world (sample_terminal (toTerminalId "t1") None))))) =
    trace (sample_world (sample_terminal (toTerminalId "t1") None)) ++ evs /\
    forall h cwd args, ECall (CExecuteCommand h cwd args) ∉ evs.
Proof.
  destruct (update_pass_acts_by_state (answering []) 0 [sample_task "t1" OPENING None]
              (sample_world (sample_terminal (toTerminalId "t1") None))) as [H _].
  destruct H as (evs & Htr & Hno & _).
  - constructor; [discriminate|constructor].
  - by exists evs.
Defined.

(** X4 on a closed task whose terminal is registered: the widget is still
    there after the pass, under its id. *)
Lemma update_pass_adds_nothing_witness :
  match widgets (final_world
                   (run (answering []) 0
                        (updateTerminals [sample_task "t1" CLOSED None]
                           (sample_world (sample_terminal (toTerminalId "t1") None)))))
          !! 0 with
  | Some t => w_id t = toTerminalId "t1"
  | None => True
  end.
Proof.
  destruct (update_pass_adds_nothing (answering []) 0 [sample_task "t1" CLOSED None]
              (sample_world (sample_terminal (toTerminalId "t1") None)))
    as (_ & _ & H).
  destruct (widgets _ !! 0) as [t|] eqn:Ht; [|exact I].
  destruct (H 0 t Ht) as (t0 & Ht0 & Hid & _).
  rewrite Hid.
  assert (Hs : widgets (sample_world (sample_terminal (toTerminalId "t1") None)) !! 0
               = Some (sample_terminal (toTerminalId "t1") None))
    by (vm_compute; reflexivity).
  rewrite Hs in Ht0. injection Ht0 as <-. reflexivity.
Defined.

(** X13 on an opening task whose terminal is registered: the terminal
    stays registered. *)
Lemma bootstrap_loop_footprint_witness :
  is_Some (taskTerminals
             (final_world
                (run (answering []) 0
                     (initLoop valid_id [sample_task "t2" OPENING None] None
                        (sample_world (sample_terminal (toTerminalId "t1") None)))))
             !! toTerminalId "t1").
Proof.
  destruct (bootstrap_loop_footprint valid_id (answering []) 0
              [sample_task "t2" OPENING None] None
              (sample_world (sample_terminal (toTerminalId "t1") None)))
    as (evs & _ & _ & _ & H).
  apply H. exists 0. vm_compute. reflexivity.
Defined.

(** X14 on a running task whose terminal is registered. *)
Lemma loops_never_reject_witness :
  exists w' n',
    run rejecting_attach 0
        (updateTerminals [sample_task "t1" RUNNING (Some "r1")]
           (sample_world (sample_terminal (toTerminalId "t1") None))) = Returned tt w' n' /\
    n' <= 1.
Proof.
  destruct (loops_never_reject valid_id rejecting_attach 0
              [sample_task "t1" RUNNING (Some "r1")] None
              (sample_world (sample_terminal (toTerminalId "t1") None)))
    as [(w' & n' & H & Hn) _].
  exists w', n'. split; [exact H|]. cbn [length] in Hn. lia.
Defined.
